(** * Anchor-grid decoding head of the YOLO face/attribute detector

    A shallow embedding of [src/model.py]: the [ConvModule] constructor and
    the detection head [AnchornizedFaceQuality] ([__init__], [_make_grid],
    [_reshape], [forward]); then [bias_init], [ConvModule.fuse], and the
    constructors of the backbone and the neck with the shapes that flow
    through their [forward] methods.

    Tensors are modelled as torch stores contiguous ones: a shape and the
    row-major list of elements.  Element arithmetic (float32 in the source) is
    kept behind the [Scalar] interface, so the structural results hold for any
    implementation of it; the numeric bound on the decoded size is proved for
    the real-number instance with the logistic function.

    Python exceptions are values of [exn]; the head is a record threaded
    through a state-and-error monad in which a raised exception keeps the
    mutations made before it, as it does in Python. *)

From Stdlib Require Import String Ascii.
From Stdlib Require Import List Arith Lia ZArith QArith Bool Reals Lra.
Import ListNotations.
Close Scope Q_scope.
Close Scope R_scope.
Local Open Scope nat_scope.
Local Open Scope list_scope.

Set Implicit Arguments.

(* ================================================================== *)
(** * Exceptions and fallible results *)

Inductive exn : Type :=
| IndexError
| ValueError
| RuntimeError
| ZeroDivisionError
| NotImplementedError.

Inductive outcome (A : Type) : Type :=
| Ok (a : A)
| Raise (e : exn).

Arguments Ok {A} a.
Arguments Raise {A} e.

Definition obind {A B} (m : outcome A) (k : A -> outcome B) : outcome B :=
  match m with
  | Ok a => k a
  | Raise e => Raise e
  end.

Notation "'let!' x ':=' m 'in' k" := (obind m (fun x => k))
  (at level 10, x name, m at level 100, k at level 200).

(* ================================================================== *)
(** * Element arithmetic *)

(** The operations the head applies to tensor elements. *)
Class Scalar (T : Type) : Type := {
  s_zero : T;                 (* 0.0, the value of [torch.zeros] *)
  s_of_nat : nat -> T;        (* integer to float, as [arange(..., dtype=t)] *)
  s_two : T;                  (* the literal 2.0 *)
  s_half : T;                 (* the literal 0.5 *)
  s_add : T -> T -> T;
  s_sub : T -> T -> T;
  s_mul : T -> T -> T;
  s_sigmoid : T -> T          (* [Tensor.sigmoid], elementwise *)
}.

(* ================================================================== *)
(** * Tensors: shape and row-major data *)

Section Tensors.
Context {T : Type} {SC : Scalar T}.

Record Tensor : Type := mkTensor { shape : list nat; data : list T }.

Definition numel (sh : list nat) : nat := fold_right Nat.mul 1 sh.

(** A tensor holds exactly as many elements as its shape says. *)
Definition wf (t : Tensor) : Prop := length (data t) = numel (shape t).

(** Row-major offset of a multi-index, and its inverse. *)
Fixpoint ravel (sh idx : list nat) : nat :=
  match sh, idx with
  | _ :: sh', i :: idx' => i * numel sh' + ravel sh' idx'
  | _, _ => 0
  end.

Fixpoint unravel (sh : list nat) (j : nat) : list nat :=
  match sh with
  | [] => []
  | _ :: sh' => j / numel sh' :: unravel sh' (j mod numel sh')
  end.

(** [t[idx]] for a full multi-index. *)
Definition tget (t : Tensor) (idx : list nat) : T :=
  nth (ravel (shape t) idx) (data t) s_zero.

(** The contiguous tensor of shape [sh] whose element at [idx] is [f idx]. *)
Definition tabulate (sh : list nat) (f : list nat -> T) : Tensor :=
  mkTensor sh (map (fun j => f (unravel sh j)) (seq 0 (numel sh))).

(** Elementwise unary operation ([.sigmoid()], [* 2.0], [- 0.5], [* S]). *)
Definition tmap (f : T -> T) (t : Tensor) : Tensor :=
  mkTensor (shape t) (map f (data t)).

(** [t.view(sh)]: same storage under a shape with the same element count. *)
Definition view (sh : list nat) (t : Tensor) : outcome Tensor :=
  if numel sh =? numel (shape t) then Ok (mkTensor sh (data t))
  else Raise RuntimeError.

(** [t.view(pre..., -1, post...)]: one extent is inferred; torch refuses to
    infer it when the known extents multiply to zero or do not divide the
    element count. *)
Definition view_infer (pre post : list nat) (t : Tensor) : outcome Tensor :=
  let known := numel pre * numel post in
  let total := numel (shape t) in
  if known =? 0 then Raise RuntimeError
  else if total mod known =? 0
       then Ok (mkTensor (pre ++ total / known :: post) (data t))
       else Raise RuntimeError.

(** [t.flatten()] *)
Definition flatten (t : Tensor) : Tensor :=
  mkTensor [numel (shape t)] (data t).

(** [t.permute(dims).contiguous()]: extent [p] of the result is extent
    [dims[p]] of [t], and the element at [idx'] is the element of [t] whose
    index at [dims[p]] is [idx'[p]]. *)
Fixpoint index_of (d : nat) (dims : list nat) : nat :=
  match dims with
  | [] => 0
  | x :: dims' => if x =? d then 0 else S (index_of d dims')
  end.

Definition unpermute (dims idx' : list nat) : list nat :=
  map (fun d => nth (index_of d dims) idx' 0) (seq 0 (length dims)).

Definition permute (dims : list nat) (t : Tensor) : Tensor :=
  tabulate (map (fun d => nth d (shape t) 0) dims)
           (fun idx' => tget t (unpermute dims idx')).

(** Broadcasting, aligned on the trailing extents. *)
Fixpoint map2 {A B C} (f : A -> B -> C) (l : list A) (m : list B) : list C :=
  match l, m with
  | a :: l', b :: m' => f a b :: map2 f l' m'
  | _, _ => []
  end.

Definition pad_shape (n : nat) (sh : list nat) : list nat :=
  repeat 1 (n - length sh) ++ sh.

Fixpoint broadcast_dims (a b : list nat) : option (list nat) :=
  match a, b with
  | [], [] => Some []
  | x :: a', y :: b' =>
      match broadcast_dims a' b' with
      | Some r =>
          if x =? y then Some (x :: r)
          else if x =? 1 then Some (y :: r)
          else if y =? 1 then Some (x :: r)
          else None
      | None => None
      end
  | _, _ => None
  end.

Definition broadcast_shapes (a b : list nat) : option (list nat) :=
  let n := Nat.max (length a) (length b) in
  broadcast_dims (pad_shape n a) (pad_shape n b).

(** The index into an operand of shape [sh] that a result index reads. *)
Definition bidx (sh idx : list nat) : list nat :=
  map2 (fun s i => if s =? 1 then 0 else i) sh
       (skipn (length idx - length sh) idx).

(** Elementwise binary operation with broadcasting. *)
Definition tzip (op : T -> T -> T) (a b : Tensor) : outcome Tensor :=
  match broadcast_shapes (shape a) (shape b) with
  | Some sh =>
      Ok (tabulate sh (fun idx =>
            op (tget a (bidx (shape a) idx)) (tget b (bidx (shape b) idx))))
  | None => Raise RuntimeError
  end.

(** Can a tensor of shape [src] be expanded to shape [dst]? *)
Definition expandable (src dst : list nat) : bool :=
  (length src <=? length dst) &&
  forallb (fun p => (fst p =? snd p) || (fst p =? 1))
          (combine src (skipn (length dst - length src) dst)).

(** [t.expand(sh)] *)
Definition expand (sh : list nat) (t : Tensor) : outcome Tensor :=
  if expandable (shape t) sh
  then Ok (tabulate sh (fun idx => tget t (bidx (shape t) idx)))
  else Raise RuntimeError.

(** [t[i]]: the [i]-th slice along the first extent. *)
Definition select0 (i : nat) (t : Tensor) : outcome Tensor :=
  match shape t with
  | n :: sh' =>
      if i <? n
      then Ok (tabulate sh' (fun idx => tget t (i :: idx)))
      else Raise IndexError
  | [] => Raise IndexError
  end.

Fixpoint map_last (f : nat -> nat) (l : list nat) : list nat :=
  match l with
  | [] => []
  | [k] => [f k]
  | x :: l' => x :: map_last f l'
  end.

(** Shape of [t[..., lo:hi]]: Python clamps both ends to the extent. *)
Definition slice_shape (lo hi : nat) (sh : list nat) : list nat :=
  map_last (fun K => Nat.min hi K - Nat.min lo K) sh.

(** [t[..., lo:hi]] read as a tensor. *)
Definition slice_last (lo hi : nat) (t : Tensor) : outcome Tensor :=
  match shape t with
  | [] => Raise IndexError
  | _ :: _ =>
      Ok (tabulate (slice_shape lo hi (shape t))
                   (fun idx => tget t (map_last (fun k => k + lo) idx)))
  end.

(** [t[..., lo:hi] = v]: [v] is expanded to the slice's shape. *)
Definition set_slice_last (lo hi : nat) (t v : Tensor) : outcome Tensor :=
  match shape t with
  | [] => Raise IndexError
  | _ :: _ =>
      if expandable (shape v) (slice_shape lo hi (shape t))
      then Ok (tabulate (shape t) (fun idx =>
                 let k := last idx 0 in
                 if (lo <=? k) && (k <? hi)
                 then tget v (bidx (shape v) (map_last (fun k => k - lo) idx))
                 else tget t idx))
      else Raise RuntimeError
  end.

(** [torch.stack((a, b), 2)] of two 2-D tensors of one shape. *)
Definition stack2_dim2 (a b : Tensor) : outcome Tensor :=
  match shape a with
  | [r; c] =>
      if list_eq_dec Nat.eq_dec (shape a) (shape b)
      then Ok (tabulate [r; c; 2] (fun idx =>
                 match idx with
                 | [i; j; 0] => tget a [i; j]
                 | [i; j; _] => tget b [i; j]
                 | _ => s_zero
                 end))
      else Raise RuntimeError
  | _ => Raise IndexError
  end.

(** [torch.arange(n, dtype=t)] *)
Definition arange (n : nat) : Tensor := tabulate [n] (fun idx => s_of_nat (hd 0 idx)).

(** [torch.meshgrid(y, x, indexing="ij")] of two 1-D tensors; without the
    [indexing] argument torch uses the same "ij" convention. *)
Definition meshgrid_ij (y x : Tensor) : Tensor * Tensor :=
  let ny := nth 0 (shape y) 0 in
  let nx := nth 0 (shape x) 0 in
  (tabulate [ny; nx] (fun idx => tget y [nth 0 idx 0]),
   tabulate [ny; nx] (fun idx => tget x [nth 1 idx 0])).

(** [torch.cat(ts, dim=1)]: the tensors agree on every extent but the
    second; the result lists their rows of extent 1 one tensor after the
    other. *)
Definition dim1 (t : Tensor) : nat := nth 1 (shape t) 0.

Fixpoint locate (ts : list Tensor) (j : nat) : Tensor * nat :=
  match ts with
  | [] => (mkTensor [] [], j)
  | t :: ts' => if j <? dim1 t then (t, j) else locate ts' (j - dim1 t)
  end.

Definition cat_compatible (n : nat) (rest : list nat) (t : Tensor) : bool :=
  match shape t with
  | n' :: _ :: rest' =>
      (n' =? n) && if list_eq_dec Nat.eq_dec rest' rest then true else false
  | _ => false
  end.

Definition cat1 (ts : list Tensor) : outcome Tensor :=
  match ts with
  | [] => Raise RuntimeError
  | t0 :: _ =>
      match shape t0 with
      | n :: _ :: rest =>
          if forallb (cat_compatible n rest) ts
          then Ok (tabulate (n :: list_sum (map dim1 ts) :: rest)
                     (fun idx =>
                        match idx with
                        | b :: j :: r =>
                            let (t, j') := locate ts j in tget t (b :: j' :: r)
                        | _ => s_zero
                        end))
          else Raise RuntimeError
      | _ => Raise IndexError
      end
  end.

End Tensors.

Arguments Tensor T : clear implicits.

(* ================================================================== *)
(** * ConvModule: convolution, batch norm and a string-selected activation *)

Inductive activation : Type := ReLU6 | ReLU | LeakyReLU | Hardswish.

(** The layer objects of torch are kept as their configuration. *)
Record Conv2d : Type := mkConv2d {
  in_channels : Z; out_channels : Z;
  kernel_size : Z; conv_stride : Z; padding : Z;
  groups : Z; has_bias : bool
}.

Record ConvModule : Type := mkConvModule {
  conv : Conv2d;
  bn : Z;                 (* BatchNorm2d(c_out) *)
  relu : activation;
  fused : bool
}.

(** [nn.Conv2d(c_in, c_out, k, s, p, bias=bias, groups=g)] on integers:
    torch wants a positive number of groups that divides both channel
    counts ([ValueError]), and allocates a weight of shape
    (c_out, c_in // g, k, k), which no negative extent allows
    ([RuntimeError]).  Stride and padding are looked at by the first
    forward call only. *)
Definition Conv2d_init (c_in c_out k s p g : Z) (bias : bool) : outcome Conv2d :=
  if (g <=? 0)%Z then Raise ValueError
  else if negb (c_in mod g =? 0)%Z then Raise ValueError
  else if negb (c_out mod g =? 0)%Z then Raise ValueError
  else if ((c_out <? 0) || (c_in / g <? 0) || (k <? 0))%Z then Raise RuntimeError
  else Ok (mkConv2d c_in c_out k s p g bias).

(** [nn.BatchNorm2d(c)] allocates its parameters and statistics, [c]
    numbers each. *)
Definition BatchNorm2d_init (c : Z) : outcome Z :=
  if (c <? 0)%Z then Raise RuntimeError else Ok c.

(** [ConvModule.__init__]: the two layers are built before the activation
    is looked at. *)
Definition ConvModule_init (c_in c_out k s p : Z) (act : string) (g : Z)
  : outcome ConvModule :=
  let! conv := Conv2d_init c_in c_out k s p g false in
  let! bn := BatchNorm2d_init c_out in
  if String.eqb act "relu6" then Ok (mkConvModule conv bn ReLU6 false)
  else if String.eqb act "relu" then Ok (mkConvModule conv bn ReLU false)
  else if String.eqb act "leakyrelu" then Ok (mkConvModule conv bn LeakyReLU false)
  else if String.eqb act "hardswish" then Ok (mkConvModule conv bn Hardswish false)
  else Raise NotImplementedError.

(** The arguments that the two layer constructors take: a positive number
    of groups dividing both channel counts, and no negative extent. *)
Definition layer_args_ok (c_in c_out k g : Z) : bool :=
  ((0 <? g) && (c_in mod g =? 0) && (c_out mod g =? 0) &&
   (0 <=? c_in) && (0 <=? c_out) && (0 <=? k))%Z.

(** The activation kinds the constructor recognises. *)
Definition recognized_activations : list string :=
  ["relu6"; "relu"; "leakyrelu"; "hardswish"]%string.

(** [MergedHead]: two 3x3 conv blocks and a 1x1 convolution. *)
Record MergedHead : Type := mkMergedHead {
  block0 : ConvModule; block1 : ConvModule; block2 : Conv2d
}.

Definition MergedHead_init (w out_ch : Z) (act : string) : outcome MergedHead :=
  let! b0 := ConvModule_init w w 3 1 1 act 1 in
  let! b1 := ConvModule_init w w 3 1 1 act 1 in
  let! b2 := Conv2d_init w out_ch 1 1 0 1 true in
  Ok (mkMergedHead b0 b1 b2).

(** Python's [int(q)] on a number: truncation toward zero. *)
Definition int_of_Q (q : Q) : Z := Z.quot (Qnum q) (Z.pos (Qden q)).

(* ================================================================== *)
(** * The suppression module (file [nms.py], not among the sources) *)

Record AnchornizedNMS : Type := mkNMS {
  nms_arg0 : Z;
  conf_threshold : Q;
  iou_threshold : Q
}.

Definition in_unit_interval (q : Q) : bool :=
  (Qle_bool 0 q && Qle_bool q 1)%bool.

(** Modelled from the spec: the constructor of [AnchornizedNMS], whose source
    is missing.  The spec says that threshold values outside [0,1] are a
    configuration error reported at construction. *)
Definition AnchornizedNMS_init (arg0 : Z) (conf iou : Q) : outcome AnchornizedNMS :=
  if in_unit_interval conf && in_unit_interval iou
  then Ok (mkNMS arg0 conf iou)
  else Raise ValueError.

(* ================================================================== *)
(** * The detection head [AnchornizedFaceQuality] *)

Section Head.
Context {T : Type} {SC : Scalar T}.

(** What the suppression module returns. *)
Variable Detections : Type.

(** [MergedHead.forward] of the head at scale 0, 1, 2 (a stack of
    convolutions with learned weights) and [AnchornizedNMS.forward]. *)
Variable MergedHead_forward : nat -> Tensor T -> outcome (Tensor T).
Variable nms_forward : AnchornizedNMS -> Tensor T -> outcome Detections.

(** [check_version(torch.__version__, "1.10.0")], from [general.py]. *)
Variable torch_1_10 : bool.

Record Head : Type := mkHead {
  nattr : Z;
  nl : nat;
  na : nat;
  grid : list (Tensor T);
  anchor_grid : list (Tensor T);
  anchors : Tensor T;               (* shape (nl, na, 2) *)
  strides : list T;
  anchor_t : Q;
  nms : AnchornizedNMS;
  porting : bool;
  head_p3 : MergedHead;
  head_p4 : MergedHead;
  head_p5 : MergedHead;
  anchors_for_porting : list T;
  training : bool                   (* [nn.Module.training] *)
}.

Definition set_grids (h : Head) (g ag : list (Tensor T)) : Head :=
  mkHead (nattr h) (nl h) (na h) g ag (anchors h) (strides h) (anchor_t h)
         (nms h) (porting h) (head_p3 h) (head_p4 h) (head_p5 h)
         (anchors_for_porting h) (training h).

Definition set_anchors_for_porting (h : Head) (l : list T) : Head :=
  mkHead (nattr h) (nl h) (na h) (grid h) (anchor_grid h) (anchors h)
         (strides h) (anchor_t h) (nms h) (porting h) (head_p3 h) (head_p4 h)
         (head_p5 h) l (training h).

Definition set_porting (h : Head) (b : bool) : Head :=
  mkHead (nattr h) (nl h) (na h) (grid h) (anchor_grid h) (anchors h)
         (strides h) (anchor_t h) (nms h) b (head_p3 h) (head_p4 h)
         (head_p5 h) (anchors_for_porting h) (training h).

(** [nn.Module.train(mode)]; [eval()] is [train(False)]. *)
Definition train (h : Head) (mode : bool) : Head :=
  mkHead (nattr h) (nl h) (na h) (grid h) (anchor_grid h) (anchors h)
         (strides h) (anchor_t h) (nms h) (porting h) (head_p3 h) (head_p4 h)
         (head_p5 h) (anchors_for_porting h) mode.

(* ---------------------------------------------------------------- *)
(** ** Construction *)

Definition default_strides : list T := map s_of_nat [8; 16; 32].

Definition default_anchors : list (list T) :=
  map (map s_of_nat)
      [[10; 13; 16; 30; 33; 23];
       [30; 61; 62; 45; 59; 119];
       [116; 90; 156; 198; 373; 326]].

(** [torch.zeros(1)] *)
Definition zeros1 : Tensor T := mkTensor [1] [s_zero].

(** [torch.tensor(rows)] of a sequence of sequences of numbers. *)
Definition tensor_of_rows (rows : list (list T)) : outcome (Tensor T) :=
  match rows with
  | [] => Ok (mkTensor [0] [])
  | r0 :: _ =>
      if forallb (fun r => length r =? length r0) rows
      then Ok (mkTensor [length rows; length r0] (concat rows))
      else Raise ValueError
  end.

(** [AnchornizedFaceQuality.__init__]; [DATASET_NUM_DIMS] is a constant of
    [data_table.py] and is taken as an argument. *)
Definition AnchornizedFaceQuality_init
           (DATASET_NUM_DIMS : Z) (w r : Q) (act : string)
           (strides_arg : list T) (anchors_arg : option (list (list T)))
           (anchor_t_arg conf_arg iou_arg : Q) : outcome Head :=
  let anchors_arg :=
    match anchors_arg with None => default_anchors | Some a => a end in
  let nattr := (DATASET_NUM_DIMS - 1 - 4)%Z in
  let nl := length anchors_arg in
  let! row0 := match anchors_arg with
               | [] => Raise IndexError
               | r0 :: _ => Ok r0
               end in
  let na := length row0 / 2 in
  let grid := repeat zeros1 nl in
  let anchor_grid := repeat zeros1 nl in
  let! a := tensor_of_rows anchors_arg in
  let! anchors := view_infer [nl] [2] a in
  let strides := strides_arg in
  let! nms := AnchornizedNMS_init 1 conf_arg iou_arg in
  let out_ch := ((4 + 1 + nattr) * Z.of_nat na)%Z in
  let! p3 := MergedHead_init (int_of_Q (256 * w)) out_ch act in
  let! p4 := MergedHead_init (int_of_Q (512 * w)) out_ch act in
  let! p5 := MergedHead_init (int_of_Q (512 * w * r)) out_ch act in
  Ok (mkHead nattr nl na grid anchor_grid anchors strides anchor_t_arg nms
             false p3 p4 p5 [] true).

(* ---------------------------------------------------------------- *)
(** ** Computations on the head: state and exceptions *)

Definition M (A : Type) : Type := Head -> outcome A * Head.

Definition ret {A} (a : A) : M A := fun h => (Ok a, h).

Definition bind {A B} (m : M A) (k : A -> M B) : M B :=
  fun h => match m h with
           | (Ok a, h') => k a h'
           | (Raise e, h') => (Raise e, h')
           end.

Definition lift {A} (o : outcome A) : M A := fun h => (o, h).
Definition self : M Head := fun h => (Ok h, h).
Definition update (f : Head -> Head) : M unit := fun h => (Ok tt, f h).

Notation "x <- m ;; k" := (bind m (fun x => k))
  (at level 61, m at next level, right associativity).
Notation "' p <- m ;; k" := (bind m (fun x => match x with p => k end))
  (at level 61, p pattern, m at next level, right associativity).

(** [l[i]] and [l[i] = v] on a Python list. *)
Definition list_get {A} (l : list A) (i : nat) : outcome A :=
  match nth_error l i with
  | Some a => Ok a
  | None => Raise IndexError
  end.

Fixpoint list_update {A} (l : list A) (i : nat) (v : A) : list A :=
  match l, i with
  | [], _ => []
  | _ :: l', 0 => v :: l'
  | a :: l', S i' => a :: list_update l' i' v
  end.

Definition list_set {A} (l : list A) (i : nat) (v : A) : outcome (list A) :=
  if i <? length l then Ok (list_update l i v) else Raise IndexError.

(** [self.anchors[i] * self.strides[i]] *)
Definition scaled_anchors (h : Head) (i : nat) : outcome (Tensor T) :=
  let! a := select0 i (anchors h) in
  let! s := list_get (strides h) i in
  Ok (tmap (fun v => s_mul v s) a).

(** [_make_grid(nx, ny, i)] *)
Definition _make_grid (nx ny i : nat) : M (Tensor T * Tensor T) :=
  h <- self ;;
  _ <- lift (select0 i (anchors h)) ;;        (* device and dtype of anchors[i] *)
  let shp := [1; na h; ny; nx; 2] in
  let y := arange ny in
  let x := arange nx in
  let '(yv, xv) := if torch_1_10 then meshgrid_ij y x else meshgrid_ij y x in
  st <- lift (stack2_dim2 xv yv) ;;
  grid <- lift (expand shp st) ;;
  sa <- lift (scaled_anchors h i) ;;
  v <- lift (view [1; na h; 1; 1; 2] sa) ;;
  anchor_grid <- lift (expand shp v) ;;
  _ <- (if porting h
        then sa' <- lift (scaled_anchors h i) ;;
             update (fun h => set_anchors_for_porting h
                                (anchors_for_porting h ++ data (flatten sa')))
        else ret tt) ;;
  ret (grid, anchor_grid).

(** [_reshape(x)]; [int(C / A)] is the quotient for the natural numbers
    that are tensor extents. *)
Definition _reshape (x : Tensor T) : M (Tensor T) :=
  h <- self ;;
  match shape x with
  | [N; C; H; W] =>
      let A := na h in
      if A =? 0 then lift (Raise ZeroDivisionError)
      else v <- lift (view [N; A; C / A; H; W] x) ;;
           ret (permute [0; 1; 3; 4; 2] v)
  | _ => lift (Raise ValueError)
  end.

(** [t.shape[2:4]] *)
Definition shape_2_4 (t : Tensor T) : list nat := skipn 2 (firstn 4 (shape t)).

(** Lines 292-296: squash, then rewrite the box channels in place. *)
Definition decode_boxes (x G AS : Tensor T) (S : T) : outcome (Tensor T) :=
  let y := tmap s_sigmoid x in
  let! xy := slice_last 0 2 y in
  let xy := tmap (fun v => s_mul v s_two) xy in
  let xy := tmap (fun v => s_sub v s_half) xy in
  let! xy := tzip s_add xy G in
  let xy := tmap (fun v => s_mul v S) xy in
  let! y := set_slice_last 0 2 y xy in
  let! wh := slice_last 2 4 y in
  let wh1 := tmap (fun v => s_mul v s_two) wh in
  let wh2 := tmap (fun v => s_mul v s_two) wh in
  let! wh := tzip s_mul wh1 wh2 in
  let! wh := tzip s_mul wh AS in
  set_slice_last 2 4 y wh.

(** Lines 289-290: the cached grids of scale [i] are kept when their
    spatial extents are those of [xi], and rebuilt otherwise. *)
Definition lookup_grid (i : nat) (xi : Tensor T) (W H : nat) : M unit :=
  h <- self ;;
  gi <- lift (list_get (grid h) i) ;;
  if list_eq_dec Nat.eq_dec (shape_2_4 gi) (shape_2_4 xi)
  then ret tt
  else ' (g, ag) <- _make_grid W H i ;;
       h <- self ;;
       g' <- lift (list_set (grid h) i g) ;;
       ag' <- lift (list_set (anchor_grid h) i ag) ;;
       update (fun h => set_grids h g' ag').

(** One iteration of the loop at lines 283-296. *)
Definition decode_step (i : nat) (x outputs : list (Tensor T))
  : M (list (Tensor T) * list (Tensor T)) :=
  xi <- lift (list_get x i) ;;
  xi <- _reshape xi ;;
  x <- lift (list_set x i xi) ;;
  h <- self ;;
  if negb (training h) then
    match shape xi with
    | [N; A; H; W; C] =>
        _ <- lookup_grid i xi W H ;;
        h <- self ;;
        G <- lift (list_get (grid h) i) ;;
        S <- lift (list_get (strides h) i) ;;
        AS <- lift (list_get (anchor_grid h) i) ;;
        y <- lift (decode_boxes xi G AS S) ;;
        o <- lift (view [N; A * H * W; C] y) ;;
        ret (x, outputs ++ [o])
    | _ => lift (Raise ValueError)
    end
  else ret (x, outputs).

Fixpoint decode_loop (ixs : list nat) (x outputs : list (Tensor T))
  : M (list (Tensor T) * list (Tensor T)) :=
  match ixs with
  | [] => ret (x, outputs)
  | i :: ixs' =>
      ' (x', outputs') <- decode_step i x outputs ;;
      decode_loop ixs' x' outputs'
  end.

(** One iteration of the porting loop at lines 274-278. *)
Definition porting_step (i : nat) (x outputs : list (Tensor T))
  : M (list (Tensor T) * list (Tensor T)) :=
  xi <- lift (list_get x i) ;;
  let xi := tmap s_sigmoid xi in
  x <- lift (list_set x i xi) ;;
  match shape xi with
  | [N; C; H; W] =>
      _ <- _make_grid W H i ;;
      o <- lift (view_infer [N; C] [] xi) ;;
      ret (x, outputs ++ [o])
  | _ => lift (Raise ValueError)
  end.

Fixpoint porting_loop (ixs : list nat) (x outputs : list (Tensor T))
  : M (list (Tensor T) * list (Tensor T)) :=
  match ixs with
  | [] => ret (x, outputs)
  | i :: ixs' =>
      ' (x', outputs') <- porting_step i x outputs ;;
      porting_loop ixs' x' outputs'
  end.

(** What [forward] returns in each of its three modes. *)
Inductive ForwardResult : Type :=
| PortingOutputs (outputs : list (Tensor T))
| TrainingOutputs (x : list (Tensor T))
| Suppressed (d : Detections).

(** The candidate tensor handed to the suppression module (lines 282-301
    when not training). *)
Definition candidates (x : list (Tensor T)) : M (Tensor T) :=
  h <- self ;;
  ' (_, outputs) <- decode_loop (seq 0 (nl h)) x [] ;;
  lift (cat1 outputs).

(** [forward] from line 270 on: [x] is the list of the three head outputs. *)
Definition forward_heads (x : list (Tensor T)) : M ForwardResult :=
  h <- self ;;
  if porting h then
    ' (_, outputs) <- porting_loop (seq 0 (nl h)) x [] ;;
    ret (PortingOutputs outputs)
  else
    ' (x', outputs) <- decode_loop (seq 0 (nl h)) x [] ;;
    h <- self ;;
    if training h then ret (TrainingOutputs x')
    else
      c <- lift (cat1 outputs) ;;
      d <- lift (nms_forward (nms h) c) ;;
      ret (Suppressed d).

(** [AnchornizedFaceQuality.forward] *)
Definition forward (p3 p4 p5 : Tensor T) : M ForwardResult :=
  x_p3 <- lift (MergedHead_forward 0 p3) ;;
  x_p4 <- lift (MergedHead_forward 1 p4) ;;
  x_p5 <- lift (MergedHead_forward 2 p5) ;;
  forward_heads [x_p3; x_p4; x_p5].

(** [Model.__init__] builds its head with the default strides, anchors and
    thresholds; [yolov8n_facecap_v2] is the model of the repository. *)
Definition Model_head (DATASET_NUM_DIMS : Z) (d w r : Q) (act : string)
  : outcome Head :=
  AnchornizedFaceQuality_init DATASET_NUM_DIMS w r act default_strides None
                              4 (1 # 100) (6 # 10).

Definition yolov8n_facecap_v2_head (DATASET_NUM_DIMS : Z) : outcome Head :=
  Model_head DATASET_NUM_DIMS (33 # 100) (1 # 4) 2 "relu6".

End Head.

Arguments PortingOutputs {T Detections} outputs.
Arguments TrainingOutputs {T Detections} x.
Arguments Suppressed {T Detections} d.
Arguments forward_heads {T SC Detections} nms_forward torch_1_10 x _.
Arguments forward {T SC Detections} MergedHead_forward nms_forward torch_1_10 p3 p4 p5 _.

(* ================================================================== *)
(** * Properties of heads and of their inputs *)

Unset Implicit Arguments.

Section Predicates.
Context {T : Type} {SC : Scalar T}.

(** [g] is the coordinate grid of [A] anchors over [ny] rows and [nx]
    columns: cell (row [r], column [c]) holds (x, y) = ([c], [r]). *)
Definition is_grid (A ny nx : nat) (g : Tensor T) : Prop :=
  shape g = [1; A; ny; nx; 2] /\
  forall a r c, a < A -> r < ny -> c < nx ->
    tget g [0; a; r; c; 0] = s_of_nat c /\
    tget g [0; a; r; c; 1] = s_of_nat r.

(** [ag] is the anchor grid of scale [i]: every cell of anchor [a] holds
    the anchor's (width, height) times the stride of the scale. *)
Definition is_anchor_grid (h : Head) (i ny nx : nat) (ag : Tensor T) : Prop :=
  shape ag = [1; na h; ny; nx; 2] /\
  exists s, nth_error (strides h) i = Some s /\
    forall a r c k, a < na h -> r < ny -> c < nx -> k < 2 ->
      tget ag [0; a; r; c; k] = s_mul (tget (anchors h) [i; a; k]) s.

(** [seg] lists the scaled anchors of scale [i], (width, height) anchor
    after anchor. *)
Definition is_scaled_row (h : Head) (i : nat) (seg : list T) : Prop :=
  length seg = na h * 2 /\
  exists s, nth_error (strides h) i = Some s /\
    forall a k, a < na h -> k < 2 ->
      nth (a * 2 + k) seg s_zero = s_mul (tget (anchors h) [i; a; k]) s.

(** Slot [i] of the cache holds the initial [zeros(1)] placeholders or the
    grids built for some spatial size. *)
Definition slot_ok (h : Head) (i : nat) : Prop :=
  exists g ag,
    nth_error (grid h) i = Some g /\ nth_error (anchor_grid h) i = Some ag /\
    ((g = zeros1 /\ ag = zeros1) \/
     exists ny nx, is_grid (na h) ny nx g /\ is_anchor_grid h i ny nx ag).

(** Slot [i] holds the grids of a feature map of [H] rows and [W] columns. *)
Definition slot_built (h : Head) (i H W : nat) : Prop :=
  exists g ag,
    nth_error (grid h) i = Some g /\ nth_error (anchor_grid h) i = Some ag /\
    is_grid (na h) H W g /\ is_anchor_grid h i H W ag.

(** Slot [j] is the same in [h] and [h']. *)
Definition slot_same (h h' : @Head T) (j : nat) : Prop :=
  nth_error (grid h') j = nth_error (grid h) j /\
  nth_error (anchor_grid h') j = nth_error (anchor_grid h) j.

(** A head as [__init__] leaves it and [forward] keeps it. *)
Record head_ok (h : Head) : Prop := mk_head_ok {
  ok_nl : 0 < nl h;
  ok_na : 0 < na h;
  ok_anchors : shape (anchors h) = [nl h; na h; 2];
  ok_slots : forall i, i < nl h -> slot_ok h i
}.

(** [h'] is [h] with other cached grids. *)
Definition grids_only (h h' : @Head T) : Prop :=
  h' = set_grids h (grid h') (anchor_grid h').

(** The head outputs of one call: batch [N], [A * K] channels, and the
    spatial size [dims[i]] at scale [i]. *)
Definition raw_ok (A N K : nat) (dims : list (nat * nat))
           (x : list (Tensor T)) : Prop :=
  Forall2 (fun hw xi => shape xi = [N; A * K; fst hw; snd hw]) dims x.

(** Number of candidates a scale contributes, and the row at which the
    candidates of scale [i] start in the concatenation. *)
Definition scale_count (A : nat) (hw : nat * nat) : nat := A * fst hw * snd hw.

Definition scale_offset (A : nat) (dims : list (nat * nat)) (i : nat) : nat :=
  list_sum (map (scale_count A) (firstn i dims)).

(** The value the box decode leaves in channel [k] of a cell, from the
    squashed value [v], the grid entry [g], the scaled anchor entry [sa] and
    the stride [S] (lines 294-295). *)
Definition box_value (k : nat) (v g sa S : T) : T :=
  if k <? 2 then s_mul (s_add (s_sub (s_mul v s_two) s_half) g) S
  else if k <? 4 then s_mul (s_mul (s_mul v s_two) (s_mul v s_two)) sa
  else v.

(** The decoded channel [k] of anchor [a] at cell (row [r], column [c]) of
    batch item [n], from the raw head output [xi] of scale [i] whose
    stride is [s]. *)
Definition decoded_entry (h : Head) (i : nat) (s : T) (xi : Tensor T)
           (K n a r c k : nat) : T :=
  box_value k (s_sigmoid (tget xi [n; a * K + k; r; c]))
            (if k =? 0 then s_of_nat c else s_of_nat r)
            (s_mul (tget (anchors h) [i; a; k - 2]) s) s.

(** [o] is the decoded candidate block of scale [i]: one row per anchor
    and cell, anchors outermost, then rows, then columns. *)
Definition decodes (h : Head) (N K i : nat) (xi : Tensor T)
           (hw : nat * nat) (o : Tensor T) : Prop :=
  exists s, nth_error (strides h) i = Some s /\
    shape o = [N; scale_count (na h) hw; K] /\ wf o /\
    forall n a r c k,
      n < N -> a < na h -> r < fst hw -> c < snd hw -> k < K ->
      tget o [n; (a * fst hw + r) * snd hw + c; k] =
      decoded_entry h i s xi K n a r c k.

(** [xi'] is [xi] with its channels split by anchor and moved last. *)
Definition reshaped (A N K : nat) (hw : nat * nat) (xi xi' : Tensor T) : Prop :=
  shape xi' = [N; A; fst hw; snd hw; K] /\ wf xi' /\
  forall n a r c k,
    n < N -> a < A -> r < fst hw -> c < snd hw -> k < K ->
    tget xi' [n; a; r; c; k] = tget xi [n; a * K + k; r; c].

End Predicates.

(* ================================================================== *)
(** * Real-number elements and a concrete detector *)

(** The logistic function, in exact arithmetic.  The tensors of torch
    hold float32 values, and rounding is not modelled: there the open
    range (0, 1) of the logistic function closes, as the float32 sigmoid
    of a large value is exactly 1 and that of a large negative value
    exactly 0.  The statements over the real numbers below are those that
    rounding to nearest preserves: equations of the decoding, and bounds
    that are not strict. *)
Definition sigmoid (x : R) : R := (1 / (1 + exp (- x)))%R.

#[export] Instance RScalar : Scalar R := {|
  s_zero := 0%R;
  s_of_nat := INR;
  s_two := 2%R;
  s_half := (1 / 2)%R;
  s_add := Rplus;
  s_sub := Rminus;
  s_mul := Rmult;
  s_sigmoid := sigmoid
|}.

(** A tensor filled with one value. *)
Definition full (sh : list nat) (v : R) : Tensor R :=
  mkTensor sh (repeat v (numel sh)).

(** A stand-in for [AnchornizedNMS.forward], which is not among the
    sources: it keeps every candidate. *)
Definition keep_all (n : AnchornizedNMS) (c : Tensor R) : outcome (Tensor R) :=
  Ok c.

Definition example_merged_head (w : Z) : MergedHead :=
  mkMergedHead (mkConvModule (mkConv2d w w 3 1 1 1 false) w ReLU6 false)
               (mkConvModule (mkConv2d w w 3 1 1 1 false) w ReLU6 false)
               (mkConv2d w 18 1 1 0 1 true).

(** The head of [yolov8n_facecap_v2()] when [DATASET_NUM_DIMS] is 6: one
    attribute, six channels per anchor, eighteen per scale. *)
Definition example_head : Head :=
  mkHead 1 3 3 [zeros1; zeros1; zeros1] [zeros1; zeros1; zeros1]
         (mkTensor [3; 3; 2] (concat default_anchors))
         default_strides 4 (mkNMS 1 (1 # 100) (6 # 10)) false
         (example_merged_head 64) (example_merged_head 128)
         (example_merged_head 256) [] true.



(** The same configuration with two strides for three anchor groups. *)
Definition short_strides : list R := map INR [8; 16].

(** Head outputs for a 32 x 32 image. *)
Definition example_dims : list (nat * nat) := [(4, 4); (2, 2); (1, 1)].

Definition example_x : list (Tensor R) :=
  [full [1; 18; 4; 4] 0%R; full [1; 18; 2; 2] 0%R; full [1; 18; 1; 1] 0%R].

(* ================================================================== *)
(** * [bias_init]: the objectness prior of the head convolutions *)

(** The value added to the objectness bias at a scale of stride [s]
    (8 objects per 640 image), over the real numbers. *)
Definition prior (s : R) : R := ln (8 / (640 / s) ^ 2).

(** [math.log(8 / (640 / float(stride)) ** 2)]: Python raises on the
    division by a zero stride. *)
Definition objectness_prior (stride : R) : outcome R :=
  if Req_dec_T stride 0 then Raise ZeroDivisionError
  else Ok (prior stride).

(** [b.data[:, 4] += d] on a two-dimensional tensor. *)
Definition add_column_4 (b : Tensor R) (d : R) : Tensor R :=
  tabulate (shape b)
           (fun idx => if nth 1 idx 0 =? 4 then (tget b idx + d)%R
                       else tget b idx).

(** The body of the loop of [bias_init] (lines 243-245) on the bias of one
    convolution; the result is the new [mi.bias].  Column 4 is read (and
    must exist) before the right-hand side of [+=] is computed, and the
    in-place addition is the last thing that can raise. *)
Definition bias_step (nattr : Z) (bias : Tensor R) (stride : R)
  : outcome (Tensor R) :=
  let k := (5 + nattr)%Z in
  let! b := (if (k <=? 0)%Z then Raise RuntimeError
             else view_infer [] [Z.to_nat k] bias) in
  let! _ := (if Z.to_nat k <=? 4 then Raise IndexError else Ok tt) in
  let! d := objectness_prior stride in
  view_infer [] [] (add_column_4 b d).

(** The loop over [zip(convolutions, self.strides)]: it stops with the
    shorter sequence, and an exception keeps the biases already replaced. *)
Fixpoint bias_loop (nattr : Z) (ms : list (Tensor R)) (ss : list R)
  : outcome unit * list (Tensor R) :=
  match ms, ss with
  | m :: ms', s :: ss' =>
      match bias_step nattr m s with
      | Ok m' => let (r, rest) := bias_loop nattr ms' ss' in (r, m' :: rest)
      | Raise e => (Raise e, m :: ms')
      end
  | _, _ => (Ok tt, ms)
  end.

(** [bias_init(stride)] on the biases of [head_p3.block[-1]],
    [head_p4.block[-1]] and [head_p5.block[-1]]: the biases it leaves, in
    this order.  The argument is shadowed by the loop variable. *)
Definition bias_init (h : @Head R) (stride : R) (b3 b4 b5 : Tensor R)
  : outcome unit * list (Tensor R) :=
  bias_loop (nattr h) [b3; b4; b5] (strides h).

(** A bias of whole groups of [k] channels. *)
Definition bias_ok (k : nat) (b : Tensor R) : Prop :=
  wf b /\ exists a, shape b = [a * k].

(** [b'] is [b] with [d] added to channel 4 of every group of [k]. *)
Definition shifted (k : nat) (d : R) (b b' : Tensor R) : Prop :=
  shape b' = shape b /\ wf b' /\
  forall j, j < numel (shape b) ->
    tget b' [j] = if j mod k =? 4 then (tget b [j] + d)%R else tget b [j].

(* ================================================================== *)
(** * [ConvModule] with the parameters of its layers: [fuse] *)

(** [nn.BatchNorm2d]: the affine parameters, the running statistics and
    [eps], one entry per channel. *)
Record BatchNorm2d : Type := mkBatchNorm2d {
  bn_weight : Tensor R;
  bn_bias : Tensor R;
  running_mean : Tensor R;
  running_var : Tensor R;
  bn_eps : R
}.

(** A [ConvModule] with the parameters its layers hold, and the method
    that [self.forward] names. *)
Record ConvModuleParams : Type := mkParams {
  layers : ConvModule;
  conv_weight : Tensor R;          (* shape (c_out, c_in / groups, k, k) *)
  conv_bias : option (Tensor R);   (* [None] for [bias=False] *)
  bn_params : BatchNorm2d;
  forward_is_fused : bool          (* [self.forward] is [fused_forward] *)
}.

(** [ConvModule.fuse]: the batch normalisation is folded into a new
    convolution with a bias. *)
Definition fuse (m : ConvModuleParams) : outcome ConvModuleParams :=
  if fused (layers m) then Ok m
  else
    let b := bn_params m in
    let std := tmap sqrt (tmap (fun v => (v + bn_eps b)%R) (running_var b)) in
    let! mw := tzip Rmult (running_mean b) (bn_weight b) in
    let! mws := tzip Rdiv mw std in
    let! bias := tzip Rminus (bn_bias b) mws in
    let! ws := tzip Rdiv (bn_weight b) std in
    let! t := view_infer [] [1; 1; 1] ws in
    let! weights := tzip Rmult (conv_weight m) t in
    let c := conv (layers m) in
    Ok (mkParams
          (mkConvModule
             (mkConv2d (in_channels c) (out_channels c) (kernel_size c)
                       (conv_stride c) (padding c) (groups c) true)
             (bn (layers m)) (relu (layers m)) true)
          weights (Some bias) b true).

(** The activations, elementwise. *)
Definition activate (a : activation) (x : R) : R :=
  match a with
  | ReLU6 => Rmin (Rmax 0 x) 6
  | ReLU => Rmax 0 x
  | LeakyReLU => (Rmax 0 x + 1 / 100 * Rmin 0 x)%R
  | Hardswish => (x * Rmin (Rmax 0 (x + 3)) 6 / 6)%R
  end.

Definition rsum (l : list R) : R := fold_right Rplus 0%R l.

(** One output value of a convolution is the response of one filter to the
    input values under it: the sum, over the entries of filter [o] in
    row-major order, of weight times input, plus the bias of the filter.
    Which input values lie under the filter is decided by the stride, the
    padding and the groups, which [fuse] copies. *)
Definition filter_response (w : Tensor R) (o : nat) (patch : list R) : R :=
  let n := numel (tl (shape w)) in
  rsum (map (fun j => (nth (o * n + j) (data w) 0 * nth j patch 0)%R)
            (seq 0 n)).

Definition conv_value (m : ConvModuleParams) (o : nat) (patch : list R) : R :=
  (filter_response (conv_weight m) o patch +
   match conv_bias m with Some b => tget b [o] | None => 0 end)%R.

(** [self.bn(x)] in evaluation mode, on a value [v] of channel [o]. *)
Definition batch_norm_eval (b : BatchNorm2d) (o : nat) (v : R) : R :=
  ((v - tget (running_mean b) [o])
   / sqrt (tget (running_var b) [o] + bn_eps b)
   * tget (bn_weight b) [o] + tget (bn_bias b) [o])%R.

(** [ConvModule.forward] and [ConvModule.fused_forward] in evaluation
    mode, at the output value of channel [o] computed from [patch]; and
    the call [m(x)], which goes through [self.forward]. *)
Definition ConvModule_forward (m : ConvModuleParams) (o : nat) (patch : list R)
  : R :=
  activate (relu (layers m))
           (batch_norm_eval (bn_params m) o (conv_value m o patch)).

Definition fused_forward (m : ConvModuleParams) (o : nat) (patch : list R)
  : R :=
  activate (relu (layers m)) (conv_value m o patch).

Definition ConvModule_call (m : ConvModuleParams) (o : nat) (patch : list R)
  : R :=
  if forward_is_fused m then fused_forward m o patch
  else ConvModule_forward m o patch.

(** The parameters of a batch normalisation over [c] channels. *)
Definition bn_channels (c : nat) (b : BatchNorm2d) : Prop :=
  Forall (fun t => shape t = [c] /\ wf t)
         [bn_weight b; bn_bias b; running_mean b; running_var b].

(* ================================================================== *)
(** * The backbone and the neck *)

From Stdlib Require Import Qround.

(** [int(0.5 * c)] for an integer [c]. *)
Definition half_int (c : Z) : Z := int_of_Q ((1 # 2) * inject_Z c).

Record DarknetBottleneck : Type := mkDarknetBottleneck {
  cv1 : ConvModule; cv2 : ConvModule; shortcut : bool
}.

Definition DarknetBottleneck_init (c_in c_out : Z) (add : bool) (act : string)
  : outcome DarknetBottleneck :=
  let! cv1 := ConvModule_init c_in (half_int c_in) 3 1 1 act 1 in
  let! cv2 := ConvModule_init (half_int c_in) c_out 3 1 1 act 1 in
  Ok (mkDarknetBottleneck cv1 cv2 add).

Record CSPLayer_2Conv : Type := mkCSPLayer_2Conv {
  conv_in_left : ConvModule;
  conv_in_right : ConvModule;
  bottlenecks : list DarknetBottleneck;
  conv_out : ConvModule
}.

(** [for _ in range(n): l.append(mk())] *)
Fixpoint append_times {A} (n : nat) (mk : outcome A) : outcome (list A) :=
  match n with
  | 0 => Ok []
  | S n' => let! a := mk in let! l := append_times n' mk in Ok (a :: l)
  end.

Definition CSPLayer_2Conv_init (c_in c_out : Z) (add : bool) (n : Z)
           (act : string) : outcome CSPLayer_2Conv :=
  let half_out := half_int c_out in
  let! left := ConvModule_init c_in half_out 1 1 0 act 1 in
  let! right := ConvModule_init c_in half_out 1 1 0 act 1 in
  let! bs := append_times (Z.to_nat n)
               (DarknetBottleneck_init half_out half_out add act) in
  let! out := ConvModule_init (half_out * (n + 2)) c_out 1 1 0 act 1 in
  Ok (mkCSPLayer_2Conv left right bs out).

(** [nn.MaxPool2d(kernel_size, stride, padding)] *)
Record MaxPool2d : Type := mkMaxPool2d {
  pool_kernel : Z; pool_stride : Z; pool_padding : Z
}.

Record SPPF : Type := mkSPPF {
  sppf_cv1 : ConvModule; sppf_cv2 : ConvModule; sppf_m : MaxPool2d
}.

Definition SPPF_init (c_in k : Z) (act : string) : outcome SPPF :=
  let c_ := (c_in / 2)%Z in
  let! cv1 := ConvModule_init c_in c_ 1 1 0 act 1 in
  let! cv2 := ConvModule_init (c_ * 4) c_in 1 1 0 act 1 in
  Ok (mkSPPF cv1 cv2 (mkMaxPool2d k 1 (k / 2))).

Record YOLOv8Backbone : Type := mkYOLOv8Backbone {
  stem_layer : ConvModule;
  stage_layer_1 : ConvModule * CSPLayer_2Conv;
  stage_layer_2 : ConvModule * CSPLayer_2Conv;
  stage_layer_3 : ConvModule * CSPLayer_2Conv;
  stage_layer_4 : ConvModule * CSPLayer_2Conv * SPPF
}.

Definition YOLOv8Backbone_init (d w r : Q) (act : string)
  : outcome YOLOv8Backbone :=
  let _64xw := int_of_Q (64 * w) in
  let _128xw := int_of_Q (128 * w) in
  let _256xw := int_of_Q (256 * w) in
  let _512xw := int_of_Q (512 * w) in
  let _512xwxr := int_of_Q (512 * w * r) in
  let _3xd := Qceiling (3 * d) in
  let _6xd := Qceiling (6 * d) in
  let! stem := ConvModule_init 3 _64xw 3 2 1 act 1 in
  let! c1 := ConvModule_init _64xw _128xw 3 2 1 act 1 in
  let! l1 := CSPLayer_2Conv_init _128xw _128xw true _3xd act in
  let! c2 := ConvModule_init _128xw _256xw 3 2 1 act 1 in
  let! l2 := CSPLayer_2Conv_init _256xw _256xw true _6xd act in
  let! c3 := ConvModule_init _256xw _512xw 3 2 1 act 1 in
  let! l3 := CSPLayer_2Conv_init _512xw _512xw true _6xd act in
  let! c4 := ConvModule_init _512xw _512xwxr 3 2 1 act 1 in
  let! l4 := CSPLayer_2Conv_init _512xwxr _512xwxr true _3xd act in
  let! sp := SPPF_init _512xwxr 5 act in
  Ok (mkYOLOv8Backbone stem (c1, l1) (c2, l2) (c3, l3) (c4, l4, sp)).

Record YOLOv8Neck : Type := mkYOLOv8Neck {
  upsample_p5 : nat;             (* [nn.Upsample(None, 2, "nearest")] *)
  upsample_p4 : nat;
  topdown_layer_2 : CSPLayer_2Conv;
  topdown_layer_1 : CSPLayer_2Conv;
  down_sample_0 : ConvModule;
  bottomup_layer_0 : CSPLayer_2Conv;
  down_sample_1 : ConvModule;
  bottomup_layer_1 : CSPLayer_2Conv
}.

Definition YOLOv8Neck_init (d w r : Q) (act : string) : outcome YOLOv8Neck :=
  let _3xd := Qceiling (3 * d) in
  let _256xw := int_of_Q (256 * w) in
  let _512xw := int_of_Q (512 * w) in
  let! td2 := CSPLayer_2Conv_init (int_of_Q (512 * w * (1 + r))) _256xw
                                  false _3xd act in
  let! td1 := CSPLayer_2Conv_init _512xw _256xw false _3xd act in
  let! ds0 := ConvModule_init _256xw _256xw 3 2 1 act 1 in
  let! bu0 := CSPLayer_2Conv_init _512xw _512xw false _3xd act in
  let! ds1 := ConvModule_init _512xw _512xw 3 2 1 act 1 in
  let! bu1 := CSPLayer_2Conv_init (int_of_Q (512 * w * (1 + r)))
                                  (int_of_Q (512 * w * r)) false _3xd act in
  Ok (mkYOLOv8Neck 2 2 td2 td1 ds0 bu0 ds1 bu1).

(** [Model]; [init_params] changes [eps] and [momentum] of the batch
    normalisations and the [inplace] flag of the activations, none of
    which is part of the configuration kept here. *)
Record Model : Type := mkModel {
  backbone : YOLOv8Backbone;
  neck : YOLOv8Neck;
  head : @Head R
}.

Definition Model_init (DATASET_NUM_DIMS : Z) (d w r : Q) (act : string)
  : outcome Model :=
  let! b := YOLOv8Backbone_init d w r act in
  let! n := YOLOv8Neck_init d w r act in
  let! h := Model_head DATASET_NUM_DIMS d w r act in
  Ok (mkModel b n h).

Definition yolov8n_facecap_v2 (DATASET_NUM_DIMS : Z) : outcome Model :=
  Model_init DATASET_NUM_DIMS (33 # 100) (1 # 4) 2 "relu6".

(* ---------------------------------------------------------------- *)
(** ** The shapes that flow through the layers

    The [forward] methods below are those of the source with every tensor
    replaced by its shape: what a layer of torch returns has a shape that
    depends only on the shape of its input, and so has the exception it
    raises.  [training] is [nn.Module.training], which [train()] and
    [eval()] set on a model and on all its layers. *)

Module Shapes.

(** Extent of the output of a convolution or pooling window of size [k],
    stride [s] and padding [p] (dilation 1) on an extent [n]. *)
Definition out_size (n k s p : nat) : nat := (n + 2 * p - k) / s + 1.

Definition windowed (k s p : nat) (c_out : nat) (batch : list nat)
           (H W : nat) : outcome (list nat) :=
  if (k <=? H + 2 * p) && (k <=? W + 2 * p)
  then Ok (batch ++ [c_out; out_size H k s p; out_size W k s p])
  else Raise RuntimeError.

(** [nn.Conv2d]: torch refuses a negative padding, a stride or a kernel
    size below 1 and a layer without output channels (fewer than groups);
    it takes a batched (N, C, H, W) or unbatched (C, H, W) input with the
    channel count of the layer and a padded size not below the kernel
    size. *)
Definition conv2d (c : Conv2d) (x : list nat) : outcome (list nat) :=
  let k := Z.to_nat (kernel_size c) in
  let s := Z.to_nat (conv_stride c) in
  let p := Z.to_nat (padding c) in
  let out (batch : list nat) (C H W : nat) :=
    if ((padding c <? 0) || (conv_stride c <=? 0) || (kernel_size c <=? 0) ||
        (out_channels c <? groups c))%Z
    then Raise RuntimeError
    else if (Z.of_nat C =? in_channels c)%Z
    then windowed k s p (Z.to_nat (out_channels c)) batch H W
    else Raise RuntimeError in
  match x with
  | [N; C; H; W] => out [N] C H W
  | [C; H; W] => out [] C H W
  | _ => Raise RuntimeError
  end.

(** [nn.BatchNorm2d]: a four-dimensional input; in training mode more
    than one value per channel is wanted. *)
Definition batch_norm (num_features : Z) (training : bool) (x : list nat)
  : outcome (list nat) :=
  match x with
  | [N; C; H; W] =>
      if training && (N * (H * W) =? 1) then Raise ValueError
      else if (Z.of_nat C =? num_features)%Z then Ok x
      else Raise RuntimeError
  | _ => Raise ValueError
  end.

(** [nn.MaxPool2d] *)
Definition max_pool2d (m : MaxPool2d) (x : list nat) : outcome (list nat) :=
  let k := Z.to_nat (pool_kernel m) in
  let s := Z.to_nat (pool_stride m) in
  let p := Z.to_nat (pool_padding m) in
  match x with
  | [N; C; H; W] => windowed k s p C [N] H W
  | [C; H; W] => windowed k s p C [] H W
  | _ => Raise RuntimeError
  end.

(** [nn.Upsample(None, scale, "nearest")] on a four-dimensional input. *)
Definition upsample (scale : nat) (x : list nat) : outcome (list nat) :=
  match x with
  | [N; C; H; W] =>
      if (C =? 0) || (H =? 0) || (W =? 0) then Raise RuntimeError
      else Ok [N; C; H * scale; W * scale]
  | _ => Raise RuntimeError
  end.

(** [torch.cat(xs, dim=1)] *)
Definition cat_compatible (n : nat) (rest : list nat) (x : list nat) : bool :=
  match x with
  | n' :: _ :: rest' =>
      (n' =? n) && if list_eq_dec Nat.eq_dec rest' rest then true else false
  | _ => false
  end.

Definition cat1 (xs : list (list nat)) : outcome (list nat) :=
  match xs with
  | [] => Raise RuntimeError
  | x0 :: _ =>
      match x0 with
      | n :: _ :: rest =>
          if forallb (cat_compatible n rest) xs
          then Ok (n :: list_sum (map (fun x => nth 1 x 0) xs) :: rest)
          else Raise RuntimeError
      | _ => Raise IndexError
      end
  end.

(** [a + b] *)
Definition add (a b : list nat) : outcome (list nat) :=
  match broadcast_shapes a b with
  | Some s => Ok s
  | None => Raise RuntimeError
  end.

(** A call of a [ConvModule]: [forward], or [fused_forward] once [fuse]
    has rebound it; the activation keeps the shape. *)
Definition ConvModule_forward (training : bool) (m : ConvModule)
           (x : list nat) : outcome (list nat) :=
  if fused m then conv2d (conv m) x
  else let! x := conv2d (conv m) x in
       batch_norm (bn m) training x.

Definition DarknetBottleneck_forward (training : bool) (b : DarknetBottleneck)
           (x : list nat) : outcome (list nat) :=
  if shortcut b then
    let! out := ConvModule_forward training (cv1 b) x in
    let! out := ConvModule_forward training (cv2 b) out in
    add x out
  else
    let! x := ConvModule_forward training (cv1 b) x in
    ConvModule_forward training (cv2 b) x.

(** The loop of [CSPLayer_2Conv.forward]. *)
Fixpoint bottleneck_loop (training : bool) (bs : list DarknetBottleneck)
         (x : list nat) (collection : list (list nat))
  : outcome (list (list nat)) :=
  match bs with
  | [] => Ok collection
  | b :: bs' =>
      let! x := DarknetBottleneck_forward training b x in
      bottleneck_loop training bs' x (collection ++ [x])
  end.

Definition CSPLayer_2Conv_forward (training : bool) (l : CSPLayer_2Conv)
           (x : list nat) : outcome (list nat) :=
  let! x_left := ConvModule_forward training (conv_in_left l) x in
  let! x_right := ConvModule_forward training (conv_in_right l) x in
  let! collection :=
    bottleneck_loop training (bottlenecks l) x_right [x_left; x_right] in
  let! x := cat1 collection in
  ConvModule_forward training (conv_out l) x.

Definition SPPF_forward (training : bool) (l : SPPF) (x : list nat)
  : outcome (list nat) :=
  let! x := ConvModule_forward training (sppf_cv1 l) x in
  let! y1 := max_pool2d (sppf_m l) x in
  let! y2 := max_pool2d (sppf_m l) y1 in
  let! y3 := max_pool2d (sppf_m l) y2 in
  let! c := cat1 [x; y1; y2; y3] in
  ConvModule_forward training (sppf_cv2 l) c.

(** A stage of the backbone: [nn.Sequential] of a convolution and a
    [CSPLayer_2Conv]. *)
Definition stage_forward (training : bool) (s : ConvModule * CSPLayer_2Conv)
           (x : list nat) : outcome (list nat) :=
  let! x := ConvModule_forward training (fst s) x in
  CSPLayer_2Conv_forward training (snd s) x.

Definition YOLOv8Backbone_forward (training : bool) (b : YOLOv8Backbone)
           (x : list nat) : outcome (list nat * list nat * list nat) :=
  let! p1 := ConvModule_forward training (stem_layer b) x in
  let! p2 := stage_forward training (stage_layer_1 b) p1 in
  let! p3 := stage_forward training (stage_layer_2 b) p2 in
  let! p4 := stage_forward training (stage_layer_3 b) p3 in
  let! p5 := (let! y := stage_forward training (fst (stage_layer_4 b)) p4 in
              SPPF_forward training (snd (stage_layer_4 b)) y) in
  Ok (p3, p4, p5).

Definition YOLOv8Neck_forward (training : bool) (n : YOLOv8Neck)
           (x : list nat * list nat * list nat)
  : outcome (list nat * list nat * list nat) :=
  let '(p3, p4, p5) := x in
  let! u1 := upsample (upsample_p5 n) p5 in
  let! c1 := cat1 [p4; u1] in
  let! t1 := CSPLayer_2Conv_forward training (topdown_layer_2 n) c1 in
  let! u2 := upsample (upsample_p4 n) t1 in
  let! c2 := cat1 [p3; u2] in
  let! t2 := CSPLayer_2Conv_forward training (topdown_layer_1 n) c2 in
  let! d1 := ConvModule_forward training (down_sample_0 n) t2 in
  let! c3 := cat1 [t1; d1] in
  let! b1 := CSPLayer_2Conv_forward training (bottomup_layer_0 n) c3 in
  let! d2 := ConvModule_forward training (down_sample_1 n) b1 in
  let! c4 := cat1 [p5; d2] in
  let! b2 := CSPLayer_2Conv_forward training (bottomup_layer_1 n) c4 in
  Ok (t2, b1, b2).

Definition MergedHead_forward (training : bool) (m : MergedHead)
           (x : list nat) : outcome (list nat) :=
  let! x := ConvModule_forward training (block0 m) x in
  let! x := ConvModule_forward training (block1 m) x in
  conv2d (block2 m) x.

(** [Model.forward] up to the three head convolutions (lines 267-270 of
    the head's [forward]): the shapes of the tensors that the decoding
    loop receives. *)
Definition Model_forward (training : bool) (m : Model) (x : list nat)
  : outcome (list (list nat)) :=
  let! ps := YOLOv8Backbone_forward training (backbone m) x in
  let! ts := YOLOv8Neck_forward training (neck m) ps in
  let '(t2, b1, b2) := ts in
  let! x_p3 := MergedHead_forward training (head_p3 (head m)) t2 in
  let! x_p4 := MergedHead_forward training (head_p4 (head m)) b1 in
  let! x_p5 := MergedHead_forward training (head_p5 (head m)) b2 in
  Ok [x_p3; x_p4; x_p5].

End Shapes.

(** Batch normalisation takes a batch of [N] maps of [H] rows and [W]
    columns: always in evaluation mode, and in training mode unless the
    batch holds a single value per channel. *)
Definition bn_accepts (training : bool) (N H W : nat) : bool :=
  negb (training && (N * (H * W) =? 1)).

(** The extent a 3x3 convolution of stride 2 and padding 1 leaves of a
    positive extent [n]: half of it, rounded up. *)
Definition halve (n : nat) : nat := (n + 1) / 2.

(* ================================================================== *)
(** * The head convolutions inside [forward] *)

Section HeadConvolutions.
Context {T : Type} {SC : Scalar T}.



End HeadConvolutions.



(* ================================================================== *)
(** * Further definitions *)

Section MoreDefinitions.
Context {T : Type} {SC : Scalar T}.

(** The result of a loop over [x ++ e], from that over [x]. *)
Definition with_tail (e : list (Tensor T))
           (r : outcome (list (Tensor T) * list (Tensor T)) * @Head T)
  : outcome (list (Tensor T) * list (Tensor T)) * @Head T :=
  match r with
  | (Ok (x', o), h') => (Ok (x' ++ e, o), h')
  | (Raise er, h') => (Raise er, h')
  end.

End MoreDefinitions.

(* ================================================================== *)
(** * Further concrete inputs *)

(** Anchors for four scales: the default three and a coarser one. *)
Definition four_anchor_rows : list (list R) :=
  default_anchors ++ [map INR [436; 402; 520; 600; 700; 650]].

(** A stand-in for [MergedHead.forward]: the input is passed on. *)
Definition pass_on (i : nat) (t : Tensor R) : outcome (Tensor R) := Ok t.

(** Rows of anchors of unequal lengths, and a row of odd length. *)
Definition ragged_rows : list (list R) := [map INR [10; 13]; map INR [30]].
Definition odd_rows : list (list R) := [map INR [10; 13; 16]].

(** Head outputs with three channels per anchor. *)
Definition few_channel_x : list (Tensor R) :=
  [full [1; 9; 4; 4] 0%R; full [1; 9; 2; 2] 0%R; full [1; 9; 1; 1] 0%R].

(** The bias of a head convolution of [example_head]: eighteen channels. *)
Definition example_bias : Tensor R := full [18] 0%R.

(** [example_head] with a zero stride at the second scale. *)
Definition zero_stride_head : Head :=
  mkHead 1 3 3 [zeros1; zeros1; zeros1] [zeros1; zeros1; zeros1]
         (anchors example_head) (map INR [8; 0; 32]) 4 (nms example_head)
         false (head_p3 example_head) (head_p4 example_head)
         (head_p5 example_head) [] true.

(** A 1x1 [ConvModule] from one channel to two, with its parameters; the
    [eps] is the one [init_params] sets. *)
Definition example_conv_module : ConvModuleParams :=
  mkParams (mkConvModule (mkConv2d 1 2 1 1 0 1 false) 2 ReLU6 false)
           (mkTensor [2; 1; 1; 1] [2; 3]%R) None
           (mkBatchNorm2d (mkTensor [2] [1; 2]%R) (mkTensor [2] [0; 1]%R)
                          (mkTensor [2] [5; 7]%R) (mkTensor [2] [4; 9]%R)
                          (1 / 1000)%R)
           false.
(* ================================================================== *)
(** * Facts about tensors *)

Section TensorFacts.
Context {T : Type} {SC : Scalar T}.

(* ---------------------------------------------------------------- *)
(** ** Offsets and tabulation *)

Lemma ravel_lt : forall sh idx, Forall2 lt idx sh -> ravel sh idx < numel sh.
Proof.
  intros sh idx F. induction F as [|i s idx sh Hi F IH]; simpl.
  - lia.
  - nia.
Qed.

Lemma unravel_ravel : forall sh idx,
    Forall2 lt idx sh -> unravel sh (ravel sh idx) = idx.
Proof.
  intros sh idx F. induction F as [|i s idx sh Hi F IH]; simpl.
  - reflexivity.
  - pose proof (ravel_lt _ _ F) as Hr.
    assert (Hm : numel sh <> 0) by lia.
    rewrite Nat.div_add_l by exact Hm.
    rewrite (Nat.div_small _ _ Hr), Nat.add_0_r.
    rewrite (Nat.add_comm (i * numel sh)), Nat.Div0.mod_add.
    rewrite (Nat.mod_small _ _ Hr), IH. reflexivity.
Qed.

Lemma wf_tabulate : forall sh (f : list nat -> T), wf (tabulate sh f).
Proof. intros. unfold wf, tabulate. simpl. now rewrite length_map, length_seq. Qed.

Lemma tget_tabulate : forall sh (f : list nat -> T) idx,
    Forall2 lt idx sh -> tget (tabulate sh f) idx = f idx.
Proof.
  intros sh f idx F. unfold tget, tabulate. simpl.
  pose proof (ravel_lt _ _ F) as Hr.
  rewrite (nth_indep _ s_zero (f (unravel sh 0)))
    by now rewrite length_map, length_seq.
  rewrite (map_nth (fun j => f (unravel sh j)) (seq 0 (numel sh)) 0).
  rewrite seq_nth by exact Hr. simpl. now rewrite unravel_ravel.
Qed.

Lemma tget_tmap : forall f (t : Tensor T) idx,
    wf t -> Forall2 lt idx (shape t) -> tget (tmap f t) idx = f (tget t idx).
Proof.
  intros f t idx W F. unfold tget, tmap. simpl.
  pose proof (ravel_lt _ _ F) as Hr.
  rewrite (nth_indep _ s_zero (f s_zero)) by (rewrite length_map, W; exact Hr).
  apply map_nth.
Qed.

Lemma wf_tmap : forall f (t : Tensor T), wf t -> wf (tmap f t).
Proof. intros f t W. unfold wf, tmap. simpl. now rewrite length_map. Qed.


(* ---------------------------------------------------------------- *)
(** ** Broadcasting *)

Lemma map2_bidx_id : forall sh idx,
    Forall2 lt idx sh ->
    map2 (fun s i => if s =? 1 then 0 else i) sh idx = idx.
Proof.
  intros sh idx F. induction F as [|i s idx sh Hi F IH]; simpl.
  - reflexivity.
  - rewrite IH. destruct (Nat.eqb_spec s 1); f_equal; lia.
Qed.

Lemma bidx_id : forall sh idx, Forall2 lt idx sh -> bidx sh idx = idx.
Proof.
  intros sh idx F. unfold bidx.
  rewrite (Forall2_length F), Nat.sub_diag. simpl. now apply map2_bidx_id.
Qed.

Lemma bidx_lead1 : forall sh n idx,
    Forall2 lt idx sh -> bidx (1 :: sh) (n :: idx) = 0 :: idx.
Proof.
  intros sh n idx F. unfold bidx. simpl length.
  rewrite (Forall2_length F), Nat.sub_diag. simpl.
  now rewrite map2_bidx_id.
Qed.

Lemma broadcast_dims_refl : forall sh, broadcast_dims sh sh = Some sh.
Proof.
  induction sh as [|s sh IH]; simpl.
  - reflexivity.
  - now rewrite IH, Nat.eqb_refl.
Qed.

Lemma pad_shape_same : forall sh, pad_shape (length sh) sh = sh.
Proof. intros. unfold pad_shape. now rewrite Nat.sub_diag. Qed.

Lemma broadcast_shapes_refl : forall sh, broadcast_shapes sh sh = Some sh.
Proof.
  intros. unfold broadcast_shapes.
  now rewrite Nat.max_id, pad_shape_same, broadcast_dims_refl.
Qed.

Lemma broadcast_shapes_lead1 : forall n sh,
    broadcast_shapes (n :: sh) (1 :: sh) = Some (n :: sh).
Proof.
  intros. unfold broadcast_shapes, pad_shape. simpl length.
  rewrite Nat.max_id, Nat.sub_diag. simpl.
  rewrite broadcast_dims_refl.
  destruct (Nat.eqb_spec n 1) as [->|?]; reflexivity.
Qed.

Lemma expandable_refl : forall sh, expandable sh sh = true.
Proof.
  intros. unfold expandable.
  rewrite Nat.leb_refl, Nat.sub_diag. simpl.
  induction sh as [|s sh IH]; simpl.
  - reflexivity.
  - now rewrite Nat.eqb_refl, IH.
Qed.

(** An elementwise operation on two tensors of one shape. *)
Lemma tzip_same : forall op (a b : Tensor T),
    shape b = shape a ->
    exists z, tzip op a b = Ok z /\ shape z = shape a /\ wf z /\
              forall idx, Forall2 lt idx (shape a) ->
                          tget z idx = op (tget a idx) (tget b idx).
Proof.
  intros op a b E. unfold tzip. rewrite E, broadcast_shapes_refl.
  eexists. split; [reflexivity|]. split; [reflexivity|].
  split; [apply wf_tabulate|].
  intros idx F. rewrite tget_tabulate by exact F.
  now rewrite bidx_id by exact F.
Qed.

(** The same when the second operand has extent 1 in the first place. *)
Lemma tzip_lead1 : forall op (a b : Tensor T) n sh,
    shape a = n :: sh -> shape b = 1 :: sh ->
    exists z, tzip op a b = Ok z /\ shape z = n :: sh /\ wf z /\
              forall i idx, i < n -> Forall2 lt idx sh ->
                tget z (i :: idx) = op (tget a (i :: idx)) (tget b (0 :: idx)).
Proof.
  intros op a b n sh Ea Eb. unfold tzip.
  rewrite Ea, Eb, broadcast_shapes_lead1.
  eexists. split; [reflexivity|]. split; [reflexivity|].
  split; [apply wf_tabulate|].
  intros i idx Hi F.
  rewrite tget_tabulate by (constructor; assumption).
  rewrite bidx_id by (constructor; assumption).
  now rewrite bidx_lead1 by exact F.
Qed.

(* ---------------------------------------------------------------- *)
(** ** Views *)

Lemma view_ok : forall sh (t : Tensor T),
    numel sh = numel (shape t) -> view sh t = Ok (mkTensor sh (data t)).
Proof. intros sh t E. unfold view. now rewrite E, Nat.eqb_refl. Qed.

Lemma view_fail : forall sh (t : Tensor T),
    numel sh <> numel (shape t) -> view sh t = Raise RuntimeError.
Proof.
  intros sh t E. unfold view.
  now destruct (Nat.eqb_spec (numel sh) (numel (shape t))).
Qed.

Lemma tget_same_offset : forall (t u : Tensor T) idx idx',
    data t = data u ->
    ravel (shape t) idx = ravel (shape u) idx' ->
    tget t idx = tget u idx'.
Proof. intros t u idx idx' D R. unfold tget. now rewrite D, R. Qed.

(* ---------------------------------------------------------------- *)
(** ** The five-dimensional layout (batch, anchor, row, column, channel) *)

Ltac bounds := repeat (apply Forall2_cons || apply Forall2_nil); try lia.

Lemma slice_shape_5 : forall lo hi N A H W K,
    lo <= hi -> hi <= K ->
    slice_shape lo hi [N; A; H; W; K] = [N; A; H; W; hi - lo].
Proof.
  intros. unfold slice_shape. simpl.
  now rewrite (Nat.min_l hi K), (Nat.min_l lo K) by lia.
Qed.

Lemma slice_last_5 : forall lo hi (t : Tensor T) N A H W K,
    shape t = [N; A; H; W; K] -> lo <= hi -> hi <= K ->
    exists s, slice_last lo hi t = Ok s /\
              shape s = [N; A; H; W; hi - lo] /\ wf s /\
              forall n a r c k,
                n < N -> a < A -> r < H -> c < W -> k < hi - lo ->
                tget s [n; a; r; c; k] = tget t [n; a; r; c; k + lo].
Proof.
  intros lo hi t N A H W K E L1 L2. unfold slice_last.
  rewrite E, slice_shape_5 by assumption.
  eexists. split; [reflexivity|]. split; [reflexivity|].
  split; [apply wf_tabulate|].
  intros. rewrite tget_tabulate by bounds. reflexivity.
Qed.

Lemma set_slice_last_5 : forall lo hi (t v : Tensor T) N A H W K,
    shape t = [N; A; H; W; K] -> shape v = [N; A; H; W; hi - lo] ->
    lo <= hi -> hi <= K ->
    exists y, set_slice_last lo hi t v = Ok y /\
              shape y = [N; A; H; W; K] /\ wf y /\
              forall n a r c k,
                n < N -> a < A -> r < H -> c < W -> k < K ->
                tget y [n; a; r; c; k] =
                if (lo <=? k) && (k <? hi)
                then tget v [n; a; r; c; k - lo]
                else tget t [n; a; r; c; k].
Proof.
  intros lo hi t v N A H W K Et Ev L1 L2. unfold set_slice_last.
  rewrite Et, Ev, slice_shape_5, expandable_refl by assumption.
  eexists. split; [reflexivity|]. split; [reflexivity|].
  split; [apply wf_tabulate|].
  intros n a r c k Hn Ha Hr Hc Hk. rewrite tget_tabulate by bounds.
  simpl last. simpl map_last.
  destruct ((lo <=? k) && (k <? hi)) eqn:In; [|reflexivity].
  apply andb_prop in In. destruct In as [I1 I2].
  apply Nat.leb_le in I1. apply Nat.ltb_lt in I2.
  now rewrite bidx_id by bounds.
Qed.

Lemma permute_01342 : forall (t : Tensor T) N A K H W,
    shape t = [N; A; K; H; W] ->
    shape (permute [0; 1; 3; 4; 2] t) = [N; A; H; W; K] /\
    wf (permute [0; 1; 3; 4; 2] t) /\
    forall n a r c k,
      n < N -> a < A -> r < H -> c < W -> k < K ->
      tget (permute [0; 1; 3; 4; 2] t) [n; a; r; c; k] = tget t [n; a; k; r; c].
Proof.
  intros t N A K H W E. unfold permute. rewrite E. simpl map.
  split; [reflexivity|]. split; [apply wf_tabulate|].
  intros. rewrite tget_tabulate by bounds. reflexivity.
Qed.

(* ---------------------------------------------------------------- *)
(** ** Concatenation along the second extent *)

Lemma locate_offset : forall (ts : list (Tensor T)) ms i t m j,
    Forall2 (fun t m => dim1 t = m) ts ms ->
    nth_error ts i = Some t -> nth_error ms i = Some m -> j < m ->
    locate ts (list_sum (firstn i ms) + j) = (t, j).
Proof.
  intros ts ms i t m j F. revert i.
  induction F as [|t0 m0 ts ms E F IH]; intros i Ht Hm Hj.
  - destruct i; discriminate.
  - destruct i as [|i]; simpl in *.
    + injection Ht as <-. injection Hm as <-. rewrite E.
      now destruct (Nat.ltb_spec j m0); [|lia].
    + rewrite E.
      destruct (Nat.ltb_spec (m0 + list_sum (firstn i ms) + j) m0); [lia|].
      replace (m0 + list_sum (firstn i ms) + j - m0)
        with (list_sum (firstn i ms) + j) by lia.
      now apply IH.
Qed.

Lemma list_sum_firstn_lt : forall ms i m j,
    nth_error ms i = Some m -> j < m ->
    list_sum (firstn i ms) + j < list_sum ms.
Proof.
  induction ms as [|m0 ms IH]; intros i m j Hm Hj.
  - destruct i; discriminate.
  - destruct i as [|i]; simpl in *.
    + injection Hm as <-. lia.
    + specialize (IH i m j Hm Hj). lia.
Qed.

Lemma cat1_spec : forall (ts : list (Tensor T)) ms N K,
    ts <> [] ->
    Forall2 (fun t m => shape t = [N; m; K]) ts ms ->
    exists c, cat1 ts = Ok c /\ shape c = [N; list_sum ms; K] /\ wf c /\
              forall i t m n j k,
                nth_error ts i = Some t -> nth_error ms i = Some m ->
                n < N -> j < m -> k < K ->
                tget c [n; list_sum (firstn i ms) + j; k] = tget t [n; j; k].
Proof.
  intros ts ms N K NE F.
  assert (D : Forall2 (fun t m => dim1 t = m) ts ms).
  { eapply Forall2_impl; [|exact F]. intros t m E. unfold dim1. now rewrite E. }
  assert (S : list_sum (map dim1 ts) = list_sum ms).
  { clear -D. induction D; simpl; congruence. }
  assert (C : forallb (cat_compatible N [K]) ts = true).
  { clear -F. induction F as [|t m ts ms E F IH]; simpl; [reflexivity|].
    rewrite IH, andb_true_r. unfold cat_compatible. rewrite E, Nat.eqb_refl.
    now destruct (list_eq_dec Nat.eq_dec [K] [K]). }
  unfold cat1. destruct ts as [|t0 ts']; [congruence|].
  destruct ms as [|m0 ms']; [inversion F|].
  assert (E0 : shape t0 = [N; m0; K]) by now inversion F.
  rewrite E0, C, S.
  eexists. split; [reflexivity|]. split; [reflexivity|].
  split; [apply wf_tabulate|].
  intros i t m n j k Ht Hm Hn Hj Hk.
  pose proof (list_sum_firstn_lt _ _ _ _ Hm Hj) as B.
  rewrite tget_tabulate by bounds.
  now rewrite (locate_offset _ _ _ _ _ _ D Ht Hm Hj).
Qed.

(* ---------------------------------------------------------------- *)
(** ** Equality of tensors *)

Lemma unravel_bounds : forall sh j, j < numel sh -> Forall2 lt (unravel sh j) sh.
Proof.
  induction sh as [|s sh IH]; intros j L; simpl in *.
  - constructor.
  - assert (M0 : numel sh <> 0) by (intros Z; rewrite Z in L; lia).
    constructor.
    + apply Nat.Div0.div_lt_upper_bound. now rewrite Nat.mul_comm.
    + apply IH. now apply Nat.mod_upper_bound.
Qed.

Lemma ravel_unravel : forall sh j, j < numel sh -> ravel sh (unravel sh j) = j.
Proof.
  induction sh as [|s sh IH]; intros j L; simpl in *.
  - lia.
  - assert (M0 : numel sh <> 0) by (intros Z; rewrite Z in L; lia).
    rewrite IH by now apply Nat.mod_upper_bound.
    rewrite (Nat.div_mod_eq j (numel sh)) at 3. lia.
Qed.

(** Two well-formed tensors of one shape with the same elements are equal. *)
Lemma tensor_ext : forall t u : Tensor T,
    wf t -> wf u -> shape t = shape u ->
    (forall idx, Forall2 lt idx (shape t) -> tget t idx = tget u idx) ->
    t = u.
Proof.
  intros [sh d] [sh' d'] Wt Wu E V. unfold wf in *. simpl in *. subst sh'.
  f_equal. apply (nth_ext _ _ s_zero s_zero); [congruence|].
  intros j L. rewrite Wt in L.
  specialize (V (unravel sh j) (unravel_bounds sh j L)).
  unfold tget in V. simpl in V. now rewrite ravel_unravel in V.
Qed.

Lemma row_decompose : forall ms J,
    J < list_sum ms ->
    exists i m j, nth_error ms i = Some m /\ j < m /\
                  J = list_sum (firstn i ms) + j.
Proof.
  induction ms as [|m0 ms IH]; intros J L; simpl in L; [lia|].
  destruct (lt_dec J m0) as [Lt|Ge].
  - exists 0, m0, J. simpl. split; [reflexivity|]. split; [exact Lt | lia].
  - destruct (IH (J - m0)) as (i & m & j & E & Lj & EJ); [lia|].
    exists (S i), m, j. simpl. split; [exact E|]. split; [exact Lj | lia].
Qed.

Lemma cell_decompose : forall A H W j,
    j < A * H * W ->
    exists a r c, a < A /\ r < H /\ c < W /\ j = (a * H + r) * W + c.
Proof.
  intros A H W j L.
  assert (W0 : W <> 0) by (intros ->; lia).
  assert (H0 : H <> 0) by (intros ->; lia).
  exists (j / W / H), ((j / W) mod H), (j mod W).
  pose proof (Nat.div_mod_eq j W) as E1.
  pose proof (Nat.div_mod_eq (j / W) H) as E2.
  pose proof (Nat.mod_upper_bound j W W0) as B1.
  pose proof (Nat.mod_upper_bound (j / W) H H0) as B2.
  assert (Q1 : j / W < A * H)
    by (apply Nat.Div0.div_lt_upper_bound; lia).
  assert (Q2 : j / W / H < A)
    by (apply Nat.Div0.div_lt_upper_bound; lia).
  repeat split; try assumption. nia.
Qed.
End TensorFacts.

(* ================================================================== *)
(** * The box decode and the grids *)

Section DecodeFacts.
Context {T : Type} {SC : Scalar T}.

Ltac bounds := repeat (apply Forall2_cons || apply Forall2_nil); try lia.

Lemma range_true : forall lo hi k,
    lo <= k < hi -> (lo <=? k) && (k <? hi) = true.
Proof.
  intros lo hi k [L U]. apply andb_true_intro.
  split; [now apply Nat.leb_le | now apply Nat.ltb_lt].
Qed.

Lemma range_false : forall lo hi k,
    k < lo \/ hi <= k -> (lo <=? k) && (k <? hi) = false.
Proof.
  intros lo hi k [L|U].
  - apply andb_false_intro1. now apply Nat.leb_gt.
  - apply andb_false_intro2. now apply Nat.ltb_ge.
Qed.

Lemma decode_boxes_spec : forall (x G AS : Tensor T) (S : T) N A H W K,
    shape x = [N; A; H; W; K] -> wf x -> 4 <= K ->
    shape G = [1; A; H; W; 2] -> shape AS = [1; A; H; W; 2] ->
    exists y, decode_boxes x G AS S = Ok y /\
              shape y = [N; A; H; W; K] /\ wf y /\
              forall n a r c k,
                n < N -> a < A -> r < H -> c < W -> k < K ->
                tget y [n; a; r; c; k] =
                box_value k (s_sigmoid (tget x [n; a; r; c; k]))
                          (tget G [0; a; r; c; k])
                          (tget AS [0; a; r; c; k - 2]) S.
Proof.
  intros x G AS S N A H W K Ex Wx HK EG EAS. unfold decode_boxes.
  set (y0 := tmap s_sigmoid x).
  assert (Ey0 : shape y0 = [N; A; H; W; K]) by exact Ex.
  assert (Wy0 : wf y0) by now apply wf_tmap.
  (* the centre channels *)
  destruct (slice_last_5 0 2 y0 N A H W K Ey0) as (xy & -> & Exy & Wxy & Gxy);
    [lia | lia |]. cbn [obind].
  set (xy1 := tmap (fun v => s_mul v s_two) xy).
  set (xy2 := tmap (fun v => s_sub v s_half) xy1).
  destruct (tzip_lead1 s_add xy2 G N [A; H; W; 2] Exy EG)
    as (xy3 & -> & Exy3 & Wxy3 & Gxy3). cbn [obind].
  set (xy4 := tmap (fun v => s_mul v S) xy3).
  destruct (set_slice_last_5 0 2 y0 xy4 N A H W K Ey0 Exy3)
    as (y1 & -> & Ey1 & Wy1 & Gy1); [lia | lia |]. cbn [obind].
  (* the size channels *)
  destruct (slice_last_5 2 4 y1 N A H W K Ey1) as (wh & -> & Ewh & Wwh & Gwh);
    [lia | lia |]. cbn [obind].
  set (wh1 := tmap (fun v => s_mul v s_two) wh).
  destruct (tzip_same s_mul wh1 wh1 eq_refl) as (wh2 & -> & Ewh2 & Wwh2 & Gwh2).
  cbn [obind].
  assert (Ewh2' : shape wh2 = [N; A; H; W; 2]) by (rewrite Ewh2; exact Ewh).
  destruct (tzip_lead1 s_mul wh2 AS N [A; H; W; 2] Ewh2' EAS)
    as (wh3 & -> & Ewh3 & Wwh3 & Gwh3). cbn [obind].
  destruct (set_slice_last_5 2 4 y1 wh3 N A H W K Ey1 Ewh3)
    as (y2 & -> & Ey2 & Wy2 & Gy2); [lia | lia |].
  exists y2. split; [reflexivity|]. split; [exact Ey2|]. split; [exact Wy2|].
  intros n a r c k Hn Ha Hr Hc Hk.
  assert (V0 : forall k', k' < K ->
             tget y0 [n; a; r; c; k'] = s_sigmoid (tget x [n; a; r; c; k'])).
  { intros k' Hk'. apply tget_tmap; [exact Wx | rewrite Ex; bounds]. }
  rewrite Gy2 by assumption. unfold box_value.
  destruct (le_lt_dec 2 k) as [K2|K2].
  - rewrite (proj2 (Nat.ltb_ge k 2) K2).
    destruct (le_lt_dec 4 k) as [K4|K4].
    + (* a confidence or attribute channel *)
      rewrite (range_false 2 4 k), (proj2 (Nat.ltb_ge k 4) K4) by lia.
      rewrite (Gy1 n a r c k), (range_false 0 2 k) by (assumption || lia).
      apply V0. exact Hk.
    + (* a size channel *)
      rewrite (range_true 2 4 k), (proj2 (Nat.ltb_lt k 4) K4) by lia.
      rewrite Gwh3 by bounds.
      rewrite Gwh2 by (unfold wh1; cbn [shape tmap]; rewrite Ewh; bounds).
      unfold wh1.
      rewrite tget_tmap by (try exact Wwh; rewrite Ewh; bounds).
      rewrite Gwh by lia.
      replace (k - 2 + 2) with k by lia.
      rewrite (Gy1 n a r c k), (range_false 0 2 k) by (assumption || lia).
      rewrite V0 by exact Hk. reflexivity.
  - (* a centre channel *)
    rewrite (proj2 (Nat.ltb_lt k 2) K2), (range_false 2 4 k) by lia.
    rewrite (Gy1 n a r c k), (range_true 0 2 k) by (assumption || lia).
    rewrite Nat.sub_0_r. unfold xy4.
    rewrite tget_tmap by (try exact Wxy3; rewrite Exy3; bounds).
    rewrite Gxy3 by bounds. unfold xy2, xy1.
    rewrite !tget_tmap
      by (repeat apply wf_tmap; try exact Wxy; cbn [shape tmap]; rewrite Exy; bounds).
    rewrite Gxy by lia. rewrite Nat.add_0_r, V0 by lia. reflexivity.
Qed.

(* ---------------------------------------------------------------- *)
(** ** The coordinate grid and the anchor grid *)

Lemma bidx_entry : forall s i, i < s -> (if s =? 1 then 0 else i) = i.
Proof. intros s i L. destruct (Nat.eqb_spec s 1); lia. Qed.

Lemma coordinate_stack : forall ny nx,
    exists st : Tensor T,
      stack2_dim2 (snd (meshgrid_ij (arange ny) (arange nx)))
                  (fst (meshgrid_ij (arange ny) (arange nx))) = Ok st /\
      shape st = [ny; nx; 2] /\
      forall r c, r < ny -> c < nx ->
        tget st [r; c; 0] = s_of_nat c /\ tget st [r; c; 1] = s_of_nat r.
Proof.
  intros ny nx. unfold stack2_dim2, meshgrid_ij. cbn [fst snd shape arange tabulate nth].
  destruct (list_eq_dec Nat.eq_dec [ny; nx] [ny; nx]) as [_|NE]; [|congruence].
  eexists. split; [reflexivity|]. split; [reflexivity|].
  intros r c Hr Hc. split.
  - rewrite tget_tabulate by bounds.
    rewrite (@tget_tabulate _ _ [ny; nx]) by bounds. cbn [nth].
    unfold arange. rewrite (@tget_tabulate _ _ [nx]) by bounds. reflexivity.
  - rewrite tget_tabulate by bounds.
    rewrite (@tget_tabulate _ _ [ny; nx]) by bounds. cbn [nth].
    unfold arange. rewrite (@tget_tabulate _ _ [ny]) by bounds. reflexivity.
Qed.

Lemma expand_coordinates : forall (st : Tensor T) A ny nx,
    shape st = [ny; nx; 2] ->
    (forall r c, r < ny -> c < nx ->
       tget st [r; c; 0] = s_of_nat c /\ tget st [r; c; 1] = s_of_nat r) ->
    exists g, expand [1; A; ny; nx; 2] st = Ok g /\ is_grid A ny nx g.
Proof.
  intros st A ny nx E V. unfold expand, expandable. rewrite E.
  cbn. rewrite !Nat.eqb_refl. cbn.
  eexists. split; [reflexivity|]. split; [reflexivity|].
  intros a r c Ha Hr Hc.
  rewrite !tget_tabulate by bounds.
  unfold bidx. cbn [length Nat.sub skipn].
  rewrite !(bidx_entry ny r), !(bidx_entry nx c) by assumption.
  now apply V.
Qed.

Lemma scaled_anchors_spec : forall (h : Head) i s,
    shape (anchors h) = [nl h; na h; 2] -> i < nl h ->
    nth_error (strides h) i = Some s ->
    exists sa, scaled_anchors h i = Ok sa /\ shape sa = [na h; 2] /\ wf sa /\
               forall a k, a < na h -> k < 2 ->
                 tget sa [a; k] = s_mul (tget (anchors h) [i; a; k]) s.
Proof.
  intros h i s E Hi Hs. unfold scaled_anchors, select0, list_get.
  rewrite E, Hs. rewrite (proj2 (Nat.ltb_lt i (nl h)) Hi). cbn [obind].
  eexists. split; [reflexivity|]. split; [reflexivity|].
  split; [apply wf_tmap, wf_tabulate|].
  intros a k Ha Hk.
  rewrite tget_tmap by (try apply wf_tabulate; bounds).
  now rewrite tget_tabulate by bounds.
Qed.

Lemma expand_anchors : forall (h : Head) i (sa : Tensor T) s ny nx,
    shape sa = [na h; 2] ->
    nth_error (strides h) i = Some s ->
    (forall a k, a < na h -> k < 2 ->
       tget sa [a; k] = s_mul (tget (anchors h) [i; a; k]) s) ->
    exists ag, (let! v := view [1; na h; 1; 1; 2] sa in
                expand [1; na h; ny; nx; 2] v) = Ok ag /\
               is_anchor_grid h i ny nx ag.
Proof.
  intros h i sa s ny nx E Hs V.
  rewrite view_ok by (rewrite E; simpl; lia). cbn [obind].
  unfold expand, expandable. cbn [shape length Nat.leb Nat.sub skipn combine forallb fst snd].
  rewrite !Nat.eqb_refl. cbn [orb andb Nat.eqb].
  rewrite !orb_true_r. cbn [andb].
  eexists. split; [reflexivity|]. split; [reflexivity|].
  exists s. split; [exact Hs|].
  intros a r c k Ha Hr Hc Hk.
  rewrite tget_tabulate by bounds.
  unfold bidx. cbn [length Nat.sub skipn map2 Nat.eqb].
  rewrite (bidx_entry (na h) a) by assumption.
  rewrite <- V by assumption.
  apply tget_same_offset; [reflexivity|]. rewrite E. simpl. lia.
Qed.
End DecodeFacts.

(* ================================================================== *)
(** * The methods of the head *)

Section HeadFacts.
Context {T : Type} {SC : Scalar T}.
Variable Detections : Type.
Variable nms_forward : AnchornizedNMS -> Tensor T -> outcome Detections.
Variable torch_1_10 : bool.

Ltac bounds := repeat (apply Forall2_cons || apply Forall2_nil); try lia.

(** Unfolds one monadic step. *)
Ltac mstep := unfold bind, self, lift, ret, update; cbn beta iota.

(** [_make_grid] returns the two grids; it touches the head only in
    porting mode, where it appends the scaled anchors of the scale. *)
Lemma make_grid_spec : forall (h : Head) nx ny i,
    shape (anchors h) = [nl h; na h; 2] ->
    i < nl h -> i < length (strides h) ->
    exists g ag seg,
      _make_grid torch_1_10 nx ny i h =
      (Ok (g, ag),
       if porting h
       then set_anchors_for_porting h (anchors_for_porting h ++ seg)
       else h) /\
      is_grid (na h) ny nx g /\ is_anchor_grid h i ny nx ag /\
      is_scaled_row h i seg.
Proof.
  intros h nx ny i EA Hi Hs.
  destruct (nth_error (strides h) i) as [s|] eqn:Es;
    [|apply nth_error_None in Es; lia].
  destruct (scaled_anchors_spec h i s EA Hi Es) as (sa & Esa & Shsa & Wsa & Vsa).
  destruct (coordinate_stack ny nx) as (st & Est & Shst & Vst).
  destruct (expand_coordinates st (na h) ny nx Shst Vst) as (g & Eg & Gg).
  destruct (expand_anchors h i sa s ny nx Shsa Es Vsa) as (ag & Eag & Gag).
  rewrite view_ok in Eag by (rewrite Shsa; simpl; lia). cbn [obind] in Eag.
  assert (Seg : is_scaled_row h i (data sa)).
  { split.
    - rewrite Wsa, Shsa. simpl. lia.
    - exists s. split; [exact Es|]. intros a k Ha Hk.
      rewrite <- Vsa by assumption. unfold tget. rewrite Shsa. simpl.
      f_equal. lia. }
  exists g, ag, (data sa).
  split; [|split; [exact Gg|split; [exact Gag|exact Seg]]].
  unfold _make_grid. mstep.
  unfold select0 at 1. rewrite EA, (proj2 (Nat.ltb_lt i (nl h)) Hi).
  unfold meshgrid_ij in Est. cbn [fst snd] in Est.
  assert (M : (if torch_1_10 then meshgrid_ij (arange ny) (arange nx)
               else meshgrid_ij (arange (T:=T) ny) (arange nx))
              = meshgrid_ij (arange ny) (arange nx)) by now destruct torch_1_10.
  rewrite M. unfold meshgrid_ij. rewrite Est, Eg, Esa.
  rewrite view_ok by (rewrite Shsa; simpl; lia). rewrite Eag.
  destruct (porting h); reflexivity.
Qed.

(** [_reshape] splits the channels by anchor and moves them last. *)
Lemma reshape_spec : forall (h : Head) (x : Tensor T) N K H W,
    0 < na h -> shape x = [N; na h * K; H; W] ->
    exists y, _reshape x h = (Ok y, h) /\
              shape y = [N; na h; H; W; K] /\ wf y /\
              forall n a r c k,
                n < N -> a < na h -> r < H -> c < W -> k < K ->
                tget y [n; a; r; c; k] = tget x [n; a * K + k; r; c].
Proof.
  intros h x N K H W HA E. unfold _reshape. mstep. rewrite E.
  destruct (Nat.eqb_spec (na h) 0) as [Z|_]; [lia|].
  rewrite (Nat.mul_comm (na h) K), Nat.div_mul by lia.
  rewrite view_ok by (rewrite E; simpl; ring).
  set (v := mkTensor [N; na h; K; H; W] (data x)).
  destruct (permute_01342 v N (na h) K H W eq_refl) as (Sp & Wp & Gp).
  eexists. split; [reflexivity|]. split; [exact Sp|]. split; [exact Wp|].
  intros n a r c k Hn Ha Hr Hc Hk. rewrite Gp by assumption.
  apply tget_same_offset; [reflexivity|]. rewrite E. simpl. ring.
Qed.

(* ---------------------------------------------------------------- *)
(** ** Python lists *)

Lemma list_update_same : forall A (l : list A) i v,
    nth_error l i = Some v -> list_update l i v = l.
Proof.
  induction l as [|a l IH]; intros [|i] v E; simpl in *; try discriminate.
  - now injection E as ->.
  - now rewrite IH.
Qed.

Lemma length_list_update : forall A (l : list A) i v,
    length (list_update l i v) = length l.
Proof.
  induction l as [|a l IH]; intros [|i] v; simpl; auto.
Qed.

Lemma nth_error_list_update_eq : forall A (l : list A) i v,
    i < length l -> nth_error (list_update l i v) i = Some v.
Proof.
  induction l as [|a l IH]; intros [|i] v L; simpl in *; try lia.
  - reflexivity.
  - apply IH. lia.
Qed.

Lemma nth_error_list_update_neq : forall A (l : list A) i j v,
    i <> j -> nth_error (list_update l i v) j = nth_error l j.
Proof.
  induction l as [|a l IH]; intros [|i] [|j] v NE; simpl; try reflexivity.
  - congruence.
  - apply IH. congruence.
Qed.

Lemma Forall2_impl_in : forall A B (P Q : A -> B -> Prop) l m,
    (forall a b, In a l -> P a b -> Q a b) ->
    Forall2 P l m -> Forall2 Q l m.
Proof.
  intros A B P Q l m I F. induction F as [|a b l m Pab F IH]; constructor.
  - apply I; [now left | exact Pab].
  - apply IH. intros a' b' Hin. apply I. now right.
Qed.

Lemma list_get_ok : forall A (l : list A) i v,
    nth_error l i = Some v -> list_get l i = Ok v.
Proof. intros A l i v E. unfold list_get. now rewrite E. Qed.

Lemma list_set_ok : forall A (l : list A) i v,
    i < length l -> list_set l i v = Ok (list_update l i v).
Proof.
  intros A l i v L. unfold list_set.
  now rewrite (proj2 (Nat.ltb_lt _ _) L).
Qed.

Lemma nth_error_lt : forall A (l : list A) i v,
    nth_error l i = Some v -> i < length l.
Proof. intros A l i v E. apply nth_error_Some. congruence. Qed.

(* ---------------------------------------------------------------- *)
(** ** The grid cache *)

Lemma set_grids_same : forall h : @Head T, set_grids h (grid h) (anchor_grid h) = h.
Proof. now destruct h. Qed.

Lemma grids_only_refl : forall h : @Head T, grids_only h h.
Proof. intros h. unfold grids_only. now rewrite set_grids_same. Qed.

Lemma grids_only_set : forall (h : @Head T) g ag, grids_only h (set_grids h g ag).
Proof. intros. reflexivity. Qed.

Lemma grids_only_trans : forall h1 h2 h3 : @Head T,
    grids_only h1 h2 -> grids_only h2 h3 -> grids_only h1 h3.
Proof. unfold grids_only. intros h1 h2 h3 E1 E2. rewrite E2, E1. reflexivity. Qed.

(** The cache of scale [i] after the lookup for a feature map of [H] rows
    and [W] columns. *)
Lemma lookup_grid_spec : forall (h : Head) i (xi : Tensor T) N A H W K,
    head_ok h -> porting h = false -> i < nl h -> i < length (strides h) ->
    shape xi = [N; A; H; W; K] ->
    exists g ag,
      lookup_grid torch_1_10 i xi W H h =
      (Ok tt, set_grids h (list_update (grid h) i g)
                          (list_update (anchor_grid h) i ag)) /\
      is_grid (na h) H W g /\ is_anchor_grid h i H W ag.
Proof.
  intros h i xi N A H W K OK P Hi Hs Exi.
  destruct (ok_slots h OK i Hi) as (g0 & ag0 & Eg0 & Eag0 & Slot).
  destruct (make_grid_spec h W H i (ok_anchors h OK) Hi Hs)
    as (g & ag & seg & Emk & Gg & Gag & _).
  rewrite P in Emk.
  unfold lookup_grid. mstep. rewrite (list_get_ok _ _ _ _ Eg0).
  assert (Sx : shape_2_4 xi = [H; W]) by (unfold shape_2_4; now rewrite Exi).
  rewrite Sx.
  destruct (list_eq_dec Nat.eq_dec (shape_2_4 g0) [H; W]) as [Hit|Miss].
  - (* the cached grids are kept *)
    exists g0, ag0.
    rewrite (list_update_same _ _ _ _ Eg0), (list_update_same _ _ _ _ Eag0).
    rewrite set_grids_same. split; [reflexivity|].
    destruct Slot as [[-> _]|(ny & nx & G0 & AG0)]; [discriminate Hit|].
    destruct G0 as [Sg0 Vg0]. unfold shape_2_4 in Hit. rewrite Sg0 in Hit.
    injection Hit as -> ->. split; [split; assumption | exact AG0].
  - (* the grids are rebuilt *)
    exists g, ag. rewrite Emk.
    rewrite (list_set_ok _ _ _ _ (nth_error_lt _ _ _ _ Eg0)).
    rewrite (list_set_ok _ _ _ _ (nth_error_lt _ _ _ _ Eag0)).
    split; [reflexivity|]. split; assumption.
Qed.

Lemma head_ok_update : forall (h : Head) i g ag H W,
    head_ok h -> i < nl h ->
    is_grid (na h) H W g -> is_anchor_grid h i H W ag ->
    head_ok (set_grids h (list_update (grid h) i g)
                         (list_update (anchor_grid h) i ag)).
Proof.
  intros h i g ag H W OK Hi Gg Gag.
  destruct (ok_slots h OK i Hi) as (g0 & ag0 & Eg0 & Eag0 & _).
  constructor; cbn; try apply OK.
  intros j Hj. unfold slot_ok. cbn.
  destruct (Nat.eq_dec i j) as [<-|NE].
  - exists g, ag.
    rewrite !nth_error_list_update_eq by (eapply nth_error_lt; eassumption).
    split; [reflexivity|]. split; [reflexivity|].
    right. exists H, W. split; assumption.
  - rewrite !nth_error_list_update_neq by exact NE.
    exact (ok_slots h OK j Hj).
Qed.

(* ---------------------------------------------------------------- *)
(** ** One scale of the decode loop *)

Lemma decode_step_inference : forall (h : Head) x outs i xi N K H W,
    head_ok h -> training h = false -> porting h = false ->
    i < nl h -> i < length (strides h) ->
    nth_error x i = Some xi -> shape xi = [N; na h * K; H; W] -> 4 <= K ->
    exists xi' o h' s,
      decode_step torch_1_10 i x outs h =
      (Ok (list_update x i xi', outs ++ [o]), h') /\
      head_ok h' /\ grids_only h h' /\
      slot_built h' i H W /\ (forall j, j <> i -> slot_same h h' j) /\
      nth_error (strides h) i = Some s /\
      shape o = [N; na h * H * W; K] /\ wf o /\
      forall n a r c k,
        n < N -> a < na h -> r < H -> c < W -> k < K ->
        tget o [n; (a * H + r) * W + c; k] = decoded_entry h i s xi K n a r c k.
Proof.
  intros h x outs i xi N K H W OK Tr Po Hi Hs Ex Sx HK.
  destruct (reshape_spec h xi N K H W (ok_na h OK) Sx) as (xi' & Er & Sx' & Wx' & Vx').
  destruct (lookup_grid_spec h i xi' N (na h) H W K OK Po Hi Hs Sx')
    as (g & ag & El & Gg & Gag).
  set (h' := set_grids h (list_update (grid h) i g)
                         (list_update (anchor_grid h) i ag)) in *.
  destruct (ok_slots h OK i Hi) as (g0 & ag0 & Eg0 & Eag0 & _).
  destruct Gag as [Sag (s & Es & Vag)].
  destruct Gg as [Sg Vg].
  destruct (decode_boxes_spec xi' g ag s N (na h) H W K Sx' Wx' HK Sg Sag)
    as (y & Ey & Sy & Wy & Vy).
  exists xi', (mkTensor [N; na h * H * W; K] (data y)), h', s.
  split.
  { unfold decode_step. mstep.
    rewrite (list_get_ok _ _ _ _ Ex), Er.
    rewrite (list_set_ok _ _ _ _ (nth_error_lt _ _ _ _ Ex)).
    rewrite Tr. cbn [negb]. rewrite Sx', El.
    unfold h'. cbn [grid anchor_grid strides set_grids].
    rewrite (list_get_ok _ _ i g),
            (list_get_ok _ _ i s Es),
            (list_get_ok _ _ i ag);
      try (apply nth_error_list_update_eq; eapply nth_error_lt; eassumption).
    rewrite Ey. rewrite view_ok by (rewrite Sy; simpl; ring).
    reflexivity. }
  split. { apply (head_ok_update h i g ag H W OK Hi); [split; assumption|].
           split; [assumption|]. exists s. split; assumption. }
  split. { apply grids_only_set. }
  split. { exists g, ag. unfold h'. cbn [grid anchor_grid set_grids na].
           rewrite !nth_error_list_update_eq
             by (eapply nth_error_lt; eassumption).
           split; [reflexivity|]. split; [reflexivity|].
           split; [split; assumption|].
           split; [assumption|]. exists s. split; assumption. }
  split. { intros j NE. unfold slot_same, h'. cbn [grid anchor_grid set_grids].
           now rewrite !nth_error_list_update_neq by congruence. }
  split. { exact Es. }
  split. { reflexivity. }
  split. { unfold wf. cbn [data shape]. rewrite Wy, Sy. simpl. ring. }
  intros n a r c k Hn Ha Hr Hc Hk.
  transitivity (tget y [n; a; r; c; k]).
  { apply tget_same_offset; [reflexivity|]. rewrite Sy. simpl. ring. }
  rewrite Vy by assumption. rewrite Vx' by assumption.
  unfold decoded_entry, box_value.
  destruct (le_lt_dec 2 k) as [K2|K2].
  - rewrite (proj2 (Nat.ltb_ge k 2) K2).
    destruct (le_lt_dec 4 k) as [K4|K4].
    + now rewrite (proj2 (Nat.ltb_ge k 4) K4).
    + rewrite (proj2 (Nat.ltb_lt k 4) K4). now rewrite Vag by lia.
  - rewrite (proj2 (Nat.ltb_lt k 2) K2).
    destruct (Vg a r c Ha Hr Hc) as [V0 V1].
    destruct k as [|[|k]]; [now rewrite V0 | now rewrite V1 | lia].
Qed.

(** In training mode a scale is only reshaped. *)
Lemma decode_step_training : forall (h : Head) x outs i xi N K H W,
    0 < na h -> training h = true ->
    nth_error x i = Some xi -> shape xi = [N; na h * K; H; W] ->
    exists xi',
      decode_step torch_1_10 i x outs h = (Ok (list_update x i xi', outs), h) /\
      shape xi' = [N; na h; H; W; K] /\ wf xi' /\
      forall n a r c k,
        n < N -> a < na h -> r < H -> c < W -> k < K ->
        tget xi' [n; a; r; c; k] = tget xi [n; a * K + k; r; c].
Proof.
  intros h x outs i xi N K H W HA Tr Ex Sx.
  destruct (reshape_spec h xi N K H W HA Sx) as (xi' & Er & Sx' & Wx' & Vx').
  exists xi'. split; [|split; [exact Sx'|split; [exact Wx'|exact Vx']]].
  unfold decode_step. mstep.
  rewrite (list_get_ok _ _ _ _ Ex), Er.
  rewrite (list_set_ok _ _ _ _ (nth_error_lt _ _ _ _ Ex)).
  rewrite Tr. reflexivity.
Qed.

(* ---------------------------------------------------------------- *)
(** ** The decode loop *)

Lemma grids_only_fields : forall h h' : @Head T,
    grids_only h h' ->
    nl h' = nl h /\ na h' = na h /\ anchors h' = anchors h /\
    strides h' = strides h /\ training h' = training h /\
    porting h' = porting h /\ nms h' = nms h /\
    anchors_for_porting h' = anchors_for_porting h.
Proof. intros h h' E. rewrite E. cbn. repeat split. Qed.

Lemma decodes_config : forall (h h' : Head) N K i xi hw o,
    grids_only h h' -> decodes h' N K i xi hw o -> decodes h N K i xi hw o.
Proof.
  intros h h' N K i xi hw o G D.
  destruct (grids_only_fields h h' G) as (_ & Ena & Ean & Est & _).
  unfold decodes, decoded_entry in *. now rewrite Ena, Ean, Est in D.
Qed.

Lemma slot_built_config : forall (h h' : Head) i H W,
    grids_only h h' -> slot_same h h' i ->
    slot_built h i H W -> slot_built h' i H W.
Proof.
  intros h h' i H W G [A1 A2] (g & ag & Eg & Eag & Gg & Gag).
  destruct (grids_only_fields h h' G) as (_ & Ena & Ean & Est & _).
  exists g, ag. unfold is_anchor_grid.
  rewrite A1, A2, Ena, Ean, Est.
  split; [exact Eg|]. split; [exact Eag|]. split; [exact Gg|exact Gag].
Qed.

Lemma decode_loop_inference : forall ixs (h : Head) x outs N K dims,
    head_ok h -> training h = false -> porting h = false -> 4 <= K ->
    NoDup ixs ->
    (forall i, In i ixs ->
       i < nl h /\ i < length (strides h) /\
       exists xi hw, nth_error x i = Some xi /\ nth_error dims i = Some hw /\
                     shape xi = [N; na h * K; fst hw; snd hw]) ->
    exists x' os h',
      decode_loop torch_1_10 ixs x outs h = (Ok (x', outs ++ os), h') /\
      head_ok h' /\ grids_only h h' /\
      (forall j, ~ In j ixs -> nth_error x' j = nth_error x j) /\
      (forall j, ~ In j ixs -> slot_same h h' j) /\
      (forall i, In i ixs ->
         exists hw, nth_error dims i = Some hw /\
                    slot_built h' i (fst hw) (snd hw)) /\
      Forall2 (fun i o =>
                 exists xi hw, nth_error x i = Some xi /\
                               nth_error dims i = Some hw /\
                               decodes h N K i xi hw o) ixs os.
Proof.
  induction ixs as [|i ixs IH]; intros h x outs N K dims OK Tr Po HK ND Hx.
  - exists x, [], h. rewrite app_nil_r.
    split; [reflexivity|]. split; [exact OK|].
    split; [apply grids_only_refl|].
    split; [reflexivity|].
    split; [intros j _; split; reflexivity|].
    split; [intros i []| constructor].
  - inversion ND as [|? ? Hni ND']; subst.
    destruct (Hx i (or_introl eq_refl)) as (Hi & Hs & xi & hw & Ex & Ed & Sx).
    destruct (decode_step_inference h x outs i xi N K (fst hw) (snd hw)
                                    OK Tr Po Hi Hs Ex Sx HK)
      as (xi' & o & h1 & s & E1 & OK1 & G1 & B1 & S1 & Es & So & Wo & Vo).
    destruct (grids_only_fields h h1 G1) as (Enl & Ena & _ & Est1 & Etr & Epo & _).
    destruct (IH h1 (list_update x i xi') (outs ++ [o]) N K dims OK1)
      as (x' & os & h' & E2 & OK' & G2 & Sx2 & Sm2 & Bu2 & F2);
      try congruence; try assumption.
    { intros j Hj.
      destruct (Hx j (or_intror Hj)) as (Hjl & Hjs & xj & hwj & Exj & Edj & Sxj).
      split; [congruence|]. split; [congruence|]. exists xj, hwj.
      rewrite nth_error_list_update_neq by (intros ->; contradiction).
      rewrite Ena. repeat split; assumption. }
    exists x', (o :: os), h'. split.
    { cbn [decode_loop]. unfold bind at 1. rewrite E1.
      rewrite E2, <- app_assoc. reflexivity. }
    split; [exact OK'|]. split; [eapply grids_only_trans; eassumption|].
    split.
    { intros j Hj. rewrite Sx2 by (intros Hin; apply Hj; now right).
      apply nth_error_list_update_neq. intros ->. apply Hj. now left. }
    split.
    { intros j Hj. destruct (Sm2 j) as [A1 A2]; [intros Hin; apply Hj; now right|].
      destruct (S1 j) as [B1' B2']; [intros ->; apply Hj; now left|].
      split; congruence. }
    split.
    { intros j [<-|Hj]; [|now apply Bu2].
      exists hw. split; [exact Ed|].
      apply (slot_built_config h1 h' i _ _ G2 (Sm2 i Hni) B1). }
    constructor.
    + exists xi, hw. split; [exact Ex|]. split; [exact Ed|].
      exists s. repeat split; assumption.
    + eapply Forall2_impl_in; [|exact F2].
      intros j oj Hj (xj & hwj & Exj & Edj & Dj).
      exists xj, hwj.
      rewrite nth_error_list_update_neq in Exj by (intros ->; contradiction).
      split; [exact Exj|]. split; [exact Edj|].
      eapply decodes_config; eassumption.
Qed.

(* ---------------------------------------------------------------- *)
(** ** Positions in paired lists *)

Lemma Forall2_nth_both : forall A B (P : A -> B -> Prop) l m i a b,
    Forall2 P l m -> nth_error l i = Some a -> nth_error m i = Some b -> P a b.
Proof.
  intros A B P l m i a b F. revert i.
  induction F as [|a0 b0 l m Pab F IH]; intros [|i] Ea Eb; simpl in *;
    try discriminate.
  - injection Ea as <-. injection Eb as <-. exact Pab.
  - eapply IH; eassumption.
Qed.

Lemma Forall2_nth_left : forall A B (P : A -> B -> Prop) l m i a,
    Forall2 P l m -> nth_error l i = Some a ->
    exists b, nth_error m i = Some b /\ P a b.
Proof.
  intros A B P l m i a F. revert i.
  induction F as [|a0 b0 l m Pab F IH]; intros [|i] Ea; simpl in *;
    try discriminate.
  - injection Ea as <-. now exists b0.
  - now apply IH.
Qed.

Lemma Forall2_nth_right : forall A B (P : A -> B -> Prop) l m i b,
    Forall2 P l m -> nth_error m i = Some b ->
    exists a, nth_error l i = Some a /\ P a b.
Proof.
  intros A B P l m i b F. revert i.
  induction F as [|a0 b0 l m Pab F IH]; intros [|i] Eb; simpl in *;
    try discriminate.
  - injection Eb as <-. now exists a0.
  - now apply IH.
Qed.

Lemma Forall2_of_nth : forall A B (P : A -> B -> Prop) l m,
    length l = length m ->
    (forall i a b, nth_error l i = Some a -> nth_error m i = Some b -> P a b) ->
    Forall2 P l m.
Proof.
  intros A B P. induction l as [|a l IH]; intros [|b m] L Hp; simpl in L;
    try discriminate; constructor.
  - exact (Hp 0 a b eq_refl eq_refl).
  - apply IH; [lia|]. intros i a' b' Ea Eb. exact (Hp (S i) a' b' Ea Eb).
Qed.

Lemma nth_error_seq_from : forall n b i,
    i < n -> nth_error (seq b n) i = Some (b + i).
Proof.
  induction n as [|n IH]; intros b i L; [lia|].
  destruct i as [|i]; simpl.
  - now rewrite Nat.add_0_r.
  - rewrite IH by lia. f_equal. lia.
Qed.

Lemma nth_error_in_range : forall A (l : list A) i,
    i < length l -> exists a, nth_error l i = Some a.
Proof.
  intros A l i L. destruct (nth_error l i) as [a|] eqn:E; [now exists a|].
  apply nth_error_None in E. lia.
Qed.

(* ---------------------------------------------------------------- *)
(** ** Inference: the candidates and the call of the suppression *)

Lemma cell_index_lt : forall A H W a r c,
    a < A -> r < H -> c < W -> (a * H + r) * W + c < A * H * W.
Proof.
  intros A H W a r c Ha Hr Hc.
  assert (L1 : a * H + r + 1 <= A * H) by nia.
  assert (L2 : (a * H + r + 1) * W <= A * H * W) by (apply Nat.mul_le_mono_r; exact L1).
  lia.
Qed.

Lemma raw_ok_scales : forall (h : @Head T) N K dims (x : list (Tensor T)),
    length x = nl h -> nl h <= length (strides h) ->
    raw_ok (na h) N K dims x ->
    forall i, In i (seq 0 (nl h)) ->
      i < nl h /\ i < length (strides h) /\
      exists xi hw, nth_error x i = Some xi /\ nth_error dims i = Some hw /\
                    shape xi = [N; na h * K; fst hw; snd hw].
Proof.
  intros h N K dims x L Ls R i Hi. apply in_seq in Hi.
  split; [lia|]. split; [lia|].
  destruct (nth_error_in_range _ x i) as (xi & Ex); [lia|].
  destruct (Forall2_nth_right _ _ _ _ _ _ _ R Ex) as (hw & Ed & Sx).
  now exists xi, hw.
Qed.

Lemma inference_spec : forall (h : Head) x N K dims,
    head_ok h -> training h = false -> porting h = false -> 4 <= K ->
    length x = nl h -> nl h <= length (strides h) ->
    raw_ok (na h) N K dims x ->
    exists c h',
      candidates torch_1_10 x h = (Ok c, h') /\
      forward_heads nms_forward torch_1_10 x h =
      (let! d := nms_forward (nms h) c in Ok (Suppressed d), h') /\
      head_ok h' /\ grids_only h h' /\
      (forall i hw, nth_error dims i = Some hw ->
                    slot_built h' i (fst hw) (snd hw)) /\
      shape c = [N; list_sum (map (scale_count (na h)) dims); K] /\ wf c /\
      forall i xi hw s n a r col k,
        nth_error x i = Some xi -> nth_error dims i = Some hw ->
        nth_error (strides h) i = Some s ->
        n < N -> a < na h -> r < fst hw -> col < snd hw -> k < K ->
        tget c [n; scale_offset (na h) dims i + ((a * fst hw + r) * snd hw + col); k]
        = decoded_entry h i s xi K n a r col k.
Proof.
  intros h x N K dims OK Tr Po HK L Ls R.
  pose proof (Forall2_length R) as Ld.
  destruct (decode_loop_inference (seq 0 (nl h)) h x [] N K dims OK Tr Po HK
              (seq_NoDup _ _) (raw_ok_scales h N K dims x L Ls R))
    as (x' & os & h' & E & OK' & G & _ & _ & Bu & F).
  cbn [app] in E.
  pose proof (Forall2_length F) as Lo. rewrite length_seq in Lo.
  set (ms := map (scale_count (na h)) dims).
  assert (Fs : Forall2 (fun t m => shape t = [N; m; K]) os ms).
  { apply Forall2_of_nth; [unfold ms; rewrite length_map; lia|].
    intros p o m Eo Em.
    pose proof (nth_error_lt _ _ _ _ Eo) as Lp.
    pose proof (nth_error_seq_from (nl h) 0 p ltac:(lia)) as Ep.
    destruct (Forall2_nth_both _ _ _ _ _ _ _ _ F Ep Eo)
      as (xi & hw & _ & Ed & (s & _ & So & _)).
    cbn [Nat.add] in Ed. unfold ms in Em. rewrite nth_error_map, Ed in Em.
    injection Em as <-. exact So. }
  assert (NE : os <> []).
  { pose proof (ok_nl h OK). destruct os; [simpl in Lo; lia | discriminate]. }
  destruct (cat1_spec os ms N K NE Fs) as (c & Ec & Sc & Wc & Vc).
  destruct (grids_only_fields h h' G) as (_ & _ & _ & _ & Etr & _ & Enms & _).
  exists c, h'.
  split. { unfold candidates. mstep. rewrite E, Ec. reflexivity. }
  split. { unfold forward_heads. mstep. rewrite Po, E, Etr, Tr, Ec, Enms.
           destruct (nms_forward (nms h) c); reflexivity. }
  split; [exact OK'|]. split; [exact G|].
  split. { intros i hw Ed. destruct (Bu i) as (hw' & Ed' & B).
           - apply in_seq. pose proof (nth_error_lt _ _ _ _ Ed). lia.
           - congruence. }
  split; [exact Sc|]. split; [exact Wc|].
  intros i xi hw s n a r col k Ex Ed Es Hn Ha Hr Hc Hk.
  pose proof (nth_error_lt _ _ _ _ Ex) as Li.
  pose proof (nth_error_seq_from (nl h) 0 i ltac:(lia)) as Ei.
  destruct (Forall2_nth_left _ _ _ _ _ _ _ F Ei)
    as (o & Eo & (xi' & hw' & Ex' & Ed' & (s' & Es' & So & Wo & Vo))).
  cbn [Nat.add] in Ex', Ed', Es', Vo.
  assert (xi' = xi) by congruence. assert (hw' = hw) by congruence.
  assert (s' = s) by congruence. subst xi' hw' s'.
  rewrite <- Vo by assumption.
  unfold scale_offset. rewrite <- firstn_map. fold ms.
  apply (Vc i o (scale_count (na h) hw)); try assumption.
  - unfold ms. now rewrite nth_error_map, Ed.
  - unfold scale_count. now apply cell_index_lt.
Qed.

(** The candidates do not depend on what the cache held before the call:
    two heads of one configuration decode an input to the same tensor. *)
Lemma candidates_cache_independent :
  forall (h1 h2 : Head) x N K dims c1 h1',
    head_ok h1 -> training h1 = false -> porting h1 = false ->
    head_ok h2 -> training h2 = false -> porting h2 = false ->
    nl h2 = nl h1 -> na h2 = na h1 ->
    anchors h2 = anchors h1 -> strides h2 = strides h1 ->
    4 <= K -> length x = nl h1 -> nl h1 <= length (strides h1) ->
    raw_ok (na h1) N K dims x ->
    candidates torch_1_10 x h1 = (Ok c1, h1') ->
    exists h2', candidates torch_1_10 x h2 = (Ok c1, h2').
Proof.
  intros h1 h2 x N K dims c1 h1' OK1 Tr1 Po1 OK2 Tr2 Po2 Enl Ena Ean Est
         HK L Ls R E1.
  destruct (inference_spec h1 x N K dims OK1 Tr1 Po1 HK L Ls R)
    as (c & h' & E1' & _ & _ & _ & _ & S1 & W1 & V1).
  rewrite E1 in E1'. injection E1' as <- <-.
  destruct (inference_spec h2 x N K dims OK2 Tr2 Po2 HK) as
      (c2 & h2' & E2 & _ & _ & _ & _ & S2 & W2 & V2); try congruence.
  exists h2'. rewrite E2. do 2 f_equal. symmetry.
  rewrite Ena in S2.
  apply tensor_ext; try assumption; [congruence|].
  intros idx B. rewrite S1 in B.
  inversion B as [|n N' idx1 sh1 Hn B1]; subst.
  inversion B1 as [|J M' idx2 sh2 HJ B2]; subst.
  inversion B2 as [|k K' idx3 sh3 Hk B3]; subst.
  inversion B3; subst.
  destruct (row_decompose _ J HJ) as (i & m & j & Em & Lj & ->).
  rewrite nth_error_map in Em.
  destruct (nth_error dims i) as [hw|] eqn:Ed; [|discriminate].
  injection Em as <-. unfold scale_count in Lj.
  destruct (cell_decompose _ _ _ j Lj) as (a & r & col & Ha & Hr & Hc & ->).
  destruct (Forall2_nth_left _ _ _ _ _ _ _ R Ed) as (xi & Ex & _).
  pose proof (nth_error_lt _ _ _ _ Ex) as Li.
  destruct (nth_error_in_range _ (strides h1) i) as (s & Es); [lia|].
  rewrite firstn_map.
  change (list_sum (map (scale_count (na h1)) (firstn i dims)))
    with (scale_offset (na h1) dims i).
  rewrite (V1 i xi hw s n a r col k) by assumption.
  pose proof (V2 i xi hw s n a r col k) as V2'.
  rewrite Ena, Est in V2'. rewrite V2' by assumption.
  unfold decoded_entry. now rewrite Ean.
Qed.

(* ---------------------------------------------------------------- *)
(** ** Training mode *)

Lemma decode_loop_training : forall ixs (h : Head) x outs N K dims,
    0 < na h -> training h = true -> NoDup ixs ->
    (forall i, In i ixs ->
       exists xi hw, nth_error x i = Some xi /\ nth_error dims i = Some hw /\
                     shape xi = [N; na h * K; fst hw; snd hw]) ->
    exists x',
      decode_loop torch_1_10 ixs x outs h = (Ok (x', outs), h) /\
      length x' = length x /\
      (forall j, ~ In j ixs -> nth_error x' j = nth_error x j) /\
      (forall i, In i ixs ->
         exists xi hw xi',
           nth_error x i = Some xi /\ nth_error dims i = Some hw /\
           nth_error x' i = Some xi' /\ reshaped (na h) N K hw xi xi').
Proof.
  induction ixs as [|i ixs IH]; intros h x outs N K dims HA Tr ND Hx.
  - exists x. split; [reflexivity|]. split; [reflexivity|].
    split; [reflexivity | intros i []].
  - inversion ND as [|? ? Hni ND']; subst.
    destruct (Hx i (or_introl eq_refl)) as (xi & hw & Ex & Ed & Sx).
    destruct (decode_step_training h x outs i xi N K (fst hw) (snd hw)
                                   HA Tr Ex Sx) as (xi' & E1 & Sx' & Wx' & Vx').
    destruct (IH h (list_update x i xi') outs N K dims HA Tr ND')
      as (x' & E2 & L2 & Same & Resh).
    { intros j Hj. destruct (Hx j (or_intror Hj)) as (xj & hwj & Exj & Edj & Sxj).
      exists xj, hwj.
      rewrite nth_error_list_update_neq by (intros ->; contradiction).
      repeat split; assumption. }
    exists x'. split.
    { cbn [decode_loop]. unfold bind at 1. rewrite E1. exact E2. }
    split. { now rewrite L2, length_list_update. }
    split.
    { intros j Hj. rewrite Same by (intros Hin; apply Hj; now right).
      apply nth_error_list_update_neq. intros ->. apply Hj. now left. }
    intros j [<-|Hj].
    + exists xi, hw, xi'. split; [exact Ex|]. split; [exact Ed|]. split.
      * rewrite (Same i Hni). apply nth_error_list_update_eq.
        eapply nth_error_lt; eassumption.
      * repeat split; assumption.
    + destruct (Resh j Hj) as (xj & hwj & xj' & Exj & Edj & Exj' & Rj).
      exists xj, hwj, xj'.
      rewrite nth_error_list_update_neq in Exj by (intros ->; contradiction).
      repeat split; try assumption; apply Rj.
Qed.

Lemma training_spec : forall (h : Head) x N K dims,
    0 < na h -> training h = true -> porting h = false ->
    length x = nl h -> raw_ok (na h) N K dims x ->
    exists x',
      forward_heads nms_forward torch_1_10 x h = (Ok (TrainingOutputs x'), h) /\
      Forall2 (fun hw_xi xi' => reshaped (na h) N K (fst hw_xi) (snd hw_xi) xi')
              (combine dims x) x'.
Proof.
  intros h x N K dims HA Tr Po L R.
  pose proof (Forall2_length R) as Ld.
  destruct (decode_loop_training (seq 0 (nl h)) h x [] N K dims HA Tr
                                 (seq_NoDup _ _)) as (x' & E & L' & _ & Resh).
  { intros i Hi. apply in_seq in Hi.
    destruct (nth_error_in_range _ x i) as (xi & Ex); [lia|].
    destruct (Forall2_nth_right _ _ _ _ _ _ _ R Ex) as (hw & Ed & Sx).
    now exists xi, hw. }
  exists x'. split.
  { unfold forward_heads. mstep. rewrite Po, E, Tr. reflexivity. }
  apply Forall2_of_nth.
  { rewrite length_combine, L'. lia. }
  intros i [hw xi] xi' Ec Ex'. cbn [fst snd].
  pose proof (nth_error_lt _ _ _ _ Ex') as Li.
  destruct (Resh i) as (xi0 & hw0 & xi0' & Ex0 & Ed0 & Ex0' & R0).
  { apply in_seq. lia. }
  assert (nth_error (combine dims x) i = Some (hw0, xi0)) as Ec0.
  { clear - Ex0 Ed0. revert i Ex0 Ed0.
    generalize dependent x. induction dims as [|d dims IH]; intros x i Ex Ed.
    - destruct i; discriminate.
    - destruct x as [|x0 x]; [destruct i; discriminate|].
      destruct i as [|i]; simpl in *.
      + congruence.
      + now apply IH. }
  congruence.
Qed.

(* ---------------------------------------------------------------- *)
(** ** Porting mode *)

Lemma view_infer_flat : forall (t : Tensor T) N C H W,
    shape t = [N; C; H; W] -> 0 < N -> 0 < C ->
    view_infer [N; C] [] t = Ok (mkTensor [N; C; H * W] (data t)).
Proof.
  intros t N C H W E HN HC. unfold view_infer. rewrite E.
  assert (Kn : numel [N; C] * numel [] = N * C) by (simpl; lia).
  assert (Tt : numel [N; C; H; W] = H * W * (N * C)) by (simpl; ring).
  rewrite Kn, Tt.
  assert (NC : N * C <> 0) by nia.
  destruct (Nat.eqb_spec (N * C) 0) as [Z|_]; [contradiction|].
  rewrite Nat.Div0.mod_mul, Nat.div_mul by exact NC. reflexivity.
Qed.

Lemma porting_step_spec : forall (h : Head) x outs i xi N C H W,
    porting h = true -> shape (anchors h) = [nl h; na h; 2] ->
    i < nl h -> i < length (strides h) ->
    nth_error x i = Some xi -> shape xi = [N; C; H; W] -> 0 < N -> 0 < C ->
    exists seg,
      porting_step torch_1_10 i x outs h =
      (Ok (list_update x i (tmap s_sigmoid xi),
           outs ++ [mkTensor [N; C; H * W] (map s_sigmoid (data xi))]),
       set_anchors_for_porting h (anchors_for_porting h ++ seg)) /\
      is_scaled_row h i seg.
Proof.
  intros h x outs i xi N C H W Po EA Hi Hs Ex Sx HN HC.
  destruct (make_grid_spec h W H i EA Hi Hs) as (g & ag & seg & Emk & _ & _ & Seg).
  rewrite Po in Emk.
  exists seg. split; [|exact Seg].
  unfold porting_step. mstep.
  rewrite (list_get_ok _ _ _ _ Ex).
  rewrite (list_set_ok _ _ _ _ (nth_error_lt _ _ _ _ Ex)).
  cbn [shape tmap]. rewrite Sx, Emk.
  rewrite (view_infer_flat (tmap s_sigmoid xi) N C H W Sx HN HC).
  reflexivity.
Qed.

Lemma porting_loop_spec : forall ixs (h : Head) x outs,
    porting h = true -> shape (anchors h) = [nl h; na h; 2] -> NoDup ixs ->
    (forall i, In i ixs ->
       i < nl h /\ i < length (strides h) /\
       exists xi N C H W, nth_error x i = Some xi /\
                          shape xi = [N; C; H; W] /\ 0 < N /\ 0 < C) ->
    exists x' os segs,
      porting_loop torch_1_10 ixs x outs h =
      (Ok (x', outs ++ os),
       set_anchors_for_porting h (anchors_for_porting h ++ concat segs)) /\
      Forall2 (fun i o =>
                 exists xi N C H W,
                   nth_error x i = Some xi /\ shape xi = [N; C; H; W] /\
                   o = mkTensor [N; C; H * W] (map s_sigmoid (data xi)))
              ixs os /\
      Forall2 (fun i seg => is_scaled_row h i seg) ixs segs.
Proof.
  induction ixs as [|i ixs IH]; intros h x outs Po EA ND Hx.
  - exists x, [], []. cbn [concat]. rewrite !app_nil_r.
    split; [now destruct h|]. split; constructor.
  - inversion ND as [|? ? Hni ND']; subst.
    destruct (Hx i (or_introl eq_refl))
      as (Hi & Hs & xi & N & C & H & W & Ex & Sx & HN & HC).
    destruct (porting_step_spec h x outs i xi N C H W Po EA Hi Hs Ex Sx HN HC)
      as (seg & E1 & Seg).
    set (h1 := set_anchors_for_porting h (anchors_for_porting h ++ seg)) in *.
    destruct (IH h1 (list_update x i (tmap s_sigmoid xi))
                 (outs ++ [mkTensor [N; C; H * W] (map s_sigmoid (data xi))]))
      as (x' & os & segs & E2 & F2 & S2); try assumption.
    { intros j Hj.
      destruct (Hx j (or_intror Hj))
        as (Hjl & Hjs & xj & Nj & Cj & Hj' & Wj & Exj & Sxj & HNj & HCj).
      split; [exact Hjl|]. split; [exact Hjs|].
      exists xj, Nj, Cj, Hj', Wj.
      rewrite nth_error_list_update_neq by (intros ->; contradiction).
      repeat split; assumption. }
    exists x', (mkTensor [N; C; H * W] (map s_sigmoid (data xi)) :: os),
           (seg :: segs).
    split.
    { cbn [porting_loop]. unfold bind at 1. rewrite E1, E2.
      unfold h1. cbn [anchors_for_porting set_anchors_for_porting concat].
      rewrite <- !app_assoc. reflexivity. }
    split.
    + constructor.
      * exists xi, N, C, H, W. repeat split; assumption.
      * eapply Forall2_impl_in; [|exact F2].
        intros j oj Hj (xj & Nj & Cj & Hj' & Wj & Exj & Rest).
        exists xj, Nj, Cj, Hj', Wj.
        rewrite nth_error_list_update_neq in Exj by (intros ->; contradiction).
        split; [exact Exj | exact Rest].
    + constructor; [exact Seg | exact S2].
Qed.

(* ---------------------------------------------------------------- *)
(** ** Calls that raise *)

Lemma decode_loop_fail_at : forall l1 i l2 x outs (h : Head) x1 o1 h1 e h2,
    decode_loop torch_1_10 l1 x outs h = (Ok (x1, o1), h1) ->
    decode_step torch_1_10 i x1 o1 h1 = (Raise e, h2) ->
    decode_loop torch_1_10 (l1 ++ i :: l2) x outs h = (Raise e, h2).
Proof.
  induction l1 as [|j l1 IH]; intros i l2 x outs h x1 o1 h1 e h2 E1 E2.
  - cbn in E1. unfold ret in E1. injection E1 as <- <- <-.
    cbn [app decode_loop]. unfold bind. now rewrite E2.
  - cbn [app decode_loop] in *. unfold bind in *.
    destruct (decode_step torch_1_10 j x outs h) as [[[xj oj]|ej] hj];
      [|discriminate].
    eapply IH; eassumption.
Qed.

Lemma seq_split_at : forall n i,
    i < n -> seq 0 n = seq 0 i ++ i :: seq (S i) (n - S i).
Proof.
  intros n i L. replace n with (i + S (n - S i)) at 1 by lia.
  now rewrite seq_app.
Qed.

(** A channel count that the anchor count does not divide cannot be
    viewed by anchor. *)
Lemma reshape_fail : forall (h : Head) (x : Tensor T) N C H W,
    0 < na h -> shape x = [N; C; H; W] -> C mod na h <> 0 ->
    0 < N -> 0 < H -> 0 < W ->
    _reshape x h = (Raise RuntimeError, h).
Proof.
  intros h x N C H W HA E M HN HH HW. unfold _reshape. mstep. rewrite E.
  destruct (Nat.eqb_spec (na h) 0) as [Z|_]; [lia|].
  rewrite view_fail; [reflexivity|]. rewrite E. simpl.
  pose proof (Nat.div_mod_eq C (na h)) as D.
  set (q := C / na h) in *. set (m := C mod na h) in *.
  assert (P : 0 < H * (W * 1)) by nia.
  assert (Q : na h * (q * (H * (W * 1))) < C * (H * (W * 1))) by nia.
  nia.
Qed.

Lemma decode_step_reshape_fail : forall (h : Head) x outs i xi N C H W,
    0 < na h -> nth_error x i = Some xi -> shape xi = [N; C; H; W] ->
    C mod na h <> 0 -> 0 < N -> 0 < H -> 0 < W ->
    decode_step torch_1_10 i x outs h = (Raise RuntimeError, h).
Proof.
  intros h x outs i xi N C H W HA Ex Sx M HN HH HW.
  unfold decode_step. mstep.
  rewrite (list_get_ok _ _ _ _ Ex).
  now rewrite (reshape_fail h xi N C H W HA Sx M HN HH HW).
Qed.

(** Without a stride for scale [i] the grids of the scale cannot be built. *)
Lemma make_grid_no_stride : forall (h : Head) nx ny i,
    shape (anchors h) = [nl h; na h; 2] -> i < nl h ->
    length (strides h) <= i ->
    _make_grid torch_1_10 nx ny i h = (Raise IndexError, h).
Proof.
  intros h nx ny i EA Hi Hs.
  destruct (coordinate_stack ny nx) as (st & Est & Shst & Vst).
  destruct (expand_coordinates st (na h) ny nx Shst Vst) as (g & Eg & Gg).
  unfold _make_grid. mstep.
  unfold select0 at 1. rewrite EA, (proj2 (Nat.ltb_lt i (nl h)) Hi).
  unfold meshgrid_ij in Est. cbn [fst snd] in Est.
  assert (M : (if torch_1_10 then meshgrid_ij (arange ny) (arange nx)
               else meshgrid_ij (arange (T:=T) ny) (arange nx))
              = meshgrid_ij (arange ny) (arange nx)) by now destruct torch_1_10.
  rewrite M. unfold meshgrid_ij. rewrite Est, Eg.
  unfold scaled_anchors, select0, list_get.
  rewrite EA, (proj2 (Nat.ltb_lt i (nl h)) Hi).
  rewrite (proj2 (nth_error_None (strides h) i) Hs). reflexivity.
Qed.

Lemma decode_step_no_stride : forall (h : Head) x outs i xi N K H W,
    head_ok h -> training h = false -> i < nl h ->
    length (strides h) <= i ->
    nth_error x i = Some xi -> shape xi = [N; na h * K; H; W] ->
    decode_step torch_1_10 i x outs h = (Raise IndexError, h).
Proof.
  intros h x outs i xi N K H W OK Tr Hi Hs Ex Sx.
  destruct (reshape_spec h xi N K H W (ok_na h OK) Sx) as (xi' & Er & Sx' & _).
  destruct (ok_slots h OK i Hi) as (g0 & ag0 & Eg0 & Eag0 & Slot).
  unfold decode_step. mstep.
  rewrite (list_get_ok _ _ _ _ Ex), Er.
  rewrite (list_set_ok _ _ _ _ (nth_error_lt _ _ _ _ Ex)).
  rewrite Tr. cbn [negb]. rewrite Sx'.
  unfold lookup_grid. mstep. rewrite (list_get_ok _ _ _ _ Eg0).
  destruct Slot as [[-> _]|(ny & nx & _ & (_ & s & Es & _))].
  - destruct (list_eq_dec Nat.eq_dec (shape_2_4 zeros1) (shape_2_4 xi'))
      as [Hit|_].
    + unfold shape_2_4 in Hit. rewrite Sx' in Hit. discriminate Hit.
    + now rewrite (make_grid_no_stride h W H i (ok_anchors h OK) Hi Hs).
  - apply nth_error_lt in Es. lia.
Qed.

Lemma forward_heads_raise : forall (h : Head) x e h',
    porting h = false ->
    decode_loop torch_1_10 (seq 0 (nl h)) x [] h = (Raise e, h') ->
    forward_heads nms_forward torch_1_10 x h = (Raise e, h').
Proof.
  intros h x e h' Po E. unfold forward_heads. mstep. now rewrite Po, E.
Qed.

(** The scales before [i] decode, scale [i] raises [e] without touching
    the head: the call raises [e], and the cache keeps what the first [i]
    scales left in it. *)
Lemma forward_heads_fail_at : forall (h : Head) x N K dims i e,
    head_ok h -> training h = false -> porting h = false -> 4 <= K ->
    i < nl h ->
    (forall j, j < i ->
       j < length (strides h) /\
       exists xj hw, nth_error x j = Some xj /\ nth_error dims j = Some hw /\
                     shape xj = [N; na h * K; fst hw; snd hw]) ->
    (forall (h1 : Head) x1 o1,
       head_ok h1 -> grids_only h h1 ->
       nth_error x1 i = nth_error x i ->
       decode_step torch_1_10 i x1 o1 h1 = (Raise e, h1)) ->
    exists h',
      forward_heads nms_forward torch_1_10 x h = (Raise e, h') /\
      head_ok h' /\ grids_only h h' /\
      (forall j, i <= j -> slot_same h h' j) /\
      (forall j hw, j < i -> nth_error dims j = Some hw ->
                    slot_built h' j (fst hw) (snd hw)).
Proof.
  intros h x N K dims i e OK Tr Po HK Hi Pre Fail.
  destruct (decode_loop_inference (seq 0 i) h x [] N K dims OK Tr Po HK
                                  (seq_NoDup _ _))
    as (x1 & os & h1 & E1 & OK1 & G1 & SameX & Same & Built & _).
  { intros j Hj. apply in_seq in Hj.
    destruct (Pre j) as (Ls & Rest); [lia|]. repeat split; [lia|exact Ls|exact Rest]. }
  assert (X1 : nth_error x1 i = nth_error x i).
  { apply SameX. intros Hin. apply in_seq in Hin. lia. }
  exists h1. split.
  { apply forward_heads_raise; [exact Po|].
    rewrite (seq_split_at (nl h) i Hi).
    eapply decode_loop_fail_at; [exact E1|].
    now apply Fail. }
  split; [exact OK1|]. split; [exact G1|]. split.
  - intros j Hj. apply Same. intros Hin. apply in_seq in Hin. lia.
  - intros j hw Hj Ed. destruct (Built j) as (hw' & Ed' & B).
    + apply in_seq. lia.
    + congruence.
Qed.

(* ---------------------------------------------------------------- *)
(** ** The head convolutions *)

(** [forward] is [forward_heads] on what the three head convolutions
    return, and raises what the first failing one raises. *)
Lemma forward_unfold :
  forall (MergedHead_forward : nat -> Tensor T -> outcome (Tensor T))
         p3 p4 p5 (h : Head),
    forward MergedHead_forward nms_forward torch_1_10 p3 p4 p5 h =
    match MergedHead_forward 0 p3, MergedHead_forward 1 p4,
          MergedHead_forward 2 p5 with
    | Ok x_p3, Ok x_p4, Ok x_p5 =>
        forward_heads nms_forward torch_1_10 [x_p3; x_p4; x_p5] h
    | Raise e, _, _ => (Raise e, h)
    | Ok _, Raise e, _ => (Raise e, h)
    | Ok _, Ok _, Raise e => (Raise e, h)
    end.
Proof.
  intros MF p3 p4 p5 h. unfold forward, bind, lift.
  destruct (MF 0 p3); [|reflexivity].
  destruct (MF 1 p4); [|reflexivity].
  destruct (MF 2 p5); reflexivity.
Qed.
End HeadFacts.

(* ================================================================== *)
(** * Construction *)

Section InitFacts.
Context {T : Type} {SC : Scalar T}.

Lemma obind_inv : forall A B (m : outcome A) (k : A -> outcome B) b,
    obind m k = Ok b -> exists a, m = Ok a /\ k a = Ok b.
Proof. intros A B [a|e] k b E; [now exists a | discriminate]. Qed.

(** The layer constructors succeed exactly on the arguments they take. *)
Lemma Conv2d_init_ok : forall c_in c_out k s p g bias,
    layer_args_ok c_in c_out k g = true ->
    Conv2d_init c_in c_out k s p g bias = Ok (mkConv2d c_in c_out k s p g bias).
Proof.
  intros c_in c_out k s p g bias A. unfold layer_args_ok in A.
  repeat (apply andb_prop in A; destruct A as [A ?]).
  unfold Conv2d_init.
  destruct (Z.leb_spec g 0) as [L|_]; [lia|].
  destruct (Z.eqb_spec (c_in mod g) 0) as [_|N]; [|discriminate].
  destruct (Z.eqb_spec (c_out mod g) 0) as [_|N]; [|discriminate].
  cbn [negb].
  destruct (Z.ltb_spec c_out 0) as [L|_]; [lia|].
  destruct (Z.ltb_spec (c_in / g) 0) as [L|_].
  { assert (0 <= c_in / g)%Z by (apply Z.div_pos; lia). lia. }
  destruct (Z.ltb_spec k 0) as [L|_]; [lia | reflexivity].
Qed.

Lemma Conv2d_init_inv : forall c_in c_out k s p g bias c,
    Conv2d_init c_in c_out k s p g bias = Ok c ->
    c = mkConv2d c_in c_out k s p g bias /\ layer_args_ok c_in c_out k g = true.
Proof.
  intros c_in c_out k s p g bias c E. unfold Conv2d_init in E.
  unfold layer_args_ok.
  destruct (Z.leb_spec g 0) as [_|G]; [discriminate|].
  destruct (Z.eqb_spec (c_in mod g) 0) as [M1|_]; [|discriminate].
  destruct (Z.eqb_spec (c_out mod g) 0) as [M2|_]; [|discriminate].
  cbn [negb] in E.
  destruct (Z.ltb_spec c_out 0) as [_|C1]; [discriminate|].
  destruct (Z.ltb_spec (c_in / g) 0) as [_|C2]; [discriminate|].
  destruct (Z.ltb_spec k 0) as [_|C3]; [discriminate|].
  cbn [orb] in E. injection E as <-. split; [reflexivity|].
  assert (C4 : (0 <= c_in)%Z).
  { rewrite (Z.div_mod c_in g) by lia. rewrite M1. nia. }
  rewrite (proj2 (Z.ltb_lt 0 g)) by lia. cbn [andb].
  rewrite !(proj2 (Z.leb_le 0 _)) by assumption. reflexivity.
Qed.

Lemma Conv2d_init_fail : forall c_in c_out k s p g bias,
    layer_args_ok c_in c_out k g = false ->
    Conv2d_init c_in c_out k s p g bias = Raise ValueError \/
    Conv2d_init c_in c_out k s p g bias = Raise RuntimeError.
Proof.
  intros c_in c_out k s p g bias A.
  destruct (Conv2d_init c_in c_out k s p g bias) as [c|e] eqn:E.
  - apply Conv2d_init_inv in E. destruct E as [_ E]. congruence.
  - unfold Conv2d_init in E.
    destruct (g <=? 0)%Z; [left; congruence|].
    destruct (negb (c_in mod g =? 0)%Z); [left; congruence|].
    destruct (negb (c_out mod g =? 0)%Z); [left; congruence|].
    destruct ((c_out <? 0) || (c_in / g <? 0) || (k <? 0))%Z;
      [right; congruence | discriminate].
Qed.

Lemma BatchNorm2d_init_ok : forall c_in c_out k g,
    layer_args_ok c_in c_out k g = true -> BatchNorm2d_init c_out = Ok c_out.
Proof.
  intros c_in c_out k g A. unfold layer_args_ok in A.
  repeat (apply andb_prop in A; destruct A as [A ?]).
  unfold BatchNorm2d_init.
  destruct (Z.ltb_spec c_out 0) as [L|_]; [lia | reflexivity].
Qed.

(** What a successful construction of a [ConvModule] has checked and
    built. *)
Lemma ConvModule_init_layers : forall c_in c_out k s p act g m,
    ConvModule_init c_in c_out k s p act g = Ok m ->
    layer_args_ok c_in c_out k g = true /\
    conv m = mkConv2d c_in c_out k s p g false /\ bn m = c_out /\
    fused m = false.
Proof.
  intros c_in c_out k s p act g m E. unfold ConvModule_init in E.
  apply obind_inv in E as (c & Ec & E).
  apply obind_inv in E as (b & Eb & E).
  destruct (Conv2d_init_inv _ _ _ _ _ _ _ _ Ec) as [-> A].
  rewrite (BatchNorm2d_init_ok _ _ _ _ A) in Eb. injection Eb as <-.
  split; [exact A|].
  destruct (String.eqb act "relu6"); [injection E as <-; now repeat split|].
  destruct (String.eqb act "relu"); [injection E as <-; now repeat split|].
  destruct (String.eqb act "leakyrelu"); [injection E as <-; now repeat split|].
  destruct (String.eqb act "hardswish"); [injection E as <-; now repeat split|].
  discriminate E.
Qed.

Lemma ConvModule_init_recognized : forall c_in c_out k s p act g m,
    ConvModule_init c_in c_out k s p act g = Ok m ->
    In act recognized_activations.
Proof.
  intros c_in c_out k s p act g m E. unfold ConvModule_init in E.
  apply obind_inv in E as (c & _ & E).
  apply obind_inv in E as (b & _ & E).
  unfold recognized_activations.
  destruct (String.eqb_spec act "relu6"); [subst; simpl; tauto|].
  destruct (String.eqb_spec act "relu"); [subst; simpl; tauto|].
  destruct (String.eqb_spec act "leakyrelu"); [subst; simpl; tauto|].
  destruct (String.eqb_spec act "hardswish"); [subst; simpl; tauto|].
  discriminate.
Qed.

Lemma ConvModule_init_ok : forall c_in c_out k s p act g,
    layer_args_ok c_in c_out k g = true ->
    In act recognized_activations ->
    exists m, ConvModule_init c_in c_out k s p act g = Ok m.
Proof.
  intros c_in c_out k s p act g A Hin. unfold ConvModule_init.
  rewrite (Conv2d_init_ok _ _ _ s p _ false A). cbn [obind].
  rewrite (BatchNorm2d_init_ok _ _ _ _ A). cbn [obind].
  unfold recognized_activations in Hin. simpl in Hin.
  destruct Hin as [<-|[<-|[<-|[<-|[]]]]]; eexists; reflexivity.
Qed.

Lemma layer_args_ok_width : forall w k,
    (0 <= w)%Z -> (0 <= k)%Z -> layer_args_ok w w k 1 = true.
Proof.
  intros w k Hw Hk. unfold layer_args_ok.
  rewrite Z.mod_1_r. cbn [Z.ltb Z.compare Z.eqb andb].
  now rewrite !(proj2 (Z.leb_le 0 _)) by assumption.
Qed.

Lemma MergedHead_init_ok : forall w out_ch act,
    (0 <= w)%Z -> (0 <= out_ch)%Z ->
    In act recognized_activations ->
    exists m, MergedHead_init w out_ch act = Ok m.
Proof.
  intros w out_ch act Hw Ho Hin. unfold MergedHead_init.
  destruct (ConvModule_init_ok w w 3 1 1 act 1
              (layer_args_ok_width w 3 Hw ltac:(lia)) Hin)%Z as (m & ->).
  cbn [obind]. rewrite Conv2d_init_ok.
  - cbn [obind]. eexists. reflexivity.
  - unfold layer_args_ok. rewrite !Z.mod_1_r.
    cbn [Z.ltb Z.compare Z.eqb andb].
    now rewrite !(proj2 (Z.leb_le 0 _)) by (assumption || lia).
Qed.

Lemma MergedHead_init_recognized : forall w out_ch act m,
    MergedHead_init w out_ch act = Ok m -> In act recognized_activations.
Proof.
  intros w out_ch act m E. unfold MergedHead_init in E.
  destruct (ConvModule_init w w 3 1 1 act 1) as [b|] eqn:Eb; [|discriminate].
  eapply ConvModule_init_recognized. exact Eb.
Qed.

Lemma view_infer_shape : forall pre post (a an : Tensor T),
    view_infer pre post a = Ok an ->
    shape an = pre ++ numel (shape a) / (numel pre * numel post) :: post.
Proof.
  intros pre post a an E. unfold view_infer in E.
  destruct (numel pre * numel post =? 0); [discriminate|].
  destruct (numel (shape a) mod (numel pre * numel post) =? 0);
    [|discriminate].
  now injection E as <-.
Qed.

Lemma tensor_of_rows_shape : forall (r0 : list T) rows a,
    tensor_of_rows (r0 :: rows) = Ok a ->
    shape a = [length (r0 :: rows); length r0].
Proof.
  intros r0 rows a E. unfold tensor_of_rows in E.
  destruct (forallb _ (r0 :: rows)); [|discriminate].
  now injection E as <-.
Qed.

Lemma anchors_extent : forall n L,
    0 < n -> numel [n; L] / (numel [n] * numel [2]) = L / 2.
Proof.
  intros n L Hn. unfold numel. cbn [fold_right].
  rewrite !Nat.mul_1_r. apply Nat.Div0.div_mul_cancel_l. lia.
Qed.

(** What a successful construction leaves in the head. *)
Lemma init_inv : forall D w r act strides_arg anchors_arg at_arg conf iou (h : Head),
    AnchornizedFaceQuality_init D w r act strides_arg anchors_arg at_arg conf iou
    = Ok h ->
    0 < nl h /\
    nl h = length (match anchors_arg with None => default_anchors | Some a => a end) /\
    shape (anchors h) = [nl h; na h; 2] /\
    strides h = strides_arg /\ training h = true /\ porting h = false /\
    anchors_for_porting h = [] /\
    grid h = repeat zeros1 (nl h) /\ anchor_grid h = repeat zeros1 (nl h) /\
    nms h = mkNMS 1 conf iou /\
    in_unit_interval conf && in_unit_interval iou = true /\
    In act recognized_activations.
Proof.
  intros D w r act strides_arg anchors_arg at_arg conf iou h E.
  unfold AnchornizedFaceQuality_init in E.
  set (rows := match anchors_arg with None => default_anchors | Some a => a end) in *.
  apply obind_inv in E as (row0 & E0 & E).
  apply obind_inv in E as (a & Ea & E).
  apply obind_inv in E as (an & Ean & E).
  apply obind_inv in E as (n & En & E).
  apply obind_inv in E as (p3 & E3 & E).
  apply obind_inv in E as (p4 & E4 & E).
  apply obind_inv in E as (p5 & E5 & E).
  injection E as <-.
  cbn [nl na grid anchor_grid anchors strides training porting
       anchors_for_porting nms].
  destruct rows as [|r0 rows']; [discriminate|]. injection E0 as <-.
  apply view_infer_shape in Ean.
  rewrite (tensor_of_rows_shape _ _ _ Ea) in Ean.
  rewrite anchors_extent in Ean by (cbn [length]; lia).
  unfold AnchornizedNMS_init in En.
  destruct (in_unit_interval conf && in_unit_interval iou); [|discriminate].
  injection En as <-.
  repeat split; try reflexivity.
  - cbn [length]. lia.
  - exact Ean.
  - eapply MergedHead_init_recognized. exact E3.
Qed.

Lemma repeat_nth_error : forall A (a : A) n i,
    i < n -> nth_error (repeat a n) i = Some a.
Proof.
  induction n as [|n IH]; intros i L; [lia|].
  destruct i as [|i]; simpl; [reflexivity | apply IH; lia].
Qed.

(** A constructed head with at least one anchor per scale is in order,
    before and after it is switched to evaluation. *)
Lemma init_head_ok : forall D w r act strides_arg anchors_arg at_arg conf iou
                            (h : Head) mode,
    AnchornizedFaceQuality_init D w r act strides_arg anchors_arg at_arg conf iou
    = Ok h ->
    0 < na h -> head_ok (train h mode).
Proof.
  intros D w r act strides_arg anchors_arg at_arg conf iou h mode E HA.
  destruct (init_inv _ _ _ _ _ _ _ _ _ _ E)
    as (Hnl & _ & EA & _ & _ & _ & _ & Eg & Eag & _).
  constructor; cbn; try assumption.
  intros i Hi. exists zeros1, zeros1. cbn. rewrite Eg, Eag.
  rewrite !repeat_nth_error by exact Hi. auto.
Qed.

(** The strides are stored as given: whether the construction succeeds
    does not depend on them. *)
Lemma init_any_strides : forall D w r act s1 s2 anchors_arg at_arg conf iou (h1 : Head),
    AnchornizedFaceQuality_init D w r act s1 anchors_arg at_arg conf iou = Ok h1 ->
    exists h2,
      AnchornizedFaceQuality_init D w r act s2 anchors_arg at_arg conf iou = Ok h2 /\
      strides h2 = s2 /\ nl h2 = nl h1 /\ na h2 = na h1.
Proof.
  intros D w r act s1 s2 anchors_arg at_arg conf iou h1 E.
  unfold AnchornizedFaceQuality_init in *.
  destruct (match anchors_arg with None => default_anchors | Some a => a end)
    as [|r0 rows']; [discriminate|]. cbn [obind] in *.
  destruct (tensor_of_rows (r0 :: rows')) as [a|]; [|discriminate].
  cbn [obind] in *.
  destruct (view_infer _ _ a) as [an|]; [|discriminate]. cbn [obind] in *.
  destruct (AnchornizedNMS_init 1 conf iou) as [n|]; [|discriminate].
  cbn [obind] in *.
  destruct (MergedHead_init (int_of_Q (256 * w)) _ act) as [p3|]; [|discriminate].
  cbn [obind] in *.
  destruct (MergedHead_init (int_of_Q (512 * w)) _ act) as [p4|]; [|discriminate].
  cbn [obind] in *.
  destruct (MergedHead_init (int_of_Q (512 * w * r)) _ act) as [p5|]; [|discriminate].
  cbn [obind] in *. injection E as <-. eexists. split; [reflexivity|].
  cbn. auto.
Qed.

(** A threshold outside the unit interval stops the construction. *)
Lemma init_bad_threshold : forall D w r act strides_arg anchors_arg at_arg conf iou,
    in_unit_interval conf && in_unit_interval iou = false ->
    exists e,
      AnchornizedFaceQuality_init (T:=T) D w r act strides_arg anchors_arg
                                  at_arg conf iou = Raise e.
Proof.
  intros D w r act strides_arg anchors_arg at_arg conf iou Th.
  destruct (AnchornizedFaceQuality_init D w r act strides_arg anchors_arg
                                        at_arg conf iou) as [h|e] eqn:E.
  - destruct (init_inv _ _ _ _ _ _ _ _ _ _ E) as (_&_&_&_&_&_&_&_&_&_& Th' & _).
    congruence.
  - now exists e.
Qed.

End InitFacts.

(* ================================================================== *)
(** * The properties of the specification *)

Section Claims.
Context {T : Type} {SC : Scalar T}.
Variable Detections : Type.
Variable nms_forward : AnchornizedNMS -> Tensor T -> outcome Detections.
Variable torch_1_10 : bool.

(** C1.  In inference mode the candidate of scale [i], anchor [a] and cell
    (row [r], column [col]) holds, from the squashed raw channels:
    cx = (2 sigmoid(tx) - 0.5 + col) * stride and
    cy = (2 sigmoid(ty) - 0.5 + r) * stride in channels 0 and 1,
    w = (2 sigmoid(tw))^2 * (anchor_w * stride) and
    h = (2 sigmoid(th))^2 * (anchor_h * stride) in channels 2 and 3, and
    the squashed raw value itself in every channel from 4 on. *)
Theorem decode_box_formulas :
  forall (h : Head) x N K dims i xi hw s n a r col,
    head_ok h -> training h = false -> porting h = false -> 4 <= K ->
    length x = nl h -> nl h <= length (strides h) ->
    raw_ok (na h) N K dims x ->
    nth_error x i = Some xi -> nth_error dims i = Some hw ->
    nth_error (strides h) i = Some s ->
    n < N -> a < na h -> r < fst hw -> col < snd hw ->
    exists c h',
      candidates torch_1_10 x h = (Ok c, h') /\
      forward_heads nms_forward torch_1_10 x h =
      (let! d := nms_forward (nms h) c in Ok (Suppressed d), h') /\
      let row := scale_offset (na h) dims i + ((a * fst hw + r) * snd hw + col) in
      let sig k := s_sigmoid (tget xi [n; a * K + k; r; col]) in
      tget c [n; row; 0] =
        s_mul (s_add (s_sub (s_mul (sig 0) s_two) s_half) (s_of_nat col)) s /\
      tget c [n; row; 1] =
        s_mul (s_add (s_sub (s_mul (sig 1) s_two) s_half) (s_of_nat r)) s /\
      tget c [n; row; 2] =
        s_mul (s_mul (s_mul (sig 2) s_two) (s_mul (sig 2) s_two))
              (s_mul (tget (anchors h) [i; a; 0]) s) /\
      tget c [n; row; 3] =
        s_mul (s_mul (s_mul (sig 3) s_two) (s_mul (sig 3) s_two))
              (s_mul (tget (anchors h) [i; a; 1]) s) /\
      forall k, 4 <= k -> k < K -> tget c [n; row; k] = sig k.
Proof.
  intros h x N K dims i xi hw s n a r col OK Tr Po HK L Ls R Ex Ed Es Hn Ha Hr Hc.
  destruct (inference_spec Detections nms_forward torch_1_10
                           h x N K dims OK Tr Po HK L Ls R)
    as (c & h' & Ec & Ef & _ & _ & _ & _ & _ & V).
  exists c, h'. split; [exact Ec|]. split; [exact Ef|].
  cbn zeta.
  repeat split.
  - rewrite (V i xi hw s n a r col 0) by (assumption || lia). reflexivity.
  - rewrite (V i xi hw s n a r col 1) by (assumption || lia). reflexivity.
  - rewrite (V i xi hw s n a r col 2) by (assumption || lia). reflexivity.
  - rewrite (V i xi hw s n a r col 3) by (assumption || lia). reflexivity.
  - intros k K4 Hk. rewrite (V i xi hw s n a r col k) by assumption.
    unfold decoded_entry, box_value.
    rewrite (proj2 (Nat.ltb_ge k 2)) by lia.
    now rewrite (proj2 (Nat.ltb_ge k 4)) by lia.
Qed.

(** C2.  The grid built for scale [i] and a feature map of [ny] rows and
    [nx] columns holds (x, y) = (column, row) at every cell, the same for
    every anchor, and the anchor grid holds at every cell of anchor [a] the
    anchor's width and height times the stride of the scale. *)
Theorem make_grid_cells :
  forall (h : Head) nx ny i,
    shape (anchors h) = [nl h; na h; 2] ->
    i < nl h -> i < length (strides h) ->
    exists g ag s h',
      _make_grid torch_1_10 nx ny i h = (Ok (g, ag), h') /\
      nth_error (strides h) i = Some s /\
      shape g = [1; na h; ny; nx; 2] /\ shape ag = [1; na h; ny; nx; 2] /\
      forall a r c, a < na h -> r < ny -> c < nx ->
        tget g [0; a; r; c; 0] = s_of_nat c /\
        tget g [0; a; r; c; 1] = s_of_nat r /\
        tget ag [0; a; r; c; 0] = s_mul (tget (anchors h) [i; a; 0]) s /\
        tget ag [0; a; r; c; 1] = s_mul (tget (anchors h) [i; a; 1]) s.
Proof.
  intros h nx ny i EA Hi Hs.
  destruct (make_grid_spec torch_1_10 h nx ny i EA Hi Hs)
    as (g & ag & seg & E & [Sg Vg] & [Sag (s & Es & Vag)] & _).
  exists g, ag, s. eexists. split; [exact E|].
  split; [exact Es|]. split; [exact Sg|]. split; [exact Sag|].
  intros a r c Ha Hr Hc. destruct (Vg a r c Ha Hr Hc) as [V0 V1].
  split; [exact V0|]. split; [exact V1|].
  split; apply Vag; assumption || lia.
Qed.

(** C3.  In inference the tensor handed to the suppression has, for every
    batch item, one row per scale, anchor and cell, the rows of scale 0
    first, then those of scale 1, and so on; every row is determined by
    the input and the configuration, so a second run on the same input,
    from whatever the cache holds by then, gives the same tensor. *)
Theorem candidates_scale_major :
  forall (h : Head) x N K dims,
    head_ok h -> training h = false -> porting h = false -> 4 <= K ->
    length x = nl h -> nl h <= length (strides h) ->
    raw_ok (na h) N K dims x ->
    exists c h',
      candidates torch_1_10 x h = (Ok c, h') /\
      forward_heads nms_forward torch_1_10 x h =
      (let! d := nms_forward (nms h) c in Ok (Suppressed d), h') /\
      shape c = [N; list_sum (map (fun hw => na h * fst hw * snd hw) dims); K] /\
      (forall i xi hw s n a r col k,
          nth_error x i = Some xi -> nth_error dims i = Some hw ->
          nth_error (strides h) i = Some s ->
          n < N -> a < na h -> r < fst hw -> col < snd hw -> k < K ->
          tget c [n; list_sum (map (fun hw => na h * fst hw * snd hw)
                                   (firstn i dims))
                     + ((a * fst hw + r) * snd hw + col); k]
          = decoded_entry h i s xi K n a r col k) /\
      exists h'', candidates torch_1_10 x h' = (Ok c, h'').
Proof.
  intros h x N K dims OK Tr Po HK L Ls R.
  destruct (inference_spec Detections nms_forward torch_1_10
                           h x N K dims OK Tr Po HK L Ls R)
    as (c & h' & Ec & Ef & OK' & G & _ & Sc & _ & V).
  exists c, h'. split; [exact Ec|]. split; [exact Ef|].
  split; [exact Sc|]. split; [exact V|].
  destruct (grids_only_fields h h' G) as (Enl & Ena & Ean & Est & Etr & Epo & _).
  apply (candidates_cache_independent Detections nms_forward torch_1_10
           h h' x N K dims c h'); try assumption; congruence.
Qed.

(** C4.  The lookup for scale [i] rebuilds the cached grid and anchor grid
    exactly when the slot still holds the initial placeholder or the
    cached grid has other spatial extents than the feature map; otherwise
    it leaves the head, and so the cached grids, as they are. *)
Theorem lookup_grid_rebuilds_iff :
  forall (h : Head) i (xi : Tensor T) N A H W K,
    head_ok h -> porting h = false ->
    i < nl h -> i < length (strides h) ->
    shape xi = [N; A; H; W; K] ->
    exists g0 ag0,
      nth_error (grid h) i = Some g0 /\
      nth_error (anchor_grid h) i = Some ag0 /\
      (g0 = zeros1 \/ shape_2_4 g0 <> [H; W] ->
       exists g ag,
         _make_grid torch_1_10 W H i h = (Ok (g, ag), h) /\
         lookup_grid torch_1_10 i xi W H h =
         (Ok tt, set_grids h (list_update (grid h) i g)
                             (list_update (anchor_grid h) i ag))) /\
      (~ (g0 = zeros1 \/ shape_2_4 g0 <> [H; W]) ->
       lookup_grid torch_1_10 i xi W H h = (Ok tt, h)).
Proof.
  intros h i xi N A H W K OK Po Hi Hs Sx.
  destruct (ok_slots h OK i Hi) as (g0 & ag0 & Eg0 & Eag0 & Slot).
  exists g0, ag0. split; [exact Eg0|]. split; [exact Eag0|].
  assert (Sxi : shape_2_4 xi = [H; W]) by (unfold shape_2_4; now rewrite Sx).
  split.
  - intros Miss.
    destruct (make_grid_spec torch_1_10 h W H i (ok_anchors h OK) Hi Hs)
      as (g & ag & seg & Emk & _).
    rewrite Po in Emk. exists g, ag. split; [exact Emk|].
    unfold lookup_grid, bind, self, lift, ret, update.
    rewrite (list_get_ok _ _ _ _ Eg0), Sxi.
    destruct (list_eq_dec Nat.eq_dec (shape_2_4 g0) [H; W]) as [Hit|_].
    + destruct Miss as [->|NE]; [discriminate Hit | contradiction].
    + rewrite Emk.
      rewrite (list_set_ok _ _ _ _ (nth_error_lt _ _ _ _ Eg0)).
      rewrite (list_set_ok _ _ _ _ (nth_error_lt _ _ _ _ Eag0)).
      reflexivity.
  - intros Hit.
    unfold lookup_grid, bind, self, lift, ret, update.
    rewrite (list_get_ok _ _ _ _ Eg0), Sxi.
    destruct (list_eq_dec Nat.eq_dec (shape_2_4 g0) [H; W]) as [_|NE];
      [reflexivity|].
    exfalso. apply Hit. now right.
Qed.

(** C5 (amended).  In training mode the forward pass decodes nothing,
    calls no suppression and leaves the head as it is; it returns, for
    every scale, the head output rearranged by [_reshape] to (batch,
    anchor, row, column, channel), every value unchanged. *)
Theorem training_returns_reshaped :
  forall (h : Head) x N K dims,
    0 < na h -> training h = true -> porting h = false ->
    length x = nl h -> raw_ok (na h) N K dims x ->
    exists x',
      forward_heads nms_forward torch_1_10 x h = (Ok (TrainingOutputs x'), h) /\
      Forall2 (fun hw_xi xi' =>
                 shape xi' = [N; na h; fst (fst hw_xi); snd (fst hw_xi); K] /\
                 forall n a r c k,
                   n < N -> a < na h ->
                   r < fst (fst hw_xi) -> c < snd (fst hw_xi) -> k < K ->
                   tget xi' [n; a; r; c; k] =
                   tget (snd hw_xi) [n; a * K + k; r; c])
              (combine dims x) x'.
Proof.
  intros h x N K dims HA Tr Po L R.
  destruct (training_spec Detections nms_forward torch_1_10
                          h x N K dims HA Tr Po L R) as (x' & E & F).
  exists x'. split; [exact E|].
  eapply Forall2_impl; [|exact F].
  intros [hw xi] xi' (S & _ & V). split; assumption.
Qed.

(** C6 (amended).  The construction raises when a threshold is outside
    [0,1].  It stores the strides as given and succeeds or fails whatever
    their number; a head built with fewer strides than anchor groups
    raises [IndexError] in its first inference call, when it builds the
    grids of the first scale that has no stride. *)
Theorem construction_checks :
  forall D w r act strides_arg anchors_arg at_arg conf iou,
    (in_unit_interval conf && in_unit_interval iou = false ->
     exists e,
       AnchornizedFaceQuality_init (T:=T) D w r act strides_arg anchors_arg
                                   at_arg conf iou = Raise e) /\
    (forall h : Head,
        AnchornizedFaceQuality_init D w r act strides_arg anchors_arg
                                    at_arg conf iou = Ok h ->
        strides h = strides_arg /\
        forall s2, exists h2,
            AnchornizedFaceQuality_init D w r act s2 anchors_arg
                                        at_arg conf iou = Ok h2 /\
            strides h2 = s2) /\
    (forall (h : Head) x N K dims,
        AnchornizedFaceQuality_init D w r act strides_arg anchors_arg
                                    at_arg conf iou = Ok h ->
        0 < na h -> length strides_arg < nl h -> 4 <= K ->
        (forall j, j <= length strides_arg ->
           exists xj hw, nth_error x j = Some xj /\ nth_error dims j = Some hw /\
                         shape xj = [N; na h * K; fst hw; snd hw]) ->
        exists h',
          forward_heads nms_forward torch_1_10 x (train h false)
          = (Raise IndexError, h')).
Proof.
  intros D w r act strides_arg anchors_arg at_arg conf iou.
  split; [apply init_bad_threshold|]. split.
  - intros h E.
    destruct (init_inv _ _ _ _ _ _ _ _ _ _ E) as (_ & _ & _ & Es & _).
    split; [exact Es|]. intros s2.
    destruct (init_any_strides D w r act strides_arg s2 _ _ _ _ h E)
      as (h2 & E2 & Es2 & _).
    now exists h2.
  - intros h x N K dims E HA Short HK Hx.
    pose proof (init_head_ok _ _ _ _ _ _ _ _ _ h false E HA) as OK.
    destruct (init_inv _ _ _ _ _ _ _ _ _ _ E) as (_ & _ & _ & Es & _ & Po & _).
    set (m := length strides_arg) in *.
    destruct (forward_heads_fail_at Detections nms_forward torch_1_10
                (train h false) x N K dims m IndexError OK eq_refl Po HK Short)
      as (h' & Ef & _).
    + intros j Hj. cbn [strides train]. rewrite Es. fold m.
      split; [exact Hj|]. apply Hx. lia.
    + intros h1 x1 o1 OK1 G1 X1.
      destruct (Hx m (le_n m)) as (xm & hw & Exm & _ & Sxm).
      destruct (grids_only_fields _ _ G1) as (Enl & Ena & _ & Est & Etr & _).
      cbn [nl na strides training train] in Enl, Ena, Est, Etr.
      apply (decode_step_no_stride torch_1_10 h1 x1 o1 m xm N K (fst hw) (snd hw));
        try assumption; try congruence.
      rewrite Est, Es. apply le_n.
    + now exists h'.
Qed.

(** C10.  With the porting flag set the forward pass returns, scale by
    scale, the squashed head output under the shape (batch, channels,
    rows * columns): no box decode, no concatenation, no suppression.
    The head changes only in [anchors_for_porting], which gains the scaled
    anchors of every scale, in the order of the scales. *)
Theorem porting_outputs :
  forall (h : Head) (x : list (Tensor T)),
    porting h = true -> shape (anchors h) = [nl h; na h; 2] ->
    length x = nl h -> nl h <= length (strides h) ->
    Forall (fun xi => exists N C H W,
                shape xi = [N; C; H; W] /\ 0 < N /\ 0 < C) x ->
    exists outs segs,
      forward_heads nms_forward torch_1_10 x h =
      (Ok (PortingOutputs outs),
       set_anchors_for_porting h (anchors_for_porting h ++ concat segs)) /\
      Forall2 (fun xi o =>
                 exists N C H W,
                   shape xi = [N; C; H; W] /\ shape o = [N; C; H * W] /\
                   data o = map s_sigmoid (data xi)) x outs /\
      Forall2 (fun i seg => is_scaled_row h i seg) (seq 0 (nl h)) segs.
Proof.
  intros h x Po EA L Ls Fx.
  destruct (porting_loop_spec torch_1_10 (seq 0 (nl h)) h x [] Po EA
                              (seq_NoDup _ _))
    as (x' & os & segs & E & Fo & Fs).
  { intros i Hi. apply in_seq in Hi. split; [lia|]. split; [lia|].
    destruct (nth_error_in_range _ x i) as (xi & Ex); [lia|].
    pose proof (proj1 (Forall_forall _ x) Fx xi (nth_error_In _ _ Ex))
      as (N & C & H & W & Sx & HN & HC).
    now exists xi, N, C, H, W. }
  cbn [app] in E.
  exists os, segs. split.
  { unfold forward_heads, bind, self, ret. now rewrite Po, E. }
  split; [|exact Fs].
  apply Forall2_of_nth.
  { rewrite <- (Forall2_length Fo), length_seq. exact L. }
  intros i xi o Ex Eo.
  pose proof (nth_error_lt _ _ _ _ Ex) as Li.
  pose proof (nth_error_seq_from (nl h) 0 i ltac:(lia)) as Ei.
  destruct (Forall2_nth_both _ _ _ _ _ _ _ _ Fo Ei Eo)
    as (xi0 & N & C & H & W & Ex0 & Sx0 & ->).
  cbn [Nat.add] in Ex0. assert (xi0 = xi) by congruence. subst xi0.
  now exists N, C, H, W.
Qed.
End Claims.

(* ================================================================== *)
(** * The convolution block *)

(** C9 (amended).  The two layers of a convolution block are built
    first, and they raise [ValueError] or [RuntimeError] on arguments
    they do not take; an activation kind other than "relu6", "relu",
    "leakyrelu" and "hardswish" then raises [NotImplementedError].  So an
    unrecognised kind never yields a block, whatever the other arguments,
    and for arguments the layers take the constructor succeeds exactly
    for the four kinds. *)
Theorem ConvModule_init_succeeds_iff :
  forall c_in c_out k s p act g,
    (~ In act recognized_activations ->
     exists e, ConvModule_init c_in c_out k s p act g = Raise e) /\
    (layer_args_ok c_in c_out k g = false ->
     ConvModule_init c_in c_out k s p act g = Raise ValueError \/
     ConvModule_init c_in c_out k s p act g = Raise RuntimeError) /\
    (layer_args_ok c_in c_out k g = true ->
     ((exists m, ConvModule_init c_in c_out k s p act g = Ok m) <->
      In act recognized_activations) /\
     (ConvModule_init c_in c_out k s p act g = Raise NotImplementedError <->
      ~ In act recognized_activations)).
Proof.
  intros c_in c_out k s p act g. split; [|split].
  - intros NI.
    destruct (ConvModule_init c_in c_out k s p act g) as [m|e] eqn:E.
    + exfalso. apply NI. eapply ConvModule_init_recognized. exact E.
    + now exists e.
  - intros A. unfold ConvModule_init.
    destruct (Conv2d_init_fail c_in c_out k s p g false A) as [-> | ->];
      [left | right]; reflexivity.
  - intros A. split; split.
    + intros (m & E). eapply ConvModule_init_recognized. exact E.
    + apply ConvModule_init_ok. exact A.
    + intros E Hin.
      destruct (ConvModule_init_ok c_in c_out k s p act g A Hin) as (m & E').
      congruence.
    + intros NI. unfold ConvModule_init.
      rewrite (Conv2d_init_ok _ _ _ s p _ false A). cbn [obind].
      rewrite (BatchNorm2d_init_ok _ _ _ _ A). cbn [obind].
      destruct (String.eqb_spec act "relu6") as [->|_];
        [exfalso; apply NI; simpl; tauto|].
      destruct (String.eqb_spec act "relu") as [->|_];
        [exfalso; apply NI; simpl; tauto|].
      destruct (String.eqb_spec act "leakyrelu") as [->|_];
        [exfalso; apply NI; simpl; tauto|].
      destruct (String.eqb_spec act "hardswish") as [->|_];
        [exfalso; apply NI; simpl; tauto|].
      reflexivity.
Qed.

(* ================================================================== *)
(** * The decoded size over the real numbers *)

Lemma sigmoid_bounds : forall x : R, (0 < sigmoid x < 1)%R.
Proof.
  intros x. unfold sigmoid.
  pose proof (exp_pos (- x)) as E.
  assert (P : (0 < 1 + exp (- x))%R) by lra.
  split.
  - apply Rdiv_lt_0_compat; lra.
  - apply (Rmult_lt_reg_r (1 + exp (- x))); [exact P|].
    unfold Rdiv. rewrite Rmult_assoc, Rinv_l by lra. lra.
Qed.

Lemma sigmoid_range : forall x : R, (0 <= sigmoid x <= 1)%R.
Proof. intros x. pose proof (sigmoid_bounds x). lra. Qed.




(* ================================================================== *)
(** * The detector of the repository on concrete inputs *)

Lemma example_head_built : yolov8n_facecap_v2_head 6 = Ok example_head.
Proof. reflexivity. Qed.

Lemma example_head_ok : forall mode, head_ok (train example_head mode).
Proof.
  intros mode.
  apply (init_head_ok 6 (1 # 4) 2 "relu6" default_strides None 4
                      (1 # 100) (6 # 10) example_head mode example_head_built).
  cbn. lia.
Qed.

Lemma example_raw_ok : raw_ok 3 1 6 example_dims example_x.
Proof. repeat constructor. Qed.

Lemma decode_box_formulas_witness :
  exists c h',
    candidates true example_x (train example_head false) = (Ok c, h') /\
    forward_heads keep_all true example_x (train example_head false) =
    (let! d := keep_all (nms example_head) c in Ok (Suppressed d), h') /\
    let sig k := sigmoid (tget (full [1; 18; 2; 2] 0%R) [0; 1 * 6 + k; 1; 0]) in
    tget c [0; 48 + 6; 0] = ((sig 0%nat * 2 - 1 / 2 + INR 0) * INR 16)%R /\
    tget c [0; 48 + 6; 1] = ((sig 1%nat * 2 - 1 / 2 + INR 1) * INR 16)%R /\
    tget c [0; 48 + 6; 2] = (sig 2%nat * 2 * (sig 2%nat * 2) * (INR 62 * INR 16))%R /\
    tget c [0; 48 + 6; 3] = (sig 3%nat * 2 * (sig 3%nat * 2) * (INR 45 * INR 16))%R /\
    forall k, 4 <= k -> k < 6 -> tget c [0; 48 + 6; k] = sig k.
Proof.
  refine (decode_box_formulas (Tensor R) keep_all true (train example_head false)
            example_x 1 6 example_dims 1 (full [1; 18; 2; 2] 0%R) (2, 2)
            (INR 16) 0 1 1 0 _ _ _ _ _ _ _ _ _ _ _ _ _ _);
    try reflexivity; try (cbn; lia).
  - apply example_head_ok.
  - apply example_raw_ok.
Defined.

Lemma make_grid_cells_witness :
  exists g ag h',
    _make_grid true 20 20 0 (train example_head false) = (Ok (g, ag), h') /\
    shape g = [1; 3; 20; 20; 2] /\
    tget g [0; 0; 5; 7; 0] = INR 7 /\ tget g [0; 0; 5; 7; 1] = INR 5 /\
    forall r c, r < 20 -> c < 20 ->
      tget ag [0; 1; r; c; 0] = (INR 16 * INR 8)%R /\
      tget ag [0; 1; r; c; 1] = (INR 30 * INR 8)%R.
Proof.
  destruct (make_grid_cells true (train example_head false) 20 20 0)
    as (g & ag & s & h' & E & Es & Sg & Sag & V);
    [reflexivity | cbn; lia | cbn; lia |].
  injection Es as <-.
  exists g, ag, h'. split; [exact E|]. split; [exact Sg|].
  destruct (V 0 5 7) as (V0 & V1 & _); [cbn; lia | lia | lia |].
  split; [exact V0|]. split; [exact V1|].
  intros r c Hr Hc.
  destruct (V 1 r c) as (_ & _ & A0 & A1); [cbn; lia | exact Hr | exact Hc |].
  split; [exact A0 | exact A1].
Defined.

Lemma candidates_scale_major_witness :
  exists c h',
    candidates true example_x (train example_head false) = (Ok c, h') /\
    shape c = [1; 48 + 12 + 3; 6] /\
    exists h'', candidates true example_x h' = (Ok c, h'').
Proof.
  destruct (candidates_scale_major (Tensor R) keep_all true
              (train example_head false) example_x 1 6 example_dims
              (example_head_ok false) eq_refl eq_refl
              ltac:(lia) eq_refl ltac:(cbn; lia) example_raw_ok)
    as (c & h' & Ec & _ & Sc & _ & Again).
  exists c, h'. split; [exact Ec|]. split; [exact Sc | exact Again].
Defined.

Lemma lookup_grid_rebuilds_iff_witness :
  exists g ag,
    _make_grid true 4 4 0 (train example_head false)
    = (Ok (g, ag), train example_head false) /\
    lookup_grid true 0 (full [1; 3; 4; 4; 6] 0%R) 4 4 (train example_head false)
    = (Ok tt, set_grids (train example_head false)
                        [g; zeros1; zeros1] [ag; zeros1; zeros1]).
Proof.
  destruct (lookup_grid_rebuilds_iff true (train example_head false) 0
              (full [1; 3; 4; 4; 6] 0%R) 1 3 4 4 6
              (example_head_ok false) eq_refl
              ltac:(cbn; lia) ltac:(cbn; lia) eq_refl)
    as (g0 & ag0 & Eg0 & _ & Miss & _).
  injection Eg0 as <-.
  destruct (Miss (or_introl eq_refl)) as (g & ag & Emk & El).
  exists g, ag. split; [exact Emk | exact El].
Defined.

(** C5, as stated, fails: the freshly built head is in training mode, and
    what it returns for [example_x] is not [example_x]; the first tensor
    comes back with five extents instead of four. *)
Lemma training_output_not_raw :
  training example_head = true /\
  fst (forward_heads keep_all true example_x example_head)
  <> Ok (TrainingOutputs example_x).
Proof.
  split; [reflexivity|].
  destruct (training_spec (Tensor R) keep_all true example_head example_x
                          1 6 example_dims ltac:(cbn; lia) eq_refl eq_refl
                          eq_refl example_raw_ok) as (x' & E & F).
  rewrite E. cbn [fst]. intros Eq. injection Eq as ->.
  inversion F as [|? ? ? ? [S _] _]; subst. discriminate S.
Qed.

Lemma training_returns_reshaped_witness :
  exists x',
    forward_heads keep_all true example_x example_head
    = (Ok (TrainingOutputs x'), example_head) /\
    length x' = 3.
Proof.
  destruct (training_returns_reshaped (Tensor R) keep_all true example_head
              example_x 1 6 example_dims ltac:(cbn; lia) eq_refl eq_refl
              eq_refl example_raw_ok) as (x' & E & F).
  exists x'. split; [exact E|].
  rewrite <- (Forall2_length F). reflexivity.
Defined.

(** C6, as stated, fails: with two strides for the three anchor groups the
    construction succeeds, and it is the first inference call that raises,
    in the decode of the third scale. *)
Lemma short_strides_accepted :
  length short_strides <> 3 /\
  exists h : Head,
    AnchornizedFaceQuality_init 6 (1 # 4) 2 "relu6" short_strides None
                                4 (1 # 100) (6 # 10) = Ok h /\
    nl h = 3 /\
    exists h', forward_heads keep_all true example_x (train h false)
               = (Raise IndexError, h').
Proof.
  split; [cbn; lia|].
  eexists. split; [reflexivity|]. split; [reflexivity|].
  match goal with
  | |- exists h', forward_heads _ _ _ (train ?h0 false) = _ => set (h := h0)
  end.
  assert (OK : head_ok (train h false)).
  { apply (init_head_ok 6 (1 # 4) 2 "relu6" short_strides None 4
                        (1 # 100) (6 # 10) h false eq_refl). cbn. lia. }
  destruct (forward_heads_fail_at (Tensor R) keep_all true (train h false)
              example_x 1 6 example_dims 2 IndexError OK eq_refl eq_refl)
    as (h' & Ef & _); [lia | cbn; lia | | | now exists h'].
  - intros j Hj. split; [cbn; lia|].
    destruct j as [|[|j]]; [| |lia].
    + exists (full [1; 18; 4; 4] 0%R), (4, 4). repeat split.
    + exists (full [1; 18; 2; 2] 0%R), (2, 2). repeat split.
  - intros h1 x1 o1 OK1 G1 X1.
    destruct (grids_only_fields _ _ G1) as (Enl & Ena & _ & Est & Etr & _).
    apply (decode_step_no_stride true h1 x1 o1 2 (full [1; 18; 1; 1] 0%R)
                                 1 6 1 1); try assumption.
    + rewrite Enl. cbn. lia.
    + rewrite Est. cbn. lia.
    + now rewrite Ena.
Qed.

Lemma construction_checks_witness :
  (exists e,
      AnchornizedFaceQuality_init (T:=R) 6 (1 # 4) 2 "relu6" default_strides
                                  None 4 (3 # 2) (6 # 10) = Raise e) /\
  (exists h2,
      AnchornizedFaceQuality_init (T:=R) 6 (1 # 4) 2 "relu6" short_strides
                                  None 4 (1 # 100) (6 # 10) = Ok h2 /\
      strides h2 = short_strides).
Proof.
  split.
  - apply (proj1 (construction_checks (Tensor R) keep_all true
                    6 (1 # 4) 2 "relu6" default_strides None 4
                    (3 # 2) (6 # 10))).
    reflexivity.
  - destruct (proj1 (proj2 (construction_checks (Tensor R) keep_all true
                              6 (1 # 4) 2 "relu6" default_strides None 4
                              (1 # 100) (6 # 10)))
                    example_head example_head_built) as [_ Any].
    exact (Any short_strides).
Defined.





(** C9, as the specification states it, fails where the layers refuse
    their arguments: three input channels do not split into two groups,
    and the constructor raises [ValueError] for the recognised kind
    "relu6". *)
Lemma recognized_kind_refused :
  In "relu6"%string recognized_activations /\
  ConvModule_init 3 16 3 2 1 "relu6" 2 = Raise ValueError /\
  ~ exists m, ConvModule_init 3 16 3 2 1 "relu6" 2 = Ok m.
Proof.
  split; [simpl; tauto|]. split; [reflexivity|].
  intros (m & E). discriminate E.
Qed.

Lemma ConvModule_init_succeeds_iff_witness :
  (exists m, ConvModule_init 3 16 3 2 1 "relu6" 1 = Ok m) /\
  ConvModule_init 3 16 3 2 1 "gelu" 1 = Raise NotImplementedError /\
  (ConvModule_init 3 16 3 2 1 "relu6" 2 = Raise ValueError \/
   ConvModule_init 3 16 3 2 1 "relu6" 2 = Raise RuntimeError) /\
  (exists e, ConvModule_init 3 16 3 2 1 "gelu" 2 = Raise e).
Proof.
  split; [|split; [|split]].
  - apply (proj1 (proj2 (proj2 (ConvModule_init_succeeds_iff
                                  3 16 3 2 1 "relu6" 1)) eq_refl)).
    simpl. tauto.
  - apply (proj2 (proj2 (proj2 (ConvModule_init_succeeds_iff
                                  3 16 3 2 1 "gelu" 1)) eq_refl)).
    simpl. intros [H|[H|[H|[H|[]]]]]; discriminate H.
  - exact (proj1 (proj2 (ConvModule_init_succeeds_iff 3 16 3 2 1 "relu6" 2))
                 eq_refl).
  - apply (proj1 (ConvModule_init_succeeds_iff 3 16 3 2 1 "gelu" 2)).
    simpl. intros [H|[H|[H|[H|[]]]]]; discriminate H.
Defined.

Lemma porting_outputs_witness :
  exists outs segs,
    forward_heads keep_all true example_x
                  (set_porting (train example_head false) true) =
    (Ok (PortingOutputs outs),
     set_anchors_for_porting (set_porting (train example_head false) true)
                             ([] ++ concat segs)) /\
    Forall2 (fun xi o =>
               exists N C H W,
                 shape xi = [N; C; H; W] /\ shape o = [N; C; H * W] /\
                 data o = map sigmoid (data xi)) example_x outs /\
    Forall2 (fun i seg =>
               is_scaled_row (set_porting (train example_head false) true) i seg)
            [0; 1; 2] segs.
Proof.
  refine (porting_outputs (Tensor R) keep_all true
            (set_porting (train example_head false) true) example_x
            eq_refl eq_refl eq_refl _ _); [cbn; lia|].
  repeat constructor.
  - exists 1, 18, 4, 4. repeat split; lia.
  - exists 1, 18, 2, 2. repeat split; lia.
  - exists 1, 18, 1, 1. repeat split; lia.
Defined.

(* ================================================================== *)
(** * Further properties of the head *)

Section MoreHeadFacts.
Context {T : Type} {SC : Scalar T}.
Variable Detections : Type.
Variable nms_forward : AnchornizedNMS -> Tensor T -> outcome Detections.
Variable torch_1_10 : bool.

Ltac mstep := unfold bind, self, lift, ret, update; cbn beta iota.

(* ---------------------------------------------------------------- *)
(** ** A call on a cache that already fits *)

Lemma lookup_grid_hit : forall (h : Head) i (xi : Tensor T) N A H W K,
    slot_built h i H W -> shape xi = [N; A; H; W; K] ->
    lookup_grid torch_1_10 i xi W H h = (Ok tt, h).
Proof.
  intros h i xi N A H W K (g & ag & Eg & _ & [Sg _] & _) Sx.
  unfold lookup_grid. mstep. rewrite (list_get_ok _ _ _ _ Eg).
  unfold shape_2_4. rewrite Sg, Sx. cbn [firstn skipn].
  destruct (list_eq_dec Nat.eq_dec [H; W] [H; W]) as [_|NE];
    [reflexivity | congruence].
Qed.

Lemma decode_step_hit : forall (h : Head) x outs i xi N K H W,
    0 < na h -> training h = false -> slot_built h i H W ->
    nth_error x i = Some xi -> shape xi = [N; na h * K; H; W] -> 4 <= K ->
    exists xi' o,
      decode_step torch_1_10 i x outs h =
      (Ok (list_update x i xi', outs ++ [o]), h).
Proof.
  intros h x outs i xi N K H W HA Tr B Ex Sx HK.
  destruct (reshape_spec h xi N K H W HA Sx) as (xi' & Er & Sx' & Wx' & _).
  pose proof (lookup_grid_hit h i xi' N (na h) H W K B Sx') as El.
  destruct B as (g & ag & Eg & Eag & [Sg _] & [Sag (s & Es & _)]).
  destruct (decode_boxes_spec xi' g ag s N (na h) H W K Sx' Wx' HK Sg Sag)
    as (y & Ey & Sy & _).
  exists xi', (mkTensor [N; na h * H * W; K] (data y)).
  unfold decode_step. mstep.
  rewrite (list_get_ok _ _ _ _ Ex), Er.
  rewrite (list_set_ok _ _ _ _ (nth_error_lt _ _ _ _ Ex)).
  rewrite Tr. cbn [negb]. rewrite Sx', El.
  rewrite (list_get_ok _ _ i g Eg), (list_get_ok _ _ i s Es),
          (list_get_ok _ _ i ag Eag).
  rewrite Ey. rewrite view_ok by (rewrite Sy; simpl; ring).
  reflexivity.
Qed.

Lemma decode_loop_hit : forall ixs (h : Head) x outs N K dims,
    0 < na h -> training h = false -> 4 <= K -> NoDup ixs ->
    (forall i, In i ixs ->
       exists xi hw, nth_error x i = Some xi /\ nth_error dims i = Some hw /\
                     shape xi = [N; na h * K; fst hw; snd hw] /\
                     slot_built h i (fst hw) (snd hw)) ->
    exists x' os,
      decode_loop torch_1_10 ixs x outs h = (Ok (x', outs ++ os), h).
Proof.
  induction ixs as [|i ixs IH]; intros h x outs N K dims HA Tr HK ND Hx.
  - exists x, []. now rewrite app_nil_r.
  - inversion ND as [|? ? Hni ND']; subst.
    destruct (Hx i (or_introl eq_refl)) as (xi & hw & Ex & Ed & Sx & B).
    destruct (decode_step_hit h x outs i xi N K (fst hw) (snd hw)
                              HA Tr B Ex Sx HK) as (xi' & o & E1).
    destruct (IH h (list_update x i xi') (outs ++ [o]) N K dims HA Tr HK ND')
      as (x' & os & E2).
    { intros j Hj. destruct (Hx j (or_intror Hj)) as (xj & hwj & Exj & Rest).
      exists xj, hwj.
      rewrite nth_error_list_update_neq by (intros ->; contradiction).
      split; [exact Exj | exact Rest]. }
    exists x', (o :: os). cbn [decode_loop]. unfold bind at 1.
    rewrite E1, E2, <- app_assoc. reflexivity.
Qed.

(** X1.  An inference call leaves the cache fitted to its input, and the
    same call again returns the same result without touching the head. *)
Theorem repeated_call_leaves_head :
  forall (h : Head) x N K dims,
    head_ok h -> training h = false -> porting h = false -> 4 <= K ->
    length x = nl h -> nl h <= length (strides h) ->
    raw_ok (na h) N K dims x ->
    exists res h',
      forward_heads nms_forward torch_1_10 x h = (res, h') /\
      forward_heads nms_forward torch_1_10 x h' = (res, h').
Proof.
  intros h x N K dims OK Tr Po HK L Ls R.
  destruct (inference_spec Detections nms_forward torch_1_10
                           h x N K dims OK Tr Po HK L Ls R)
    as (c & h' & Ec & Ef & OK' & G & Built & _).
  destruct (grids_only_fields h h' G) as (Enl & Ena & Ean & Est & Etr & Epo & En & _).
  eexists. exists h'. split; [exact Ef|].
  destruct (decode_loop_hit (seq 0 (nl h')) h' x [] N K dims)
    as (x' & os & E2); try congruence.
  { rewrite Ena. exact (ok_na h OK). }
  { apply seq_NoDup. }
  { intros i Hi. apply in_seq in Hi.
    destruct (nth_error_in_range _ x i) as (xi & Ex); [lia|].
    destruct (Forall2_nth_right _ _ _ _ _ _ _ R Ex) as (hw & Ed & Sx).
    exists xi, hw. rewrite Ena.
    split; [exact Ex|]. split; [exact Ed|]. split; [exact Sx|].
    now apply Built. }
  cbn [app] in E2.
  destruct (candidates_cache_independent Detections nms_forward torch_1_10
              h h' x N K dims c h') as (h'' & Ec2);
    try assumption; try congruence.
  assert (Eos : cat1 os = Ok c /\ h'' = h').
  { unfold candidates in Ec2. unfold bind, self, lift in Ec2.
    rewrite E2 in Ec2. destruct (cat1 os); now inversion Ec2. }
  destruct Eos as [Eos _].
  unfold forward_heads. mstep. rewrite Epo, Po, E2, Etr, Tr, Eos, En.
  destruct (nms_forward (nms h) c); reflexivity.
Qed.

(* ---------------------------------------------------------------- *)
(** ** The loops read the first [nl] head outputs only *)

Lemma list_update_app : forall A (x e : list A) i v,
    i < length x -> list_update (x ++ e) i v = list_update x i v ++ e.
Proof.
  induction x as [|a x IH]; intros e i v L; simpl in L; [lia|].
  destruct i as [|i]; simpl; [reflexivity|]. rewrite IH by lia. reflexivity.
Qed.

Lemma list_get_app : forall A (x e : list A) i,
    i < length x -> list_get (x ++ e) i = list_get x i.
Proof. intros A x e i L. unfold list_get. now rewrite nth_error_app1. Qed.

Lemma list_set_app : forall A (x e : list A) i v,
    i < length x ->
    list_set (x ++ e) i v = Ok (list_update x i v ++ e) /\
    list_set x i v = Ok (list_update x i v).
Proof.
  intros A x e i v L. unfold list_set. rewrite length_app.
  rewrite (proj2 (Nat.ltb_lt i (length x + length e))) by lia.
  rewrite (proj2 (Nat.ltb_lt i (length x))) by lia.
  now rewrite list_update_app.
Qed.

Lemma decode_step_app : forall (h : Head) x e outs i,
    i < length x ->
    decode_step torch_1_10 i (x ++ e) outs h =
    with_tail e (decode_step torch_1_10 i x outs h).
Proof.
  intros h x e outs i L. unfold decode_step. mstep.
  rewrite list_get_app by exact L.
  destruct (list_get x i) as [xi|er]; [|reflexivity].
  destruct (_reshape xi h) as [[xi'|er] h1]; [|reflexivity].
  destruct (list_set_app _ x e i xi' L) as [-> ->].
  destruct (negb (training h1)); [|reflexivity].
  destruct (shape xi') as [|N [|A [|H [|W [|K [|? ?]]]]]]; try reflexivity.
  destruct (lookup_grid torch_1_10 i xi' W H h1) as [[[]|er] h2]; [|reflexivity].
  destruct (list_get (grid h2) i) as [G|er]; [|reflexivity].
  destruct (list_get (strides h2) i) as [S|er]; [|reflexivity].
  destruct (list_get (anchor_grid h2) i) as [AS|er]; [|reflexivity].
  destruct (decode_boxes xi' G AS S) as [y|er]; [|reflexivity].
  destruct (view [N; A * H * W; K] y) as [o|er]; reflexivity.
Qed.

Lemma decode_step_length : forall (h : Head) x outs i x' o h',
    decode_step torch_1_10 i x outs h = (Ok (x', o), h') ->
    length x' = length x.
Proof.
  intros h x outs i x' o h' E. unfold decode_step in E.
  unfold bind, lift, self, ret in E.
  destruct (list_get x i) as [xi|er]; [|discriminate].
  destruct (_reshape xi h) as [[xi'|er] h1]; [|discriminate].
  unfold list_set in E. destruct (i <? length x); [|discriminate].
  assert (U : length (list_update x i xi') = length x)
    by apply length_list_update.
  destruct (negb (training h1)); [|now injection E as <- _ _].
  destruct (shape xi') as [|N [|A [|H [|W [|K [|? ?]]]]]]; try discriminate.
  destruct (lookup_grid torch_1_10 i xi' W H h1) as [[[]|er] h2]; [|discriminate].
  destruct (list_get (grid h2) i) as [G|er]; [|discriminate].
  destruct (list_get (strides h2) i) as [S|er]; [|discriminate].
  destruct (list_get (anchor_grid h2) i) as [AS|er]; [|discriminate].
  destruct (decode_boxes xi' G AS S) as [y|er]; [|discriminate].
  destruct (view [N; A * H * W; K] y) as [o'|er]; [|discriminate].
  now injection E as <- _ _.
Qed.

Lemma decode_loop_app : forall ixs (h : Head) x e outs,
    (forall i, In i ixs -> i < length x) ->
    decode_loop torch_1_10 ixs (x ++ e) outs h =
    with_tail e (decode_loop torch_1_10 ixs x outs h).
Proof.
  induction ixs as [|i ixs IH]; intros h x e outs Hx; [reflexivity|].
  cbn [decode_loop]. unfold bind.
  rewrite decode_step_app by (apply Hx; now left).
  destruct (decode_step torch_1_10 i x outs h) as [[[x1 o1]|er] h1] eqn:E1;
    [|reflexivity].
  cbn [with_tail]. apply IH. intros j Hj.
  rewrite (decode_step_length _ _ _ _ _ _ _ E1). apply Hx. now right.
Qed.

Lemma porting_step_app : forall (h : Head) x e outs i,
    i < length x ->
    porting_step torch_1_10 i (x ++ e) outs h =
    with_tail e (porting_step torch_1_10 i x outs h).
Proof.
  intros h x e outs i L. unfold porting_step. mstep.
  rewrite list_get_app by exact L.
  destruct (list_get x i) as [xi|er]; [|reflexivity].
  destruct (list_set_app _ x e i (tmap s_sigmoid xi) L) as [-> ->].
  destruct (shape (tmap s_sigmoid xi)) as [|N [|C [|H [|W [|? ?]]]]];
    try reflexivity.
  destruct (_make_grid torch_1_10 W H i h) as [[ga|er] h1]; [|reflexivity].
  destruct (view_infer [N; C] [] (tmap s_sigmoid xi)); reflexivity.
Qed.

Lemma porting_step_length : forall (h : Head) x outs i x' o h',
    porting_step torch_1_10 i x outs h = (Ok (x', o), h') ->
    length x' = length x.
Proof.
  intros h x outs i x' o h' E. unfold porting_step in E.
  unfold bind, lift, self, ret in E.
  destruct (list_get x i) as [xi|er]; [|discriminate].
  unfold list_set in E. destruct (i <? length x); [|discriminate].
  destruct (shape (tmap s_sigmoid xi)) as [|N [|C [|H [|W [|? ?]]]]];
    try discriminate.
  destruct (_make_grid torch_1_10 W H i h) as [[ga|er] h1]; [|discriminate].
  destruct (view_infer [N; C] [] (tmap s_sigmoid xi)); [|discriminate].
  injection E as <- _ _. apply length_list_update.
Qed.

Lemma porting_loop_app : forall ixs (h : Head) x e outs,
    (forall i, In i ixs -> i < length x) ->
    porting_loop torch_1_10 ixs (x ++ e) outs h =
    with_tail e (porting_loop torch_1_10 ixs x outs h).
Proof.
  induction ixs as [|i ixs IH]; intros h x e outs Hx; [reflexivity|].
  cbn [porting_loop]. unfold bind.
  rewrite porting_step_app by (apply Hx; now left).
  destruct (porting_step torch_1_10 i x outs h) as [[[x1 o1]|er] h1] eqn:E1;
    [|reflexivity].
  cbn [with_tail]. apply IH. intros j Hj.
  rewrite (porting_step_length _ _ _ _ _ _ _ E1). apply Hx. now right.
Qed.

(** X2.  The forward pass reads only the first [nl] head outputs: what
    comes after them changes neither the result nor the head, except that
    training mode hands the extra tensors back as they came, after the
    reshaped ones. *)
Theorem extra_head_outputs_ignored :
  forall (h : Head) (x e : list (Tensor T)),
    nl h <= length x ->
    forward_heads nms_forward torch_1_10 (x ++ e) h =
    match forward_heads nms_forward torch_1_10 x h with
    | (Ok (TrainingOutputs x'), h') => (Ok (TrainingOutputs (x' ++ e)), h')
    | r => r
    end.
Proof.
  intros h x e L.
  assert (Hx : forall i, In i (seq 0 (nl h)) -> i < length x).
  { intros i Hi. apply in_seq in Hi. lia. }
  unfold forward_heads. mstep.
  destruct (porting h).
  - rewrite (porting_loop_app _ h x e [] Hx).
    destruct (porting_loop torch_1_10 (seq 0 (nl h)) x [] h)
      as [[[x1 o1]|er] h1]; reflexivity.
  - rewrite (decode_loop_app _ h x e [] Hx).
    destruct (decode_loop torch_1_10 (seq 0 (nl h)) x [] h)
      as [[[x1 o1]|er] h1]; [|reflexivity].
    cbn [with_tail]. destruct (training h1); [reflexivity|].
    destruct (cat1 o1) as [c|er]; [|reflexivity].
    destruct (nms_forward (nms h1) c); reflexivity.
Qed.

(* ---------------------------------------------------------------- *)
(** ** More anchor groups than head outputs *)

Lemma decode_loop_short : forall ixs (h : Head) x outs i,
    In i ixs -> length x <= i ->
    exists er h', decode_loop torch_1_10 ixs x outs h = (Raise er, h').
Proof.
  induction ixs as [|j ixs IH]; intros h x outs i Hi L; [destruct Hi|].
  cbn [decode_loop]. unfold bind.
  destruct (decode_step torch_1_10 j x outs h) as [[[x1 o1]|er] h1] eqn:E1.
  - pose proof (decode_step_length _ _ _ _ _ _ _ E1) as L1.
    destruct Hi as [->|Hi].
    + exfalso. unfold decode_step, bind, lift in E1.
      unfold list_get in E1.
      rewrite (proj2 (nth_error_None x i) L) in E1. discriminate E1.
    + apply (IH h1 x1 o1 i Hi). lia.
  - now exists er, h1.
Qed.

Lemma porting_loop_short : forall ixs (h : Head) x outs i,
    In i ixs -> length x <= i ->
    exists er h', porting_loop torch_1_10 ixs x outs h = (Raise er, h').
Proof.
  induction ixs as [|j ixs IH]; intros h x outs i Hi L; [destruct Hi|].
  cbn [porting_loop]. unfold bind.
  destruct (porting_step torch_1_10 j x outs h) as [[[x1 o1]|er] h1] eqn:E1.
  - pose proof (porting_step_length _ _ _ _ _ _ _ E1) as L1.
    destruct Hi as [->|Hi].
    + exfalso. unfold porting_step, bind, lift in E1.
      unfold list_get in E1.
      rewrite (proj2 (nth_error_None x i) L) in E1. discriminate E1.
    + apply (IH h1 x1 o1 i Hi). lia.
  - now exists er, h1.
Qed.

(** X3.  [forward] feeds the loops three head outputs, so a head with more
    than three anchor groups completes no forward pass, in any mode and
    whatever the convolutions return: every call raises. *)
Theorem too_many_anchor_groups :
  forall (MergedHead_forward : nat -> Tensor T -> outcome (Tensor T))
         (h : Head) p3 p4 p5,
    3 < nl h ->
    exists er h',
      forward MergedHead_forward nms_forward torch_1_10 p3 p4 p5 h
      = (Raise er, h').
Proof.
  intros MF h p3 p4 p5 L. rewrite forward_unfold.
  destruct (MF 0 p3) as [x3|er]; [|now exists er, h].
  destruct (MF 1 p4) as [x4|er]; [|now exists er, h].
  destruct (MF 2 p5) as [x5|er]; [|now exists er, h].
  assert (In3 : In 3 (seq 0 (nl h))) by (apply in_seq; lia).
  unfold forward_heads. mstep. destruct (porting h).
  - destruct (porting_loop_short _ h [x3; x4; x5] [] 3 In3 (le_n 3))
      as (er & h' & ->). now exists er, h'.
  - destruct (decode_loop_short _ h [x3; x4; x5] [] 3 In3 (le_n 3))
      as (er & h' & ->). now exists er, h'.
Qed.

(* ---------------------------------------------------------------- *)
(** ** Fewer than four channels per anchor *)

Lemma slice_last_shape : forall lo hi (t : Tensor T) N A H W K,
    shape t = [N; A; H; W; K] ->
    exists s, slice_last lo hi t = Ok s /\
              shape s = [N; A; H; W; Nat.min hi K - Nat.min lo K].
Proof.
  intros lo hi t N A H W K E. unfold slice_last. rewrite E.
  eexists. split; reflexivity.
Qed.

Lemma broadcast_last : forall N A H W j,
    broadcast_shapes [N; A; H; W; j] [1; A; H; W; 2] =
    if (j =? 2) || (j =? 1) then Some [N; A; H; W; 2] else None.
Proof.
  intros. unfold broadcast_shapes, pad_shape. cbn [length Nat.max Nat.sub repeat app].
  cbn [broadcast_dims]. rewrite !Nat.eqb_refl.
  destruct (Nat.eqb_spec j 2) as [->|_]; [|destruct (j =? 1)]; cbn [orb];
    try reflexivity; destruct (Nat.eqb_spec N 1) as [->|_]; reflexivity.
Qed.

Lemma tzip_last_fail : forall op (a b : Tensor T) N A H W,
    shape a = [N; A; H; W; 0] -> shape b = [1; A; H; W; 2] ->
    tzip op a b = Raise RuntimeError.
Proof.
  intros op a b N A H W Ea Eb. unfold tzip.
  now rewrite Ea, Eb, broadcast_last.
Qed.

Lemma tzip_last_one : forall op (a b : Tensor T) N A H W,
    shape a = [N; A; H; W; 1] -> shape b = [1; A; H; W; 2] ->
    exists z, tzip op a b = Ok z /\ shape z = [N; A; H; W; 2].
Proof.
  intros op a b N A H W Ea Eb. unfold tzip.
  rewrite Ea, Eb, broadcast_last. eexists. split; reflexivity.
Qed.

Lemma set_slice_last_fail : forall lo hi (t v : Tensor T) N A H W K,
    shape t = [N; A; H; W; K] -> shape v = [N; A; H; W; 2] ->
    Nat.min hi K - Nat.min lo K = 1 ->
    set_slice_last lo hi t v = Raise RuntimeError.
Proof.
  intros lo hi t v N A H W K Et Ev M. unfold set_slice_last.
  rewrite Et, Ev. unfold slice_shape. cbn [map_last]. rewrite M.
  unfold expandable. cbn [length Nat.leb Nat.sub skipn combine forallb fst snd].
  rewrite !Nat.eqb_refl. reflexivity.
Qed.

(** With fewer than four channels the assignments of lines 294-295 have
    nothing of the right extent to write to. *)
Lemma decode_boxes_few_channels : forall (x G AS : Tensor T) (s : T) N A H W K,
    shape x = [N; A; H; W; K] -> K < 4 ->
    shape G = [1; A; H; W; 2] -> shape AS = [1; A; H; W; 2] ->
    decode_boxes x G AS s = Raise RuntimeError.
Proof.
  intros x G AS s N A H W K Ex HK EG EAS. unfold decode_boxes.
  set (y0 := tmap s_sigmoid x).
  assert (Ey0 : shape y0 = [N; A; H; W; K]) by exact Ex.
  destruct (slice_last_shape 0 2 y0 N A H W K Ey0) as (xy & -> & Exy).
  cbn [obind].
  destruct K as [|[|K]].
  - (* no channel: nothing to add the grid to *)
    now rewrite (tzip_last_fail s_add
                   (tmap (fun v => s_sub v s_half)
                         (tmap (fun v => s_mul v s_two) xy)) G N A H W Exy EG).
  - (* one channel: two centre values for one place *)
    destruct (tzip_last_one s_add
                (tmap (fun v => s_sub v s_half)
                      (tmap (fun v => s_mul v s_two) xy)) G N A H W Exy EG)
      as (xy3 & -> & Exy3). cbn [obind].
    now rewrite (set_slice_last_fail 0 2 y0 (tmap (fun v => s_mul v s) xy3)
                                     N A H W 1 Ey0 Exy3).
  - (* two or three channels: the centre is written, the size is not *)
    assert (Exy' : shape xy = [N; A; H; W; 2]).
    { exact Exy. }
    destruct (tzip_lead1 s_add
                (tmap (fun v => s_sub v s_half)
                      (tmap (fun v => s_mul v s_two) xy)) G N [A; H; W; 2]
                Exy' EG)
      as (xy3 & -> & Exy3 & _). cbn [obind].
    destruct (set_slice_last_5 0 2 y0 (tmap (fun v => s_mul v s) xy3)
                               N A H W (S (S K)) Ey0 Exy3)
      as (y1 & -> & Ey1 & _); [lia | lia |]. cbn [obind].
    destruct (slice_last_shape 2 4 y1 N A H W (S (S K)) Ey1) as (wh & -> & Ewh).
    cbn [obind].
    set (wh1 := tmap (fun v => s_mul v s_two) wh).
    destruct (tzip_same s_mul wh1 wh1 eq_refl) as (wh2 & -> & Ewh2 & _).
    cbn [obind].
    assert (Ewh2' : shape wh2 = [N; A; H; W;
                                 Nat.min 4 (S (S K)) - Nat.min 2 (S (S K))])
      by (rewrite Ewh2; exact Ewh).
    destruct K as [|[|K]]; [| |lia].
    + now rewrite (tzip_last_fail s_mul wh2 AS N A H W Ewh2' EAS).
    + destruct (tzip_last_one s_mul wh2 AS N A H W Ewh2' EAS)
        as (wh3 & -> & Ewh3). cbn [obind].
      now rewrite (set_slice_last_fail 2 4 y1 wh3 N A H W 3 Ey1 Ewh3).
Qed.

Lemma decode_step_few_channels : forall (h : Head) x outs i xi N K H W,
    head_ok h -> training h = false -> porting h = false ->
    i < nl h -> i < length (strides h) ->
    nth_error x i = Some xi -> shape xi = [N; na h * K; H; W] -> K < 4 ->
    exists h',
      decode_step torch_1_10 i x outs h = (Raise RuntimeError, h') /\
      grids_only h h' /\ slot_built h' i H W.
Proof.
  intros h x outs i xi N K H W OK Tr Po Hi Hs Ex Sx HK.
  destruct (reshape_spec h xi N K H W (ok_na h OK) Sx) as (xi' & Er & Sx' & _).
  destruct (lookup_grid_spec torch_1_10 h i xi' N (na h) H W K OK Po Hi Hs Sx')
    as (g & ag & El & Gg & Gag).
  set (h' := set_grids h (list_update (grid h) i g)
                         (list_update (anchor_grid h) i ag)) in *.
  destruct (ok_slots h OK i Hi) as (g0 & ag0 & Eg0 & Eag0 & _).
  destruct Gag as [Sag (s & Es & Vag)].
  destruct Gg as [Sg Vg].
  exists h'. split.
  { unfold decode_step. mstep.
    rewrite (list_get_ok _ _ _ _ Ex), Er.
    rewrite (list_set_ok _ _ _ _ (nth_error_lt _ _ _ _ Ex)).
    rewrite Tr. cbn [negb]. rewrite Sx', El.
    unfold h'. cbn [grid anchor_grid strides set_grids].
    rewrite (list_get_ok _ _ i g),
            (list_get_ok _ _ i s Es),
            (list_get_ok _ _ i ag);
      try (apply nth_error_list_update_eq; eapply nth_error_lt; eassumption).
    now rewrite (decode_boxes_few_channels xi' g ag s N (na h) H W K Sx' HK Sg Sag). }
  split. { apply grids_only_set. }
  exists g, ag. unfold h'. cbn [grid anchor_grid set_grids na].
  rewrite !nth_error_list_update_eq by (eapply nth_error_lt; eassumption).
  split; [reflexivity|]. split; [reflexivity|].
  split; [split; assumption|].
  split; [assumption|]. exists s. split; assumption.
Qed.

(** X6.  Head outputs with fewer than four channels per anchor are not
    decoded as shorter candidates: the inference call raises
    [RuntimeError] at the first scale, in the assignment of the box centre
    or of the box size, after the grids of that scale have been put into
    the cache. *)
Theorem few_channels_raise : forall (h : Head) x x0 N K H W,
    head_ok h -> training h = false -> porting h = false ->
    0 < length (strides h) ->
    nth_error x 0 = Some x0 -> shape x0 = [N; na h * K; H; W] -> K < 4 ->
    exists h',
      forward_heads nms_forward torch_1_10 x h = (Raise RuntimeError, h') /\
      grids_only h h' /\ slot_built h' 0 H W.
Proof.
  intros h x x0 N K H W OK Tr Po Hs Ex Sx HK.
  destruct (decode_step_few_channels h x [] 0 x0 N K H W OK Tr Po
                                     (ok_nl h OK) Hs Ex Sx HK)
    as (h' & Ed & G & B).
  exists h'. split; [|split; assumption].
  apply forward_heads_raise; [exact Po|].
  rewrite (seq_split_at (nl h) 0 (ok_nl h OK)).
  apply (decode_loop_fail_at torch_1_10 [] 0 _ x [] h x [] h RuntimeError h');
    [reflexivity | exact Ed].
Qed.
End MoreHeadFacts.

(* ================================================================== *)
(** * Further properties of the construction *)

Section MoreInitFacts.
Context {T : Type} {SC : Scalar T}.

Lemma forallb_length_false : forall (r0 : list T) (rows : list (list T)),
    ~ Forall (fun r : list T => length r = length r0) rows ->
    forallb (fun r => length r =? length r0) rows = false.
Proof.
  intros r0 rows NF.
  destruct (forallb (fun r => length r =? length r0) rows) eqn:E; [|reflexivity].
  exfalso. apply NF. apply Forall_forall. intros r Hr.
  apply Nat.eqb_eq. exact (proj1 (forallb_forall _ rows) E r Hr).
Qed.

Lemma forallb_length_true : forall (r0 : list T) (rows : list (list T)),
    Forall (fun r => length r = length r0) rows ->
    forallb (fun r => length r =? length r0) rows = true.
Proof.
  intros r0 rows F. apply forallb_forall. intros r Hr.
  apply Nat.eqb_eq. exact (proj1 (Forall_forall _ rows) F r Hr).
Qed.

(** X4.  The anchors are checked by what the constructor does with them,
    before the thresholds and the activation are looked at: an empty
    sequence raises [IndexError] (at [anchors[0]]), rows of different
    lengths raise [ValueError] (no tensor can be made of them), and rows of
    an odd length raise [RuntimeError] (they do not split into pairs). *)
Theorem anchors_refused :
  forall D w r act strides_arg (rows : list (list T)) at_arg conf iou,
    (rows = [] ->
     AnchornizedFaceQuality_init D w r act strides_arg (Some rows)
                                 at_arg conf iou = Raise IndexError) /\
    (forall r0 rest,
        rows = r0 :: rest ->
        ~ Forall (fun r => length r = length r0) rows ->
        AnchornizedFaceQuality_init D w r act strides_arg (Some rows)
                                    at_arg conf iou = Raise ValueError) /\
    (forall r0 rest,
        rows = r0 :: rest ->
        Forall (fun r => length r = length r0) rows ->
        Nat.odd (length r0) = true ->
        AnchornizedFaceQuality_init D w r act strides_arg (Some rows)
                                    at_arg conf iou = Raise RuntimeError).
Proof.
  intros D w r act strides_arg rows at_arg conf iou. split; [|split].
  - intros ->. reflexivity.
  - intros r0 rest -> NF. unfold AnchornizedFaceQuality_init. cbn [obind].
    unfold tensor_of_rows. now rewrite (forallb_length_false r0 _ NF).
  - intros r0 rest -> F Odd. unfold AnchornizedFaceQuality_init. cbn [obind].
    unfold tensor_of_rows. rewrite (forallb_length_true r0 _ F). cbn [obind].
    unfold view_infer. cbn [shape].
    set (n := length (r0 :: rest)). set (L := length r0).
    assert (Hn : 0 < n) by (unfold n; cbn [length]; lia).
    assert (Kn : numel [n] * numel [2] = n * 2) by (simpl; lia).
    assert (Tt : numel [n; L] = n * L) by (simpl; lia).
    rewrite Kn, Tt.
    destruct (Nat.eqb_spec (n * 2) 0) as [Z|_]; [lia|].
    rewrite Nat.Div0.mul_mod_distr_l.
    assert (M : L mod 2 = 1).
    { unfold L. rewrite <- Nat.bit0_mod, Nat.bit0_odd, Odd. reflexivity. }
    rewrite M, Nat.mul_1_r.
    destruct (Nat.eqb_spec n 0) as [Z|_]; [lia | reflexivity].
Qed.

Lemma nth_concat_uniform : forall (rows : list (list T)) L i j d,
    Forall (fun r => length r = L) rows -> i < length rows -> j < L ->
    nth (i * L + j) (concat rows) d = nth j (nth i rows []) d.
Proof.
  induction rows as [|r0 rows IH]; intros L i j d F Hi Hj; simpl in Hi; [lia|].
  inversion F as [|? ? E0 F']; subst. cbn [concat].
  destruct i as [|i]; cbn [nth].
  - rewrite Nat.mul_0_l, Nat.add_0_l. apply app_nth1. exact Hj.
  - rewrite app_nth2 by (simpl; lia).
    replace (S i * length r0 + j - length r0) with (i * length r0 + j)
      by (simpl; lia).
    apply IH; [exact F' | lia | exact Hj].
Qed.

(** X5.  A constructed head has one scale per row of anchors and half as
    many anchors per scale as the first row has numbers; the numbers of a
    row are taken two by two, anchor [a] of scale [i] being
    (rows[i][2a], rows[i][2a+1]). *)
Theorem anchors_paired :
  forall D w r act strides_arg (rows : list (list T)) at_arg conf iou (h : Head)
         i a k,
    AnchornizedFaceQuality_init D w r act strides_arg (Some rows)
                                at_arg conf iou = Ok h ->
    i < nl h -> a < na h -> k < 2 ->
    nl h = length rows /\
    na h = length (hd [] rows) / 2 /\
    tget (anchors h) [i; a; k] = nth (2 * a + k) (nth i rows []) s_zero.
Proof.
  intros D w r act strides_arg rows at_arg conf iou h i a k E Hi Ha Hk.
  unfold AnchornizedFaceQuality_init in E.
  apply obind_inv in E as (row0 & E0 & E).
  apply obind_inv in E as (t & Et & E).
  apply obind_inv in E as (an & Ean & E).
  apply obind_inv in E as (n & En & E).
  apply obind_inv in E as (p3 & E3 & E).
  apply obind_inv in E as (p4 & E4 & E).
  apply obind_inv in E as (p5 & E5 & E).
  injection E as <-.
  lazy beta iota delta [nl na anchors] in Hi, Ha |- *.
  destruct rows as [|r0 rest]; [discriminate|]. injection E0 as <-.
  cbn [hd]. split; [reflexivity|]. split; [reflexivity|].
  unfold tensor_of_rows in Et.
  destruct (forallb (fun r => length r =? length r0) (r0 :: rest)) eqn:U;
    [|discriminate].
  injection Et as <-.
  set (rows := r0 :: rest) in *. set (L := length r0) in *.
  assert (F : Forall (fun r => length r = L) rows).
  { apply Forall_forall. intros r' Hr. apply Nat.eqb_eq.
    exact (proj1 (forallb_forall _ rows) U r' Hr). }
  unfold view_infer in Ean.
  lazy beta iota delta [shape data] in Ean.
  assert (Kn : numel [length rows] * numel [2] = length rows * 2) by (simpl; lia).
  assert (Tt : numel [length rows; L] = length rows * L) by (simpl; lia).
  change (S (length rest)) with (length rows) in Ean.
  rewrite Kn, Tt in Ean.
  destruct (length rows * 2 =? 0); [discriminate|].
  destruct (Nat.eqb_spec ((length rows * L) mod (length rows * 2)) 0)
    as [M|_]; [|discriminate].
  assert (Ean' := f_equal (fun o => match o with Ok t => t | Raise _ => an end)
                          Ean).
  cbv beta iota in Ean'. subst an. clear Ean.
  assert (Hn : 0 < length rows) by (unfold rows; cbn [length]; lia).
  rewrite Nat.Div0.mul_mod_distr_l in M.
  assert (M2 : L mod 2 = 0) by nia.
  pose proof (Nat.div_mod_eq L 2) as DL.
  unfold tget. lazy beta iota delta [shape data].
  rewrite Nat.Div0.div_mul_cancel_l by lia.
  assert (R : ravel ([length rows] ++ [L / 2; 2]) [i; a; k] = i * L + (2 * a + k)).
  { cbn [app ravel numel fold_right]. nia. }
  cbn [app] in R |- *. rewrite R.
  change (r0 ++ concat rest) with (concat rows).
  change (a < L / 2) in Ha.
  apply nth_concat_uniform; [exact F | exact Hi | lia].
Qed.

End MoreInitFacts.

(* ================================================================== *)
(** * The objectness prior *)

Section BiasFacts.

Lemma view_infer_rows : forall (b : Tensor R) a k,
    shape b = [a * k] -> 0 < k ->
    view_infer [] [k] b = Ok (mkTensor [a; k] (data b)).
Proof.
  intros b a k E Hk. unfold view_infer. rewrite E.
  assert (Kn : numel [] * numel [k] = k) by (simpl; lia).
  assert (Tt : numel [a * k] = a * k) by (simpl; lia).
  rewrite Kn, Tt.
  destruct (Nat.eqb_spec k 0) as [Z|_]; [lia|].
  rewrite Nat.Div0.mod_mul, Nat.div_mul by lia. reflexivity.
Qed.

Lemma view_infer_all : forall t : Tensor R,
    view_infer [] [] t = Ok (mkTensor [numel (shape t)] (data t)).
Proof.
  intros t. unfold view_infer.
  change (numel [] * numel []) with 1. cbn [Nat.eqb].
  rewrite Nat.mod_1_r, Nat.div_1_r. reflexivity.
Qed.

Lemma objectness_prior_ok : forall s, s <> 0%R -> objectness_prior s = Ok (prior s).
Proof.
  intros s NZ. unfold objectness_prior.
  destruct (Req_dec_T s 0) as [Z|_]; [contradiction | reflexivity].
Qed.

Lemma objectness_prior_zero : objectness_prior 0 = Raise ZeroDivisionError.
Proof.
  unfold objectness_prior.
  destruct (Req_dec_T 0 0) as [_|NZ]; [reflexivity | now destruct NZ].
Qed.

Lemma bias_step_unfold : forall nattr k (b : Tensor R) a s,
    (5 + nattr)%Z = Z.of_nat k -> 4 < k -> shape b = [a * k] ->
    bias_step nattr b s =
    let! d := objectness_prior s in
    Ok (mkTensor [a * k] (data (add_column_4 (mkTensor [a; k] (data b)) d))).
Proof.
  intros nattr k b a s Ek Hk Sb. unfold bias_step. rewrite Ek, Nat2Z.id.
  destruct (Z.leb_spec (Z.of_nat k) 0) as [L|_]; [lia|].
  rewrite (view_infer_rows b a k Sb) by lia. cbn [obind].
  destruct (Nat.leb_spec k 4) as [L|_]; [lia|]. cbn [obind].
  destruct (objectness_prior s) as [d|e]; [|reflexivity]. cbn [obind].
  rewrite view_infer_all.
  assert (Nm : numel (shape (add_column_4 (mkTensor [a; k] (data b)) d)) = a * k).
  { unfold add_column_4. cbn [shape tabulate numel fold_right]. lia. }
  now rewrite Nm.
Qed.

Lemma bias_step_ok : forall nattr k (b : Tensor R) s,
    (5 + nattr)%Z = Z.of_nat k -> 4 < k -> bias_ok k b -> s <> 0%R ->
    exists b', bias_step nattr b s = Ok b' /\ shifted k (prior s) b b'.
Proof.
  intros nattr k b s Ek Hk [Wb (a & Sb)] NZ.
  rewrite (bias_step_unfold nattr k b a s Ek Hk Sb).
  rewrite (objectness_prior_ok s NZ). cbn [obind].
  eexists. split; [reflexivity|].
  set (b2 := mkTensor [a; k] (data b)).
  split; [now rewrite Sb|]. split.
  { unfold wf, add_column_4, tabulate. cbn [data shape b2].
    rewrite length_map, length_seq. cbn [numel fold_right]. lia. }
  intros j Hj. rewrite Sb in Hj.
  assert (Hj' : j < numel [a; k]) by (simpl in *; lia).
  assert (Hj1 : j < a * k) by (simpl in Hj; lia).
  assert (Kpos : k <> 0) by lia.
  transitivity (tget (add_column_4 b2 (prior s)) (unravel [a; k] j)).
  { apply tget_same_offset; [reflexivity|].
    cbn [shape add_column_4 tabulate b2]. rewrite ravel_unravel by exact Hj'.
    simpl. lia. }
  unfold add_column_4. cbn [shape b2].
  rewrite tget_tabulate by (apply unravel_bounds; exact Hj').
  assert (U : unravel [a; k] j = [j / k; j mod k]).
  { cbn [unravel numel fold_right]. rewrite !Nat.mul_1_r, Nat.div_1_r.
    reflexivity. }
  assert (G : tget b2 (unravel [a; k] j) = tget b [j]).
  { apply tget_same_offset; [reflexivity|].
    cbn [shape b2]. rewrite ravel_unravel by exact Hj'. rewrite Sb. simpl. lia. }
  cbv beta. rewrite G, U. cbn [nth]. reflexivity.
Qed.

Lemma bias_step_zero : forall nattr k (b : Tensor R),
    (5 + nattr)%Z = Z.of_nat k -> 4 < k -> bias_ok k b ->
    bias_step nattr b 0 = Raise ZeroDivisionError.
Proof.
  intros nattr k b Ek Hk [_ (a & Sb)].
  rewrite (bias_step_unfold nattr k b a 0 Ek Hk Sb).
  now rewrite objectness_prior_zero.
Qed.

Lemma shifted_ok : forall k d (b b' : Tensor R),
    shifted k d b b' -> bias_ok k b -> bias_ok k b'.
Proof.
  intros k d b b' (Sh & Wf & _) [_ (a & Sb)].
  split; [exact Wf|]. exists a. now rewrite Sh.
Qed.

Lemma shifted_twice : forall k d e (b b' b'' : Tensor R),
    shifted k d b b' -> shifted k e b' b'' -> shifted k (d + e) b b''.
Proof.
  intros k d e b b' b'' (S1 & W1 & V1) (S2 & W2 & V2).
  split; [congruence|]. split; [exact W2|].
  intros j Hj. rewrite V2 by (rewrite S1; exact Hj). rewrite V1 by exact Hj.
  destruct (j mod k =? 4); [ring | reflexivity].
Qed.

(** The loop when no stride it meets is zero. *)
Lemma bias_loop_ok : forall nattr k ms ss,
    (5 + nattr)%Z = Z.of_nat k -> 4 < k -> Forall (bias_ok k) ms ->
    (forall i s, i < length ms -> nth_error ss i = Some s -> s <> 0%R) ->
    exists ms',
      bias_loop nattr ms ss = (Ok tt, ms') /\ length ms' = length ms /\
      forall i b b',
        nth_error ms i = Some b -> nth_error ms' i = Some b' ->
        match nth_error ss i with
        | Some s => shifted k (prior s) b b'
        | None => b' = b
        end.
Proof.
  intros nattr k ms ss Ek Hk. revert ss.
  induction ms as [|m ms IH]; intros ss F NZ.
  - exists []. split; [reflexivity|]. split; [reflexivity|].
    intros [|i] b b' E; discriminate E.
  - inversion F as [|? ? Fm Fms]; subst.
    destruct ss as [|s ss].
    + exists (m :: ms). split; [reflexivity|]. split; [reflexivity|].
      intros i b b' E E'. destruct i; cbn [nth_error]; congruence.
    + destruct (bias_step_ok nattr k m s Ek Hk Fm) as (m' & Em & Sm).
      { apply (NZ 0 s); [cbn [length]; lia | reflexivity]. }
      destruct (IH ss Fms) as (ms' & El & Len & V).
      { intros i s' Hi E. apply (NZ (S i) s'); [cbn [length]; lia | exact E]. }
      exists (m' :: ms'). cbn [bias_loop]. rewrite Em, El.
      split; [reflexivity|]. split; [cbn [length]; congruence|].
      intros [|i] b b' E E'; cbn [nth_error] in *.
      * injection E as <-. injection E' as <-. exact Sm.
      * exact (V i b b' E E').
Qed.

(** The loop when the first zero stride it meets is at position [i]. *)
Lemma bias_loop_zero : forall nattr k ms ss i,
    (5 + nattr)%Z = Z.of_nat k -> 4 < k -> Forall (bias_ok k) ms ->
    i < length ms -> nth_error ss i = Some 0%R ->
    (forall j s, j < i -> nth_error ss j = Some s -> s <> 0%R) ->
    exists ms',
      bias_loop nattr ms ss = (Raise ZeroDivisionError, ms') /\
      length ms' = length ms /\
      forall j b b',
        nth_error ms j = Some b -> nth_error ms' j = Some b' ->
        (i <= j -> b' = b) /\
        (j < i -> exists s, nth_error ss j = Some s /\ shifted k (prior s) b b').
Proof.
  intros nattr k ms ss i Ek Hk. revert ss i.
  induction ms as [|m ms IH]; intros ss i F Hi Ei NZ; [cbn in Hi; lia|].
  inversion F as [|? ? Fm Fms]; subst.
  destruct ss as [|s ss]; [destruct i; discriminate Ei|].
  destruct i as [|i].
  - injection Ei as ->. exists (m :: ms). cbn [bias_loop].
    rewrite (bias_step_zero nattr k m Ek Hk Fm).
    split; [reflexivity|]. split; [reflexivity|].
    intros j b b' E E'. split; [intros _; congruence | lia].
  - destruct (bias_step_ok nattr k m s Ek Hk Fm) as (m' & Em & Sm).
    { apply (NZ 0 s); [lia | reflexivity]. }
    destruct (IH ss i Fms) as (ms' & El & Len & V).
    { cbn [length] in Hi. lia. }
    { exact Ei. }
    { intros j s' Hj E. apply (NZ (S j) s'); [lia | exact E]. }
    exists (m' :: ms'). cbn [bias_loop]. rewrite Em, El.
    split; [reflexivity|]. split; [cbn [length]; congruence|].
    intros [|j] b b' E E'; cbn [nth_error] in *.
    + injection E as <-. injection E' as <-.
      split; [lia|]. intros _. exists s. split; [reflexivity | exact Sm].
    + destruct (V j b b' E E') as [V1 V2].
      split; [intros L; apply V1; lia | intros L; apply V2; lia].
Qed.

Lemma three_biases : forall ms : list (Tensor R),
    length ms = 3 -> exists b3 b4 b5, ms = [b3; b4; b5].
Proof.
  intros [|b3 [|b4 [|b5 [|? ?]]]] L; try discriminate L.
  now exists b3, b4, b5.
Qed.

(** X7.  [bias_init] adds ln(8 / (640 / s)^2) to channel 4 (objectness) of
    every anchor's group of 5 + nattr channels in the bias of the head
    convolution of each scale that has a stride [s], and leaves every
    other entry, and the bias of a scale without a stride, as it was; the
    argument [stride] plays no part. *)
Theorem bias_init_shifts_objectness :
  forall (h : Head) (stride : R) (b3 b4 b5 : Tensor R) k,
    (5 + nattr h)%Z = Z.of_nat k -> 4 < k ->
    Forall (bias_ok k) [b3; b4; b5] ->
    (forall i s, i < 3 -> nth_error (strides h) i = Some s -> s <> 0%R) ->
    exists b3' b4' b5',
      bias_init h stride b3 b4 b5 = (Ok tt, [b3'; b4'; b5']) /\
      forall i b b',
        nth_error [b3; b4; b5] i = Some b ->
        nth_error [b3'; b4'; b5'] i = Some b' ->
        match nth_error (strides h) i with
        | Some s => shifted k (prior s) b b'
        | None => b' = b
        end.
Proof.
  intros h stride b3 b4 b5 k Ek Hk F NZ.
  destruct (bias_loop_ok (nattr h) k [b3; b4; b5] (strides h) Ek Hk F NZ)
    as (ms' & El & Len & V).
  destruct (three_biases ms' Len) as (b3' & b4' & b5' & ->).
  exists b3', b4', b5'. split; [exact El | exact V].
Qed.

(** X8.  A zero stride makes [bias_init] raise [ZeroDivisionError] when
    the loop reaches it: the biases of the scales before it have been
    replaced by the shifted ones, its own and the later ones are
    untouched. *)
Theorem bias_init_zero_stride :
  forall (h : Head) (stride : R) (b3 b4 b5 : Tensor R) k i,
    (5 + nattr h)%Z = Z.of_nat k -> 4 < k ->
    Forall (bias_ok k) [b3; b4; b5] ->
    i < 3 -> nth_error (strides h) i = Some 0%R ->
    (forall j s, j < i -> nth_error (strides h) j = Some s -> s <> 0%R) ->
    exists b3' b4' b5',
      bias_init h stride b3 b4 b5 = (Raise ZeroDivisionError, [b3'; b4'; b5']) /\
      forall j b b',
        nth_error [b3; b4; b5] j = Some b ->
        nth_error [b3'; b4'; b5'] j = Some b' ->
        (i <= j -> b' = b) /\
        (j < i -> exists s, nth_error (strides h) j = Some s /\
                            shifted k (prior s) b b').
Proof.
  intros h stride b3 b4 b5 k i Ek Hk F Hi Ei NZ.
  destruct (bias_loop_zero (nattr h) k [b3; b4; b5] (strides h) i Ek Hk F
                           Hi Ei NZ)
    as (ms' & El & Len & V).
  destruct (three_biases ms' Len) as (b3' & b4' & b5' & ->).
  exists b3', b4', b5'. split; [exact El | exact V].
Qed.

(** X9.  [bias_init] is not idempotent: a second call adds the prior a
    second time. *)
Theorem bias_init_twice :
  forall (h : Head) (s1 s2 : R) (b3 b4 b5 : Tensor R) k,
    (5 + nattr h)%Z = Z.of_nat k -> 4 < k ->
    Forall (bias_ok k) [b3; b4; b5] ->
    (forall i s, i < 3 -> nth_error (strides h) i = Some s -> s <> 0%R) ->
    exists b3' b4' b5' c3 c4 c5,
      bias_init h s1 b3 b4 b5 = (Ok tt, [b3'; b4'; b5']) /\
      bias_init h s2 b3' b4' b5' = (Ok tt, [c3; c4; c5]) /\
      forall i b c,
        nth_error [b3; b4; b5] i = Some b ->
        nth_error [c3; c4; c5] i = Some c ->
        match nth_error (strides h) i with
        | Some s => shifted k (prior s + prior s) b c
        | None => c = b
        end.
Proof.
  intros h s1 s2 b3 b4 b5 k Ek Hk F NZ.
  destruct (bias_loop_ok (nattr h) k [b3; b4; b5] (strides h) Ek Hk F NZ)
    as (ms' & El & Len & V).
  destruct (three_biases ms' Len) as (b3' & b4' & b5' & ->).
  assert (F' : Forall (bias_ok k) [b3'; b4'; b5']).
  { inversion F as [|? ? F3 F45]; subst.
    inversion F45 as [|? ? F4 F5']; subst.
    inversion F5' as [|? ? F5 _]; subst.
    assert (P : forall i b b', nth_error [b3; b4; b5] i = Some b ->
                               nth_error [b3'; b4'; b5'] i = Some b' ->
                               bias_ok k b -> bias_ok k b').
    { intros i b b' E E' B. specialize (V i b b' E E').
      destruct (nth_error (strides h) i) as [s|].
      - exact (shifted_ok k _ b b' V B).
      - now subst b'. }
    apply Forall_cons; [exact (P 0 b3 b3' eq_refl eq_refl F3)|].
    apply Forall_cons; [exact (P 1 b4 b4' eq_refl eq_refl F4)|].
    apply Forall_cons; [exact (P 2 b5 b5' eq_refl eq_refl F5)|].
    apply Forall_nil. }
  destruct (bias_loop_ok (nattr h) k [b3'; b4'; b5'] (strides h) Ek Hk F' NZ)
    as (ms'' & El' & Len' & V').
  destruct (three_biases ms'' Len') as (c3 & c4 & c5 & ->).
  exists b3', b4', b5', c3, c4, c5.
  split; [exact El|]. split; [exact El'|].
  intros i b c E E''.
  destruct (nth_error [b3'; b4'; b5'] i) as [b'|] eqn:E'.
  - specialize (V i b b' E E'). specialize (V' i b' c E' E'').
    destruct (nth_error (strides h) i) as [s|].
    + exact (shifted_twice k _ _ b b' c V V').
    + congruence.
  - apply nth_error_None in E'. apply nth_error_lt in E.
    cbn [length] in *. lia.
Qed.

(** X10.  With fewer than five channels per anchor (a negative [nattr])
    there is no channel 4: [bias_init] of a head with at least one stride
    raises before it changes anything. *)
Theorem bias_init_no_objectness :
  forall (h : Head) (stride : R) (b3 b4 b5 : Tensor R),
    (nattr h < 0)%Z -> strides h <> [] ->
    exists e, bias_init h stride b3 b4 b5 = (Raise e, [b3; b4; b5]) /\
              (e = IndexError \/ e = RuntimeError).
Proof.
  intros h stride b3 b4 b5 Neg NE. unfold bias_init.
  destruct (strides h) as [|s ss]; [contradiction|]. cbn [bias_loop].
  unfold bias_step.
  destruct (Z.leb_spec (5 + nattr h) 0) as [L|L].
  - exists RuntimeError. split; [reflexivity | now right].
  - destruct (view_infer [] [Z.to_nat (5 + nattr h)] b3) as [b|e] eqn:Ev.
    + cbn [obind]. destruct (Nat.leb_spec (Z.to_nat (5 + nattr h)) 4) as [_|G];
        [|lia].
      exists IndexError. split; [reflexivity | now left].
    + exists e. split; [reflexivity|]. right.
      unfold view_infer in Ev.
      destruct (_ =? 0); [congruence|].
      destruct (_ =? 0); [discriminate | congruence].
Qed.

End BiasFacts.

(* ================================================================== *)
(** * Folding the batch normalisation into the convolution *)

Section FuseFacts.

Lemma rsum_scale : forall (f g : nat -> R) (c : R) (l : list nat),
    (forall j, In j l -> f j = (c * g j)%R) ->
    rsum (map f l) = (c * rsum (map g l))%R.
Proof.
  intros f g c l. induction l as [|j l IH]; intros E; cbn [map rsum fold_right].
  - ring.
  - fold (rsum (map f l)). fold (rsum (map g l)).
    rewrite IH by (intros j' Hj'; apply E; now right).
    rewrite (E j) by now left. ring.
Qed.

Lemma unravel_row : forall c rest o j,
    j < numel rest ->
    unravel (c :: rest) (o * numel rest + j) = o :: unravel rest j.
Proof.
  intros c rest o j Hj. cbn [unravel].
  assert (D : (o * numel rest + j) / numel rest = o).
  { rewrite Nat.div_add_l by lia. rewrite (Nat.div_small j) by exact Hj. lia. }
  assert (M : (o * numel rest + j) mod numel rest = j).
  { rewrite (Nat.add_comm (o * numel rest) j), Nat.Div0.mod_add.
    now apply Nat.mod_small. }
  now rewrite D, M.
Qed.

Lemma nth_data_tget : forall (t : Tensor R) J,
    J < numel (shape t) -> nth J (data t) 0%R = tget t (unravel (shape t) J).
Proof. intros t J L. unfold tget. now rewrite ravel_unravel. Qed.

Lemma tget_channel : forall (t : Tensor R) c o,
    shape t = [c] -> tget t [o] = nth o (data t) 0%R.
Proof.
  intros t c o E. unfold tget. rewrite E. cbn [ravel numel fold_right].
  f_equal. lia.
Qed.

Lemma broadcast_channel : forall co ci kh kw,
    broadcast_shapes [co; ci; kh; kw] [co; 1; 1; 1] = Some [co; ci; kh; kw].
Proof.
  intros. unfold broadcast_shapes, pad_shape.
  cbn [length Nat.max Nat.sub repeat app broadcast_dims].
  destruct (kw =? 1); destruct (kh =? 1); destruct (ci =? 1);
    cbn [Nat.eqb]; rewrite !Nat.eqb_refl; reflexivity.
Qed.

Lemma view_infer_channel : forall (t : Tensor R) c,
    shape t = [c] ->
    view_infer [] [1; 1; 1] t = Ok (mkTensor [c; 1; 1; 1] (data t)).
Proof.
  intros t c E. unfold view_infer. rewrite E.
  change (numel [] * numel [1; 1; 1]) with 1. cbn [Nat.eqb].
  rewrite Nat.mod_1_r, Nat.div_1_r. cbn [Nat.eqb app numel fold_right].
  now rewrite Nat.mul_1_r.
Qed.

(** Entry [j] of filter [o] of the product [w * t] of lines 44-45. *)
Lemma scale_filters : forall (w ws : Tensor R) co ci kh kw,
    shape w = [co; ci; kh; kw] -> shape ws = [co] ->
    exists w', tzip Rmult w (mkTensor [co; 1; 1; 1] (data ws)) = Ok w' /\
               shape w' = [co; ci; kh; kw] /\ wf w' /\
               forall o j, o < co -> j < numel [ci; kh; kw] ->
                 nth (o * numel [ci; kh; kw] + j) (data w') 0%R =
                 (nth (o * numel [ci; kh; kw] + j) (data w) 0 * tget ws [o])%R.
Proof.
  intros w ws co ci kh kw Sw Sws. unfold tzip. cbn [shape].
  rewrite Sw, broadcast_channel.
  eexists. split; [reflexivity|]. split; [reflexivity|].
  split; [apply wf_tabulate|].
  intros o j Ho Hj.
  set (n := numel [ci; kh; kw]) in *.
  assert (HJ : o * n + j < numel [co; ci; kh; kw]).
  { change (numel [co; ci; kh; kw]) with (co * n). nia. }
  match goal with
  | |- nth _ (data ?t) _ = _ => rewrite (nth_data_tget t) by exact HJ; set (w' := t)
  end.
  cbn [shape tabulate w']. unfold w'.
  pose proof (unravel_bounds [co; ci; kh; kw] (o * n + j) HJ) as B.
  rewrite tget_tabulate by exact B.
  rewrite bidx_id by exact B.
  rewrite <- Sw at 1. rewrite <- nth_data_tget by (rewrite Sw; exact HJ).
  f_equal.
  unfold n. rewrite unravel_row by exact Hj. fold n.
  pose proof (Forall2_length (unravel_bounds [ci; kh; kw] j Hj)) as L3.
  destruct (unravel [ci; kh; kw] j) as [|c [|i [|jj [|? ?]]]];
    try discriminate L3.
  unfold bidx. cbn [length Nat.sub skipn map2].
  rewrite (bidx_entry co o Ho). cbn [Nat.eqb].
  rewrite (tget_channel ws co o Sws).
  unfold tget. cbn [shape data ravel numel fold_right]. f_equal. lia.
Qed.

Lemma channelwise : forall op (a b : Tensor R) c,
    shape a = [c] -> shape b = [c] ->
    exists z, tzip op a b = Ok z /\ shape z = [c] /\ wf z /\
              forall o, o < c -> tget z [o] = op (tget a [o]) (tget b [o]).
Proof.
  intros op a b c Sa Sb.
  destruct (tzip_same op a b) as (z & Ez & Sz & Wz & Vz); [congruence|].
  exists z. split; [exact Ez|]. split; [congruence|]. split; [exact Wz|].
  intros o Ho. apply Vz. rewrite Sa. repeat constructor. exact Ho.
Qed.

(** X11.  [fuse] folds the batch normalisation into the convolution
    without changing what the module computes in evaluation mode: for every
    output channel and every input patch, a call of the fused module (the
    new filter's response plus the new bias, then the activation) gives
    the value a call of the original module gives (the filter's response,
    normalised with the running statistics, then the activation).  The
    fused module keeps the filter shape, and fusing it again returns it
    unchanged. *)
Theorem fuse_preserves_outputs :
  forall (m : ConvModuleParams) co ci kh kw,
    fused (layers m) = false -> forward_is_fused m = false ->
    conv_bias m = None ->
    shape (conv_weight m) = [co; ci; kh; kw] ->
    bn_channels co (bn_params m) ->
    exists m',
      fuse m = Ok m' /\ fuse m' = Ok m' /\
      shape (conv_weight m') = [co; ci; kh; kw] /\
      forall o patch, o < co ->
        ConvModule_call m' o patch = ConvModule_call m o patch.
Proof.
  intros m co ci kh kw NF NFF NB Sw BN.
  inversion BN as [|? ? [Sg Wg] BN1]; subst.
  inversion BN1 as [|? ? [Sb Wb] BN2]; subst.
  inversion BN2 as [|? ? [Sm Wm] BN3]; subst.
  inversion BN3 as [|? ? [Sv Wv] _]; subst.
  set (b := bn_params m) in *.
  set (std := tmap sqrt (tmap (fun v => (v + bn_eps b)%R) (running_var b))).
  assert (Sstd : shape std = [co]) by exact Sv.
  assert (Vstd : forall o, o < co ->
             tget std [o] = sqrt (tget (running_var b) [o] + bn_eps b)).
  { intros o Ho. unfold std.
    rewrite tget_tmap;
      [| now apply wf_tmap
       | cbn [shape tmap]; rewrite Sv; repeat constructor; exact Ho].
    rewrite tget_tmap;
      [reflexivity | exact Wv | rewrite Sv; repeat constructor; exact Ho]. }
  destruct (channelwise Rmult (running_mean b) (bn_weight b) co Sm Sg)
    as (mw & Emw & Smw & _ & Vmw).
  destruct (channelwise Rdiv mw std co Smw Sstd) as (mws & Emws & Smws & _ & Vmws).
  destruct (channelwise Rminus (bn_bias b) mws co Sb Smws)
    as (bias & Ebias & Sbias & _ & Vbias).
  destruct (channelwise Rdiv (bn_weight b) std co Sg Sstd)
    as (ws & Ews & Sws & _ & Vws).
  destruct (scale_filters (conv_weight m) ws co ci kh kw Sw Sws)
    as (w' & Ew' & Sw' & _ & Vw').
  eexists. split.
  { unfold fuse. rewrite NF. fold b. fold std.
    rewrite Emw. cbn [obind]. rewrite Emws. cbn [obind].
    rewrite Ebias. cbn [obind]. rewrite Ews. cbn [obind].
    rewrite (view_infer_channel ws co Sws). cbn [obind].
    rewrite Ew'. cbn [obind]. reflexivity. }
  split; [reflexivity|]. split; [exact Sw'|].
  intros o patch Ho.
  unfold ConvModule_call. cbn [forward_is_fused]. rewrite NFF.
  unfold fused_forward, ConvModule_forward. cbn [layers relu]. f_equal.
  unfold batch_norm_eval, conv_value. cbn [conv_bias conv_weight bn_params].
  rewrite NB. fold b.
  unfold filter_response. rewrite Sw', Sw. cbn [tl].
  rewrite (rsum_scale _
             (fun j => (nth (o * numel [ci; kh; kw] + j)
                            (data (conv_weight m)) 0 * nth j patch 0)%R)
             (tget ws [o])).
  2:{ intros j Hj. apply in_seq in Hj. rewrite Vw' by lia. ring. }
  rewrite Vbias, Vmws, Vmw, Vws, Vstd by exact Ho.
  unfold Rdiv. ring.
Qed.

End FuseFacts.

(* ================================================================== *)
(** * The range of the decoded values over the real numbers *)

(** X14.  With a stride that is not negative, the decoded centre of a
    candidate lies within one and a half cells of the corner of its grid
    cell: (col - 1/2) * s <= x <= (col + 3/2) * s, and the same for y
    with the row; the confidence and attribute channels lie between 0 and
    1.  The bounds are not strict. *)
Theorem decoded_centre_near_cell :
  forall torch_1_10 (h : Head) x N K dims i xi hw s n a r col,
    head_ok h -> training h = false -> porting h = false -> 4 <= K ->
    length x = nl h -> nl h <= length (strides h) ->
    raw_ok (na h) N K dims x ->
    nth_error x i = Some xi -> nth_error dims i = Some hw ->
    nth_error (strides h) i = Some s ->
    n < N -> a < na h -> r < fst hw -> col < snd hw ->
    (0 <= s)%R ->
    exists c h',
      candidates torch_1_10 x h = (Ok c, h') /\
      let row := scale_offset (na h) dims i + ((a * fst hw + r) * snd hw + col) in
      ((INR col - 1 / 2) * s <= tget c [n; row; 0]%nat <= (INR col + 3 / 2) * s)%R /\
      ((INR r - 1 / 2) * s <= tget c [n; row; 1]%nat <= (INR r + 3 / 2) * s)%R /\
      forall k, 4 <= k -> k < K -> (0 <= tget c [n; row; k] <= 1)%R.
Proof.
  intros t110 h x N K dims i xi hw s n a r col OK Tr Po HK L Ls Raw Ex Ed Es
         Hn Ha Hr Hc Ps.
  destruct (inference_spec (Tensor R) keep_all t110 h x N K dims OK Tr Po HK L Ls Raw)
    as (c & h' & Ec & _ & _ & _ & _ & _ & _ & V).
  exists c, h'. split; [exact Ec|]. cbn zeta. split; [|split].
  - rewrite (V i xi hw s n a r col 0) by (assumption || lia).
    unfold decoded_entry, box_value.
    cbn [Nat.ltb Nat.leb Nat.eqb s_mul s_add s_sub s_sigmoid s_two s_half
         s_of_nat RScalar].
    pose proof (sigmoid_range (tget xi [n; a * K + 0; r; col])). nra.
  - rewrite (V i xi hw s n a r col 1) by (assumption || lia).
    unfold decoded_entry, box_value.
    cbn [Nat.ltb Nat.leb Nat.eqb s_mul s_add s_sub s_sigmoid s_two s_half
         s_of_nat RScalar].
    pose proof (sigmoid_range (tget xi [n; a * K + 1; r; col])). nra.
  - intros k K4 Kk.
    rewrite (V i xi hw s n a r col k) by (assumption || lia).
    unfold decoded_entry, box_value.
    rewrite (proj2 (Nat.ltb_ge k 2)) by lia.
    rewrite (proj2 (Nat.ltb_ge k 4)) by lia.
    apply sigmoid_range.
Qed.

(* ================================================================== *)
(** * Shapes through the backbone, the neck and the head convolutions *)

From Stdlib Require Import ZifyNat.

Section ShapeFacts.

Ltac dlia := zify; Z.to_euclidean_division_equations; lia.

Lemma half_int_nat : forall c, half_int (Z.of_nat c) = Z.of_nat (c / 2).
Proof.
  intros c. unfold half_int, int_of_Q. cbn [Qmult Qnum Qden inject_Z].
  change (Z.pos (2 * 1)) with 2%Z. rewrite Z.mul_1_l.
  rewrite Z.quot_div_nonneg by lia. now rewrite Nat2Z.inj_div.
Qed.

(** The convolution of a layer of one group on a batched input. *)
Lemma conv2d_shape : forall ci co k s p bias N H W,
    1 <= k -> 1 <= s ->
    Shapes.conv2d (mkConv2d (Z.of_nat ci) (Z.of_nat co) (Z.of_nat k)
                            (Z.of_nat s) (Z.of_nat p) 1 bias) [N; ci; H; W] =
    if co =? 0 then Raise RuntimeError
    else Shapes.windowed k s p co [N] H W.
Proof.
  intros ci co k s p bias N H W Lk Ls. unfold Shapes.conv2d.
  cbn [in_channels out_channels kernel_size conv_stride padding groups].
  rewrite !Nat2Z.id, Z.eqb_refl.
  destruct (Z.ltb_spec (Z.of_nat p) 0) as [L|_]; [lia|].
  destruct (Z.leb_spec (Z.of_nat s) 0) as [L|_]; [lia|].
  destruct (Z.leb_spec (Z.of_nat k) 0) as [L|_]; [lia|].
  cbn [orb].
  destruct (Nat.eqb_spec co 0) as [->|NZ]; [reflexivity|].
  destruct (Z.ltb_spec (Z.of_nat co) 1) as [L|_]; [lia | reflexivity].
Qed.

(** A call of a freshly built [ConvModule]: the convolution wants an
    output channel, then batch normalisation more than one value. *)
Lemma conv_module_exact : forall training ci co k s p act m N H W,
    ConvModule_init (Z.of_nat ci) (Z.of_nat co) (Z.of_nat k) (Z.of_nat s)
                    (Z.of_nat p) act 1 = Ok m ->
    1 <= k -> 1 <= s -> k <= H + 2 * p -> k <= W + 2 * p ->
    Shapes.ConvModule_forward training m [N; ci; H; W] =
    if co =? 0 then Raise RuntimeError
    else if bn_accepts training N (Shapes.out_size H k s p)
                       (Shapes.out_size W k s p)
    then Ok [N; co; Shapes.out_size H k s p; Shapes.out_size W k s p]
    else Raise ValueError.
Proof.
  intros training ci co k s p act m N H W E Lk Ls LH LW.
  destruct (ConvModule_init_layers _ _ _ _ _ _ _ _ E) as (_ & Ec & Eb & Ef).
  unfold Shapes.ConvModule_forward. rewrite Ef, Ec.
  rewrite (conv2d_shape ci co k s p false N H W Lk Ls).
  destruct (co =? 0); [reflexivity|]. unfold Shapes.windowed.
  rewrite (proj2 (Nat.leb_le _ _) LH), (proj2 (Nat.leb_le _ _) LW).
  cbn [andb app obind]. unfold Shapes.batch_norm, bn_accepts.
  rewrite Eb, Z.eqb_refl.
  destruct (training && _); reflexivity.
Qed.

Lemma conv_module_shape : forall training ci co k s p act m N H W,
    ConvModule_init (Z.of_nat ci) (Z.of_nat co) (Z.of_nat k) (Z.of_nat s)
                    (Z.of_nat p) act 1 = Ok m ->
    1 <= co -> 1 <= k -> 1 <= s -> k <= H + 2 * p -> k <= W + 2 * p ->
    Shapes.ConvModule_forward training m [N; ci; H; W] =
    if bn_accepts training N (Shapes.out_size H k s p) (Shapes.out_size W k s p)
    then Ok [N; co; Shapes.out_size H k s p; Shapes.out_size W k s p]
    else Raise ValueError.
Proof.
  intros training ci co k s p act m N H W E Lco Lk Ls LH LW.
  rewrite (conv_module_exact training ci co k s p act m N H W E Lk Ls LH LW).
  destruct (Nat.eqb_spec co 0) as [Z|_]; [lia | reflexivity].
Qed.

Lemma out_size_same_1 : forall n, 1 <= n -> Shapes.out_size n 1 1 0 = n.
Proof. intros n L. unfold Shapes.out_size. dlia. Qed.

Lemma out_size_same_3 : forall n, 1 <= n -> Shapes.out_size n 3 1 1 = n.
Proof. intros n L. unfold Shapes.out_size. dlia. Qed.

Lemma out_size_same_5 : forall n, 1 <= n -> Shapes.out_size n 5 1 2 = n.
Proof. intros n L. unfold Shapes.out_size. dlia. Qed.

Lemma out_size_half : forall n, 1 <= n -> Shapes.out_size n 3 2 1 = (n + 1) / 2.
Proof. intros n L. unfold Shapes.out_size. dlia. Qed.

(** The 1x1 and the 3x3 convolutions of stride 1 keep the spatial size. *)
Lemma conv_module_1x1 : forall training ci co act m N H W,
    ConvModule_init (Z.of_nat ci) (Z.of_nat co) 1 1 0 act 1 = Ok m ->
    1 <= co -> 1 <= H -> 1 <= W ->
    Shapes.ConvModule_forward training m [N; ci; H; W] =
    if bn_accepts training N H W then Ok [N; co; H; W] else Raise ValueError.
Proof.
  intros training ci co act m N H W E Lco LH LW.
  rewrite (conv_module_shape training ci co 1 1 0 act m N H W E) by lia.
  now rewrite !out_size_same_1 by assumption.
Qed.

Lemma conv_module_3x3 : forall training ci co act m N H W,
    ConvModule_init (Z.of_nat ci) (Z.of_nat co) 3 1 1 act 1 = Ok m ->
    1 <= co -> 1 <= H -> 1 <= W ->
    Shapes.ConvModule_forward training m [N; ci; H; W] =
    if bn_accepts training N H W then Ok [N; co; H; W] else Raise ValueError.
Proof.
  intros training ci co act m N H W E Lco LH LW.
  rewrite (conv_module_shape training ci co 3 1 1 act m N H W E) by lia.
  now rewrite !out_size_same_3 by assumption.
Qed.

(** The 3x3 convolution of stride 2 halves it, rounding up. *)
Lemma conv_module_down : forall training ci co act m N H W,
    ConvModule_init (Z.of_nat ci) (Z.of_nat co) 3 2 1 act 1 = Ok m ->
    1 <= co -> 1 <= H -> 1 <= W ->
    Shapes.ConvModule_forward training m [N; ci; H; W] =
    if bn_accepts training N ((H + 1) / 2) ((W + 1) / 2)
    then Ok [N; co; (H + 1) / 2; (W + 1) / 2] else Raise ValueError.
Proof.
  intros training ci co act m N H W E Lco LH LW.
  rewrite (conv_module_shape training ci co 3 2 1 act m N H W E) by lia.
  now rewrite !out_size_half by assumption.
Qed.

(** A layer built without output channels cannot be run. *)
Lemma conv_module_no_output : forall training ci k s p act m N H W,
    ConvModule_init (Z.of_nat ci) (Z.of_nat 0) (Z.of_nat k) (Z.of_nat s)
                    (Z.of_nat p) act 1 = Ok m ->
    1 <= k -> 1 <= s ->
    Shapes.ConvModule_forward training m [N; ci; H; W] = Raise RuntimeError.
Proof.
  intros training ci k s p act m N H W E Lk Ls.
  destruct (ConvModule_init_layers _ _ _ _ _ _ _ _ E) as (_ & Ec & Eb & Ef).
  unfold Shapes.ConvModule_forward. rewrite Ef, Ec.
  now rewrite (conv2d_shape ci 0 k s p false N H W Lk Ls).
Qed.

Lemma bottleneck_shape : forall training c add act b N H W,
    DarknetBottleneck_init (Z.of_nat c) (Z.of_nat c) add act = Ok b ->
    2 <= c -> 1 <= H -> 1 <= W -> bn_accepts training N H W = true ->
    Shapes.DarknetBottleneck_forward training b [N; c; H; W] = Ok [N; c; H; W].
Proof.
  intros training c add act b N H W E Lc LH LW BN.
  unfold DarknetBottleneck_init in E. rewrite half_int_nat in E.
  apply obind_inv in E as (m1 & E1 & E).
  apply obind_inv in E as (m2 & E2 & E).
  injection E as <-.
  assert (Lh : 1 <= c / 2) by dlia.
  unfold Shapes.DarknetBottleneck_forward. cbn [shortcut cv1 cv2].
  rewrite (conv_module_3x3 training c (c / 2) act m1 N H W E1 Lh LH LW), BN.
  cbn [obind].
  rewrite (conv_module_3x3 training (c / 2) c act m2 N H W E2 ltac:(lia) LH LW),
          BN.
  cbn [obind]. unfold Shapes.add. rewrite broadcast_shapes_refl.
  now destruct add.
Qed.

(** A bottleneck of one channel halves it to none. *)
Lemma bottleneck_no_channels : forall training c add act b N H W,
    DarknetBottleneck_init (Z.of_nat c) (Z.of_nat c) add act = Ok b ->
    c / 2 = 0 ->
    Shapes.DarknetBottleneck_forward training b [N; c; H; W]
    = Raise RuntimeError.
Proof.
  intros training c add act b N H W E Z.
  unfold DarknetBottleneck_init in E. rewrite half_int_nat, Z in E.
  apply obind_inv in E as (m1 & E1 & E).
  apply obind_inv in E as (m2 & E2 & E).
  injection E as <-.
  unfold Shapes.DarknetBottleneck_forward. cbn [shortcut cv1 cv2].
  rewrite (conv_module_no_output training c 3 1 1 act m1 N H W E1)
    by lia.
  now destruct add.
Qed.

Lemma append_times_inv : forall A n (mk : outcome A) l,
    append_times n mk = Ok l -> length l = n /\ Forall (fun a => mk = Ok a) l.
Proof.
  intros A n mk. induction n as [|n IH]; intros l E; cbn [append_times] in E.
  - injection E as <-. split; [reflexivity | constructor].
  - apply obind_inv in E as (a & Ea & E).
    apply obind_inv in E as (l' & El & E). injection E as <-.
    destruct (IH l' El) as [Len F].
    split; [cbn [length]; congruence | now constructor].
Qed.

Lemma bottleneck_loop_shape : forall training c add act N H W bs coll,
    Forall (fun b => DarknetBottleneck_init (Z.of_nat c) (Z.of_nat c) add act
                     = Ok b) bs ->
    bs = [] \/ 2 <= c ->
    1 <= H -> 1 <= W -> bn_accepts training N H W = true ->
    Shapes.bottleneck_loop training bs [N; c; H; W] coll =
    Ok (coll ++ repeat [N; c; H; W] (length bs)).
Proof.
  intros training c add act N H W bs. induction bs as [|b bs IH];
    intros coll F Lc LH LW BN; cbn [Shapes.bottleneck_loop length repeat].
  - now rewrite app_nil_r.
  - destruct Lc as [Lc|Lc]; [discriminate Lc|].
    inversion F as [|? ? Eb F']; subst.
    rewrite (bottleneck_shape training c add act b N H W Eb Lc LH LW BN).
    cbn [obind]. rewrite (IH _ F' (or_intror Lc) LH LW BN).
    now rewrite <- app_assoc.
Qed.

Lemma cat1_channels : forall cs N H W,
    cs <> [] ->
    Shapes.cat1 (map (fun c => [N; c; H; W]) cs) = Ok [N; list_sum cs; H; W].
Proof.
  intros cs N H W NE. destruct cs as [|c0 cs]; [contradiction|].
  unfold Shapes.cat1. cbn [map].
  assert (F : forallb (Shapes.cat_compatible N [H; W])
                ([N; c0; H; W] :: map (fun c => [N; c; H; W]) cs) = true).
  { apply forallb_forall. intros x Hx.
    assert (Ex : exists c, x = [N; c; H; W]).
    { destruct Hx as [<-|Hx]; [now exists c0|].
      apply in_map_iff in Hx. destruct Hx as (c & <- & _). now exists c. }
    destruct Ex as (c & ->). unfold Shapes.cat_compatible.
    rewrite Nat.eqb_refl.
    destruct (list_eq_dec Nat.eq_dec [H; W] [H; W]); [reflexivity|congruence]. }
  rewrite F. do 3 f_equal.
  change ([N; c0; H; W] :: map (fun c => [N; c; H; W]) cs)
    with (map (fun c => [N; c; H; W]) (c0 :: cs)).
  rewrite map_map. cbn [nth]. now rewrite map_id.
Qed.

Lemma list_sum_repeat : forall c n, list_sum (repeat c n) = n * c.
Proof. induction n as [|n IH]; cbn [repeat list_sum]; [reflexivity | simpl; lia]. Qed.

(** A [CSPLayer_2Conv] as its constructor builds it.  The halved width
    must leave a channel, and with bottlenecks a channel after a second
    halving; then the concatenation has the channels [conv_out] takes,
    whatever the number of bottlenecks, and the spatial size is kept. *)
Lemma csp_layer_shape : forall training ci co add n act l N H W,
    CSPLayer_2Conv_init (Z.of_nat ci) (Z.of_nat co) add (Z.of_nat n) act
    = Ok l ->
    1 <= H -> 1 <= W ->
    Shapes.CSPLayer_2Conv_forward training l [N; ci; H; W] =
    if co / 2 =? 0 then Raise RuntimeError
    else if bn_accepts training N H W
    then if (0 <? n) && (co / 2 / 2 =? 0) then Raise RuntimeError
         else Ok [N; co; H; W]
    else Raise ValueError.
Proof.
  intros training ci co add n act l N H W E LH LW.
  unfold CSPLayer_2Conv_init in E. rewrite half_int_nat, Nat2Z.id in E.
  replace (Z.of_nat (co / 2) * (Z.of_nat n + 2))%Z
    with (Z.of_nat ((2 + n) * (co / 2))) in E by lia.
  apply obind_inv in E as (ml & El & E).
  apply obind_inv in E as (mr & Er & E).
  apply obind_inv in E as (bs & Eb & E).
  apply obind_inv in E as (mo & Eo & E).
  injection E as <-.
  destruct (append_times_inv _ _ _ _ Eb) as [Len F].
  unfold Shapes.CSPLayer_2Conv_forward.
  cbn [conv_in_left conv_in_right bottlenecks conv_out].
  rewrite (conv_module_exact training ci (co / 2) 1 1 0 act ml N H W El)
    by lia.
  destruct (Nat.eqb_spec (co / 2) 0) as [Z|NZ]; [reflexivity|].
  rewrite !out_size_same_1 by assumption.
  destruct (bn_accepts training N H W) eqn:BN; [|reflexivity]. cbn [obind].
  rewrite (conv_module_1x1 training ci (co / 2) act mr N H W Er ltac:(lia)
                           LH LW), BN.
  cbn [obind].
  destruct ((0 <? n) && (co / 2 / 2 =? 0)) eqn:Q.
  - apply andb_prop in Q. destruct Q as [Qn Qc].
    apply Nat.ltb_lt in Qn. apply Nat.eqb_eq in Qc.
    destruct bs as [|b bs]; [cbn [length] in Len; lia|].
    inversion F as [|? ? Fb _]; subst. cbn [Shapes.bottleneck_loop].
    now rewrite (bottleneck_no_channels training (co / 2) add act b N H W Fb Qc).
  - assert (Lc : bs = [] \/ 2 <= co / 2).
    { apply andb_false_iff in Q. destruct Q as [Qn|Qc].
      - left. apply Nat.ltb_ge in Qn. destruct bs; [reflexivity|].
        cbn [length] in Len. lia.
      - right. apply Nat.eqb_neq in Qc. dlia. }
    rewrite (bottleneck_loop_shape training (co / 2) add act N H W bs _ F Lc
                                   LH LW BN).
    cbn [obind]. rewrite Len.
    replace ([[N; co / 2; H; W]; [N; co / 2; H; W]]
               ++ repeat [N; co / 2; H; W] n)
      with (map (fun c => [N; c; H; W]) (repeat (co / 2) (2 + n)))
      by apply map_repeat.
    rewrite cat1_channels by discriminate. cbn [obind].
    rewrite list_sum_repeat.
    rewrite (conv_module_1x1 training _ co act mo N H W Eo ltac:(dlia) LH LW),
            BN.
    reflexivity.
Qed.

(** The same for a layer at least four channels wide. *)
Lemma csp_layer_wide : forall training ci co add n act l N H W,
    CSPLayer_2Conv_init (Z.of_nat ci) (Z.of_nat co) add (Z.of_nat n) act
    = Ok l ->
    4 <= co -> 1 <= H -> 1 <= W ->
    Shapes.CSPLayer_2Conv_forward training l [N; ci; H; W] =
    if bn_accepts training N H W then Ok [N; co; H; W] else Raise ValueError.
Proof.
  intros training ci co add n act l N H W E Lco LH LW.
  rewrite (csp_layer_shape training ci co add n act l N H W E LH LW).
  destruct (Nat.eqb_spec (co / 2) 0) as [Z|_]; [dlia|].
  destruct (Nat.eqb_spec (co / 2 / 2) 0) as [Z|_]; [dlia|].
  now rewrite andb_false_r.
Qed.

Lemma max_pool_same : forall N C H W,
    1 <= H -> 1 <= W ->
    Shapes.max_pool2d (mkMaxPool2d 5 1 (5 / 2)) [N; C; H; W] = Ok [N; C; H; W].
Proof.
  intros N C H W LH LW. unfold Shapes.max_pool2d, Shapes.windowed.
  cbn [pool_kernel pool_stride pool_padding].
  change (Z.to_nat 5) with 5. change (Z.to_nat 1) with 1.
  change (Z.to_nat (5 / 2)) with 2.
  rewrite (proj2 (Nat.leb_le 5 (H + 2 * 2))) by lia.
  rewrite (proj2 (Nat.leb_le 5 (W + 2 * 2))) by lia.
  cbn [andb app]. now rewrite !out_size_same_5 by assumption.
Qed.

Lemma sppf_shape : forall training c act l N H W,
    SPPF_init (Z.of_nat c) 5 act = Ok l ->
    2 <= c -> 1 <= H -> 1 <= W ->
    Shapes.SPPF_forward training l [N; c; H; W] =
    if bn_accepts training N H W then Ok [N; c; H; W] else Raise ValueError.
Proof.
  intros training c act l N H W E Lc LH LW.
  assert (Lh : 1 <= c / 2) by dlia.
  unfold SPPF_init in E.
  replace (Z.of_nat c / 2)%Z with (Z.of_nat (c / 2)) in E
    by (rewrite Nat2Z.inj_div; reflexivity).
  replace (Z.of_nat (c / 2) * 4)%Z with (Z.of_nat (list_sum (repeat (c / 2) 4)))
    in E by (rewrite list_sum_repeat; lia).
  apply obind_inv in E as (m1 & E1 & E).
  apply obind_inv in E as (m2 & E2 & E).
  injection E as <-.
  unfold Shapes.SPPF_forward. cbn [sppf_cv1 sppf_cv2 sppf_m].
  rewrite (conv_module_1x1 training c (c / 2) act m1 N H W E1 Lh LH LW).
  destruct (bn_accepts training N H W) eqn:BN; [|reflexivity]. cbn [obind].
  do 3 (rewrite (max_pool_same N (c / 2) H W LH LW); cbn [obind]).
  change [[N; c / 2; H; W]; [N; c / 2; H; W]; [N; c / 2; H; W];
          [N; c / 2; H; W]]
    with (map (fun c0 => [N; c0; H; W]) (repeat (c / 2) 4)).
  rewrite (cat1_channels (repeat (c / 2) 4) N H W) by discriminate.
  cbn [obind].
  rewrite (conv_module_1x1 training _ c act m2 N H W E2 ltac:(lia) LH LW), BN.
  reflexivity.
Qed.

Lemma merged_head_shape : forall training w oc act m N H W,
    MergedHead_init (Z.of_nat w) oc act = Ok m ->
    1 <= w -> (1 <= oc)%Z -> 1 <= H -> 1 <= W ->
    Shapes.MergedHead_forward training m [N; w; H; W] =
    if bn_accepts training N H W then Ok [N; Z.to_nat oc; H; W]
    else Raise ValueError.
Proof.
  intros training w oc act m N H W E Lw Lo LH LW.
  unfold MergedHead_init in E.
  apply obind_inv in E as (m0 & E0 & E).
  apply obind_inv in E as (m1 & E1 & E).
  apply obind_inv in E as (c2 & E2 & E).
  injection E as <-.
  destruct (Conv2d_init_inv _ _ _ _ _ _ _ _ E2) as [-> _].
  unfold Shapes.MergedHead_forward. cbn [block0 block1 block2].
  rewrite (conv_module_3x3 training w w act m0 N H W E0 Lw LH LW).
  destruct (bn_accepts training N H W) eqn:BN; [|reflexivity]. cbn [obind].
  rewrite (conv_module_3x3 training w w act m1 N H W E1 Lw LH LW), BN.
  cbn [obind].
  replace (mkConv2d (Z.of_nat w) oc 1 1 0 1 true)
    with (mkConv2d (Z.of_nat w) (Z.of_nat (Z.to_nat oc)) (Z.of_nat 1)
                   (Z.of_nat 1) (Z.of_nat 0) 1 true)
    by (rewrite Z2Nat.id by lia; reflexivity).
  rewrite (conv2d_shape w (Z.to_nat oc) 1 1 0 true N H W) by lia.
  destruct (Nat.eqb_spec (Z.to_nat oc) 0) as [Z|_]; [lia|].
  unfold Shapes.windowed.
  rewrite (proj2 (Nat.leb_le 1 (H + 2 * 0))) by lia.
  rewrite (proj2 (Nat.leb_le 1 (W + 2 * 0))) by lia.
  cbn [andb app]. now rewrite !out_size_same_1 by assumption.
Qed.

(** A stage of the backbone halves the spatial size. *)
Lemma stage_shape : forall training ci co n act m l N H W,
    ConvModule_init (Z.of_nat ci) (Z.of_nat co) 3 2 1 act 1 = Ok m ->
    CSPLayer_2Conv_init (Z.of_nat co) (Z.of_nat co) true (Z.of_nat n) act
    = Ok l ->
    4 <= co -> 1 <= H -> 1 <= W ->
    Shapes.stage_forward training (m, l) [N; ci; H; W] =
    if bn_accepts training N ((H + 1) / 2) ((W + 1) / 2)
    then Ok [N; co; (H + 1) / 2; (W + 1) / 2] else Raise ValueError.
Proof.
  intros training ci co n act m l N H W Em El Lco LH LW.
  unfold Shapes.stage_forward. cbn [fst snd].
  rewrite (conv_module_down training ci co act m N H W Em ltac:(lia) LH LW).
  destruct (bn_accepts training N ((H + 1) / 2) ((W + 1) / 2)) eqn:BN;
    [|reflexivity].
  cbn [obind].
  rewrite (csp_layer_wide training co co true n act l N _ _ El Lco)
    by dlia.
  now rewrite BN.
Qed.

(** Batch normalisation takes a map if it takes the map half its size. *)
Lemma bn_accepts_up : forall training N H W,
    1 <= H -> 1 <= W ->
    bn_accepts training N ((H + 1) / 2) ((W + 1) / 2) = true ->
    bn_accepts training N H W = true.
Proof.
  intros training N H W LH LW. unfold bn_accepts.
  destruct training; [|reflexivity]. cbn [andb]. intros BN.
  destruct (Nat.eqb_spec (N * (H * W)) 1) as [E|_]; [|reflexivity].
  apply Nat.eq_mul_1 in E. destruct E as [-> E].
  apply Nat.eq_mul_1 in E. destruct E as [-> ->].
  vm_compute in BN. discriminate BN.
Qed.

Lemma bn_accepts_halve : forall training N H W,
    1 <= H -> 1 <= W ->
    bn_accepts training N (halve H) (halve W) = true ->
    bn_accepts training N H W = true.
Proof. exact bn_accepts_up. Qed.

Lemma halve_pos : forall n, 1 <= n -> 1 <= halve n.
Proof. intros n L. unfold halve. dlia. Qed.

(** A convolution on a map with no rows or no columns. *)
Lemma conv_module_empty : forall training ci co act m N H W,
    ConvModule_init (Z.of_nat ci) (Z.of_nat co) 3 2 1 act 1 = Ok m ->
    H = 0 \/ W = 0 ->
    Shapes.ConvModule_forward training m [N; ci; H; W] = Raise RuntimeError.
Proof.
  intros training ci co act m N H W E Z.
  destruct (ConvModule_init_layers _ _ _ _ _ _ _ _ E) as (_ & Ec & Eb & Ef).
  unfold Shapes.ConvModule_forward. rewrite Ef, Ec.
  pose proof (conv2d_shape ci co 3 2 1 false N H W ltac:(lia) ltac:(lia)) as C.
  change (Z.of_nat 3) with 3%Z in C. change (Z.of_nat 2) with 2%Z in C.
  change (Z.of_nat 1) with 1%Z in C. rewrite C.
  destruct (co =? 0); [reflexivity|]. unfold Shapes.windowed.
  assert (F : (3 <=? H + 2 * 1) && (3 <=? W + 2 * 1) = false).
  { destruct Z as [-> | ->]; [reflexivity|].
    apply andb_false_intro2. reflexivity. }
  now rewrite F.
Qed.

(** The backbone of [yolov8n_facecap_v2]: three stages of halving give
    P3, one more P4, one more P5. *)
Lemma backbone_shape : forall training b N H W,
    YOLOv8Backbone_init (33 # 100) (1 # 4) 2 "relu6" = Ok b ->
    1 <= H -> 1 <= W ->
    let h3 := halve (halve (halve H)) in
    let w3 := halve (halve (halve W)) in
    Shapes.YOLOv8Backbone_forward training b [N; 3; H; W] =
    if bn_accepts training N (halve (halve h3)) (halve (halve w3))
    then Ok ([N; 64; h3; w3], [N; 128; halve h3; halve w3],
             [N; 256; halve (halve h3); halve (halve w3)])
    else Raise ValueError.
Proof.
  intros training b N H W E LH LW h3 w3.
  unfold YOLOv8Backbone_init in E.
  apply obind_inv in E as (stem & Estem & E).
  apply obind_inv in E as (c1 & Ec1 & E).
  apply obind_inv in E as (l1 & El1 & E).
  apply obind_inv in E as (c2 & Ec2 & E).
  apply obind_inv in E as (l2 & El2 & E).
  apply obind_inv in E as (c3 & Ec3 & E).
  apply obind_inv in E as (l3 & El3 & E).
  apply obind_inv in E as (c4 & Ec4 & E).
  apply obind_inv in E as (l4 & El4 & E).
  apply obind_inv in E as (sp & Esp & E).
  injection E as <-.
  pose proof (halve_pos H LH) as P1h. pose proof (halve_pos W LW) as P1w.
  pose proof (halve_pos _ P1h) as P2h. pose proof (halve_pos _ P1w) as P2w.
  pose proof (halve_pos _ P2h) as P3h. pose proof (halve_pos _ P2w) as P3w.
  fold h3 in P3h. fold w3 in P3w.
  pose proof (halve_pos _ P3h) as P4h. pose proof (halve_pos _ P3w) as P4w.
  pose proof (halve_pos _ P4h) as P5h. pose proof (halve_pos _ P4w) as P5w.
  assert (Up : bn_accepts training N (halve (halve h3)) (halve (halve w3)) = true ->
               bn_accepts training N (halve h3) (halve w3) = true /\
               bn_accepts training N h3 w3 = true /\
               bn_accepts training N (halve (halve H)) (halve (halve W)) = true /\
               bn_accepts training N (halve H) (halve W) = true).
  { intros B5.
    pose proof (bn_accepts_halve training N _ _ P4h P4w B5) as B4.
    pose proof (bn_accepts_halve training N _ _ P3h P3w B4) as B3.
    pose proof (bn_accepts_halve training N _ _ P2h P2w B3) as B2.
    pose proof (bn_accepts_halve training N _ _ P1h P1w B2) as B1.
    repeat split; assumption. }
  unfold Shapes.YOLOv8Backbone_forward.
  cbn [stem_layer stage_layer_1 stage_layer_2 stage_layer_3 stage_layer_4
       fst snd].
  rewrite (conv_module_down training 3 16 "relu6" stem N H W Estem ltac:(lia) LH LW).
  fold (halve H). fold (halve W).
  destruct (bn_accepts training N (halve (halve h3)) (halve (halve w3))) eqn:B5.
  - destruct (Up eq_refl) as (B4 & B3 & B2 & B1).
    rewrite B1. cbn [obind].
    rewrite (stage_shape training 16 32 1 "relu6" c1 l1 N _ _ Ec1 El1 ltac:(lia) P1h P1w).
    fold (halve (halve H)). fold (halve (halve W)). rewrite B2. cbn [obind].
    rewrite (stage_shape training 32 64 2 "relu6" c2 l2 N _ _ Ec2 El2 ltac:(lia) P2h P2w).
    fold (halve (halve (halve H))). fold (halve (halve (halve W))).
    fold h3. fold w3. rewrite B3. cbn [obind].
    rewrite (stage_shape training 64 128 2 "relu6" c3 l3 N _ _ Ec3 El3 ltac:(lia) P3h P3w).
    fold (halve h3). fold (halve w3). rewrite B4. cbn [obind].
    rewrite (stage_shape training 128 256 1 "relu6" c4 l4 N _ _ Ec4 El4 ltac:(lia) P4h P4w).
    fold (halve (halve h3)). fold (halve (halve w3)). rewrite B5. cbn [obind].
    rewrite (sppf_shape training 256 "relu6" sp N _ _ Esp ltac:(lia) P5h P5w), B5.
    reflexivity.
  - destruct (bn_accepts training N (halve H) (halve W)) eqn:B1; [|reflexivity].
    cbn [obind].
    rewrite (stage_shape training 16 32 1 "relu6" c1 l1 N _ _ Ec1 El1 ltac:(lia) P1h P1w).
    fold (halve (halve H)). fold (halve (halve W)).
    destruct (bn_accepts training N (halve (halve H)) (halve (halve W))) eqn:B2;
      [|reflexivity].
    cbn [obind].
    rewrite (stage_shape training 32 64 2 "relu6" c2 l2 N _ _ Ec2 El2 ltac:(lia) P2h P2w).
    fold (halve (halve (halve H))). fold (halve (halve (halve W))).
    fold h3. fold w3.
    destruct (bn_accepts training N h3 w3) eqn:B3; [|reflexivity].
    cbn [obind].
    rewrite (stage_shape training 64 128 2 "relu6" c3 l3 N _ _ Ec3 El3 ltac:(lia) P3h P3w).
    fold (halve h3). fold (halve w3).
    destruct (bn_accepts training N (halve h3) (halve w3)) eqn:B4; [|reflexivity].
    cbn [obind].
    rewrite (stage_shape training 128 256 1 "relu6" c4 l4 N _ _ Ec4 El4 ltac:(lia) P4h P4w).
    fold (halve (halve h3)). fold (halve (halve w3)). rewrite B5.
    reflexivity.
Qed.

Lemma cat1_pair : forall N c1 c2 H W H' W',
    Shapes.cat1 [[N; c1; H; W]; [N; c2; H'; W']] =
    if (H' =? H) && (W' =? W) then Ok [N; c1 + c2; H; W]
    else Raise RuntimeError.
Proof.
  intros. unfold Shapes.cat1. cbn [forallb Shapes.cat_compatible map nth list_sum].
  rewrite Nat.eqb_refl. cbn [andb].
  destruct (list_eq_dec Nat.eq_dec [H; W] [H; W]) as [_|NE]; [|congruence].
  cbn [andb].
  destruct (list_eq_dec Nat.eq_dec [H'; W'] [H; W]) as [E|NE].
  - injection E as -> ->. rewrite !Nat.eqb_refl. cbn [andb].
    unfold list_sum. cbn [fold_right]. now rewrite Nat.add_0_r.
  - destruct (Nat.eqb_spec H' H) as [->|_]; [|reflexivity].
    destruct (Nat.eqb_spec W' W) as [->|_]; [congruence | reflexivity].
Qed.

Lemma upsample_double : forall N C H W,
    1 <= C -> 1 <= H -> 1 <= W ->
    Shapes.upsample 2 [N; C; H; W] = Ok [N; C; H * 2; W * 2].
Proof.
  intros N C H W LC LH LW. unfold Shapes.upsample.
  destruct (Nat.eqb_spec C 0) as [Z|_]; [lia|].
  destruct (Nat.eqb_spec H 0) as [Z|_]; [lia|].
  destruct (Nat.eqb_spec W 0) as [Z|_]; [lia | reflexivity].
Qed.

(** The neck of [yolov8n_facecap_v2] on what the backbone returns: the
    upsampled maps must have the size of the maps they are concatenated
    with. *)
Lemma neck_shape : forall training nk N h3 w3,
    YOLOv8Neck_init (33 # 100) (1 # 4) 2 "relu6" = Ok nk ->
    1 <= h3 -> 1 <= w3 ->
    bn_accepts training N (halve (halve h3)) (halve (halve w3)) = true ->
    Shapes.YOLOv8Neck_forward training nk
      ([N; 64; h3; w3], [N; 128; halve h3; halve w3],
       [N; 256; halve (halve h3); halve (halve w3)]) =
    if (h3 mod 4 =? 0) && (w3 mod 4 =? 0)
    then Ok ([N; 64; h3; w3], [N; 128; halve h3; halve w3],
             [N; 256; halve (halve h3); halve (halve w3)])
    else Raise RuntimeError.
Proof.
  intros training nk N h3 w3 E L3h L3w B5.
  unfold YOLOv8Neck_init in E.
  apply obind_inv in E as (td2 & Etd2 & E).
  apply obind_inv in E as (td1 & Etd1 & E).
  apply obind_inv in E as (ds0 & Eds0 & E).
  apply obind_inv in E as (bu0 & Ebu0 & E).
  apply obind_inv in E as (ds1 & Eds1 & E).
  apply obind_inv in E as (bu1 & Ebu1 & E).
  injection E as <-.
  pose proof (halve_pos _ L3h) as L4h. pose proof (halve_pos _ L3w) as L4w.
  pose proof (halve_pos _ L4h) as L5h. pose proof (halve_pos _ L4w) as L5w.
  pose proof (bn_accepts_halve training N _ _ L4h L4w B5) as B4.
  pose proof (bn_accepts_halve training N _ _ L3h L3w B4) as B3.
  set (h4 := halve h3) in *. set (w4 := halve w3) in *.
  set (h5 := halve h4) in *. set (w5 := halve w4) in *.
  unfold Shapes.YOLOv8Neck_forward.
  cbn [upsample_p5 upsample_p4 topdown_layer_2 topdown_layer_1 down_sample_0
       bottomup_layer_0 down_sample_1 bottomup_layer_1].
  rewrite (upsample_double N 256 h5 w5) by (assumption || lia). cbn [obind].
  rewrite cat1_pair.
  assert (Q : (h3 mod 4 =? 0) && (w3 mod 4 =? 0) =
              ((h5 * 2 =? h4) && (w5 * 2 =? w4)) &&
              ((h4 * 2 =? h3) && (w4 * 2 =? w3))).
  { unfold h5, w5, h4, w4, halve.
    destruct (Nat.eqb_spec (h3 mod 4) 0); destruct (Nat.eqb_spec (w3 mod 4) 0);
      destruct (Nat.eqb_spec ((((h3 + 1) / 2 + 1) / 2) * 2) ((h3 + 1) / 2));
      destruct (Nat.eqb_spec ((((w3 + 1) / 2 + 1) / 2) * 2) ((w3 + 1) / 2));
      destruct (Nat.eqb_spec (((h3 + 1) / 2) * 2) h3);
      destruct (Nat.eqb_spec (((w3 + 1) / 2) * 2) w3);
      cbn [andb]; try reflexivity; exfalso; dlia. }
  rewrite Q.
  destruct ((h5 * 2 =? h4) && (w5 * 2 =? w4)); [|reflexivity].
  cbn [andb obind].
  rewrite (csp_layer_wide training (128 + 256) 64 false 1 "relu6" td2 N h4 w4
                          Etd2 ltac:(lia) L4h L4w), B4.
  cbn [obind].
  rewrite (upsample_double N 64 h4 w4) by (assumption || lia). cbn [obind].
  rewrite cat1_pair.
  destruct ((h4 * 2 =? h3) && (w4 * 2 =? w3)); [|reflexivity].
  cbn [obind].
  rewrite (csp_layer_wide training (64 + 64) 64 false 1 "relu6" td1 N h3 w3
                          Etd1 ltac:(lia) L3h L3w), B3.
  cbn [obind].
  rewrite (conv_module_down training 64 64 "relu6" ds0 N h3 w3 Eds0 ltac:(lia)
                            L3h L3w).
  fold (halve h3). fold (halve w3). fold h4. fold w4. rewrite B4. cbn [obind].
  rewrite cat1_pair, !Nat.eqb_refl. cbn [andb obind].
  rewrite (csp_layer_wide training (64 + 64) 128 false 1 "relu6" bu0 N h4 w4
                          Ebu0 ltac:(lia) L4h L4w), B4.
  cbn [obind].
  rewrite (conv_module_down training 128 128 "relu6" ds1 N h4 w4 Eds1
                            ltac:(lia) L4h L4w).
  fold (halve h4). fold (halve w4). fold h5. fold w5. rewrite B5. cbn [obind].
  rewrite cat1_pair, !Nat.eqb_refl. cbn [andb obind].
  rewrite (csp_layer_wide training (256 + 128) 256 false 1 "relu6" bu1 N h5 w5
                          Ebu1 ltac:(lia) L5h L5w), B5.
  reflexivity.
Qed.

(** The head convolutions of a head built with the default anchors. *)
Lemma model_head_convs : forall D d w r act (h : @Head R),
    Model_head D d w r act = Ok h ->
    MergedHead_init (int_of_Q (256 * w)) (D * 3) act = Ok (head_p3 h) /\
    MergedHead_init (int_of_Q (512 * w)) (D * 3) act = Ok (head_p4 h) /\
    MergedHead_init (int_of_Q (512 * w * r)) (D * 3) act = Ok (head_p5 h).
Proof.
  intros D d w r act h E. unfold Model_head, AnchornizedFaceQuality_init in E.
  apply obind_inv in E as (row0 & E0 & E).
  apply obind_inv in E as (a & Ea & E).
  apply obind_inv in E as (an & Ean & E).
  apply obind_inv in E as (n & En & E).
  assert (L : Z.of_nat (length row0 / 2) = 3%Z).
  { apply (f_equal (fun o => match o with
                             | Ok r0 => Z.of_nat (length r0 / 2)
                             | Raise _ => 3%Z
                             end)) in E0.
    symmetry. exact E0. }
  rewrite L in E.
  replace ((4 + 1 + (D - 1 - 4)) * 3)%Z with (D * 3)%Z in E by lia.
  apply obind_inv in E as (p3 & E3 & E).
  apply obind_inv in E as (p4 & E4 & E).
  apply obind_inv in E as (p5 & E5 & E).
  injection E as <-. cbn [head_p3 head_p4 head_p5].
  repeat split; assumption.
Qed.

Lemma halve_3 : forall n, halve (halve (halve n)) = (n + 7) / 8.
Proof. intros n. unfold halve. dlia. Qed.

Lemma halve_4 : forall n, halve (halve (halve (halve n))) = (n + 15) / 16.
Proof. intros n. unfold halve. dlia. Qed.

Lemma halve_5 : forall n, halve (halve (halve (halve (halve n)))) = (n + 31) / 32.
Proof. intros n. unfold halve. dlia. Qed.

(** X13.  Which inputs the detector of the repository takes.  For an
    input of shape (N, 3, H, W), the backbone, the neck and the three head
    convolutions of [yolov8n_facecap_v2()] return head outputs of
    3 * DATASET_NUM_DIMS channels at 1/8, 1/16 and 1/32 of the input size
    (rounded up) exactly when H and W are positive and ceil(H / 8) and
    ceil(W / 8) are multiples of 4 (so every multiple of 32, but also 25
    to 31 more than one).  Otherwise the call raises: [RuntimeError] for
    an empty image and for sizes the neck cannot concatenate, and, in
    training mode only, [ValueError] from batch normalisation for a single
    image whose coarsest map is 1 x 1. *)
Theorem model_accepts :
  forall K md training N H W,
    yolov8n_facecap_v2 (Z.of_nat K) = Ok md -> 0 < K ->
    Shapes.Model_forward training md [N; 3; H; W] =
    if (1 <=? H) && (1 <=? W) then
      if bn_accepts training N ((H + 31) / 32) ((W + 31) / 32) then
        if (((H + 7) / 8) mod 4 =? 0) && (((W + 7) / 8) mod 4 =? 0)
        then Ok [[N; 3 * K; (H + 7) / 8; (W + 7) / 8];
                 [N; 3 * K; (H + 15) / 16; (W + 15) / 16];
                 [N; 3 * K; (H + 31) / 32; (W + 31) / 32]]
        else Raise RuntimeError
      else Raise ValueError
    else Raise RuntimeError.
Proof.
  intros K md training N H W E HK.
  unfold yolov8n_facecap_v2, Model_init in E.
  apply obind_inv in E as (b & Eb & E).
  apply obind_inv in E as (nk & En & E).
  apply obind_inv in E as (h & Eh & E).
  injection E as <-.
  destruct (model_head_convs _ _ _ _ _ _ Eh) as (E3 & E4 & E5).
  unfold Shapes.Model_forward. cbn [backbone neck head].
  destruct (Nat.leb_spec 1 H) as [LH|LH].
  2:{ cbn [andb]. unfold YOLOv8Backbone_init in Eb.
      apply obind_inv in Eb as (stem & Estem & Eb).
      apply obind_inv in Eb as (c1 & Ec1 & Eb).
      apply obind_inv in Eb as (l1 & El1 & Eb).
      apply obind_inv in Eb as (c2 & Ec2 & Eb).
      apply obind_inv in Eb as (l2 & El2 & Eb).
      apply obind_inv in Eb as (c3 & Ec3 & Eb).
      apply obind_inv in Eb as (l3 & El3 & Eb).
      apply obind_inv in Eb as (c4 & Ec4 & Eb).
      apply obind_inv in Eb as (l4 & El4 & Eb).
      apply obind_inv in Eb as (sp & Esp & Eb).
      injection Eb as <-.
      unfold Shapes.YOLOv8Backbone_forward. cbn [stem_layer].
      rewrite (conv_module_empty training 3 16 "relu6" stem N H W Estem)
        by (left; lia).
      reflexivity. }
  destruct (Nat.leb_spec 1 W) as [LW|LW].
  2:{ cbn [andb]. unfold YOLOv8Backbone_init in Eb.
      apply obind_inv in Eb as (stem & Estem & Eb).
      apply obind_inv in Eb as (c1 & Ec1 & Eb).
      apply obind_inv in Eb as (l1 & El1 & Eb).
      apply obind_inv in Eb as (c2 & Ec2 & Eb).
      apply obind_inv in Eb as (l2 & El2 & Eb).
      apply obind_inv in Eb as (c3 & Ec3 & Eb).
      apply obind_inv in Eb as (l3 & El3 & Eb).
      apply obind_inv in Eb as (c4 & Ec4 & Eb).
      apply obind_inv in Eb as (l4 & El4 & Eb).
      apply obind_inv in Eb as (sp & Esp & Eb).
      injection Eb as <-.
      unfold Shapes.YOLOv8Backbone_forward. cbn [stem_layer].
      rewrite (conv_module_empty training 3 16 "relu6" stem N H W Estem)
        by (right; lia).
      reflexivity. }
  cbn [andb].
  rewrite (backbone_shape training b N H W Eb LH LW). cbv zeta.
  rewrite <- !halve_3, <- (halve_4 H), <- (halve_4 W), <- (halve_5 H),
          <- (halve_5 W).
  set (h3 := halve (halve (halve H))). set (w3 := halve (halve (halve W))).
  assert (L3h : 1 <= h3) by (unfold h3; repeat apply halve_pos; exact LH).
  assert (L3w : 1 <= w3) by (unfold w3; repeat apply halve_pos; exact LW).
  pose proof (halve_pos _ L3h) as L4h. pose proof (halve_pos _ L3w) as L4w.
  pose proof (halve_pos _ L4h) as L5h. pose proof (halve_pos _ L4w) as L5w.
  destruct (bn_accepts training N (halve (halve h3)) (halve (halve w3))) eqn:B5;
    [|reflexivity].
  cbn [obind].
  pose proof (bn_accepts_halve training N _ _ L4h L4w B5) as B4.
  pose proof (bn_accepts_halve training N _ _ L3h L3w B4) as B3.
  rewrite (neck_shape training nk N h3 w3 En L3h L3w B5).
  destruct ((h3 mod 4 =? 0) && (w3 mod 4 =? 0)); [|reflexivity].
  cbn [obind].
  rewrite (merged_head_shape training 64 _ "relu6" _ N h3 w3 E3 ltac:(lia)
                             ltac:(lia) L3h L3w), B3.
  cbn [obind].
  rewrite (merged_head_shape training 128 _ "relu6" _ N _ _ E4 ltac:(lia)
                             ltac:(lia) L4h L4w), B4.
  cbn [obind].
  rewrite (merged_head_shape training 256 _ "relu6" _ N _ _ E5 ltac:(lia)
                             ltac:(lia) L5h L5w), B5.
  cbn [obind].
  replace (Z.to_nat (Z.of_nat K * 3)) with (3 * K) by lia.
  reflexivity.
Qed.

Lemma layer_args_ok_nat : forall ci co k,
    layer_args_ok (Z.of_nat ci) (Z.of_nat co) (Z.of_nat k) 1 = true.
Proof.
  intros ci co k. unfold layer_args_ok. rewrite !Z.mod_1_r.
  cbn [Z.ltb Z.compare Z.eqb andb].
  now rewrite !(proj2 (Z.leb_le 0 _)) by lia.
Qed.

Lemma DarknetBottleneck_init_ok : forall c c' add act,
    In act recognized_activations ->
    exists b, DarknetBottleneck_init (Z.of_nat c) (Z.of_nat c') add act = Ok b.
Proof.
  intros c c' add act Hin. unfold DarknetBottleneck_init.
  rewrite half_int_nat.
  destruct (ConvModule_init_ok (Z.of_nat c) (Z.of_nat (c / 2)) 3 1 1 act 1
              (layer_args_ok_nat c (c / 2) 3) Hin) as (m1 & ->).
  destruct (ConvModule_init_ok (Z.of_nat (c / 2)) (Z.of_nat c') 3 1 1 act 1
              (layer_args_ok_nat (c / 2) c' 3) Hin) as (m2 & ->).
  cbn [obind]. eexists. reflexivity.
Qed.

Lemma append_times_ok : forall A n (mk : outcome A) a,
    mk = Ok a -> exists l, append_times n mk = Ok l.
Proof.
  intros A n mk a E. induction n as [|n (l & IH)]; cbn [append_times].
  - eexists. reflexivity.
  - rewrite E. cbn [obind]. rewrite E in IH. rewrite IH. cbn [obind].
    eexists. reflexivity.
Qed.

(** X12.  A [CSPLayer_2Conv] of input width [c_in >= 1], any output width
    and any number [n] of bottlenecks is built by its constructor (for a
    recognised activation) with [n] bottlenecks, and what its [forward]
    does to an input of shape (N, c_in, H, W) is decided by the widths
    alone.  The halved width [int(0.5 * c_out)] must leave a channel, and,
    when there are bottlenecks, so must its half: otherwise a convolution
    without output channels raises [RuntimeError].  Then the n + 2 tensors
    that are concatenated have together the channels [conv_out] was built
    for, and the result has shape (N, c_out, H, W); the only other failure
    is the [ValueError] of batch normalisation in training mode on a
    single value per channel. *)
Theorem csp_layer_channels_agree :
  forall ci co add n act,
    1 <= ci -> In act recognized_activations ->
    exists l,
      CSPLayer_2Conv_init (Z.of_nat ci) (Z.of_nat co) add (Z.of_nat n) act
      = Ok l /\
      length (bottlenecks l) = n /\
      forall training N H W,
        1 <= H -> 1 <= W ->
        Shapes.CSPLayer_2Conv_forward training l [N; ci; H; W] =
        if co / 2 =? 0 then Raise RuntimeError
        else if bn_accepts training N H W
        then if (0 <? n) && (co / 2 / 2 =? 0) then Raise RuntimeError
             else Ok [N; co; H; W]
        else Raise ValueError.
Proof.
  intros ci co add n act Lci Hin.
  assert (Ex : exists l, CSPLayer_2Conv_init (Z.of_nat ci) (Z.of_nat co) add
                                             (Z.of_nat n) act = Ok l).
  { unfold CSPLayer_2Conv_init. rewrite half_int_nat.
    destruct (ConvModule_init_ok (Z.of_nat ci) (Z.of_nat (co / 2))
                1 1 0 act 1 (layer_args_ok_nat ci (co / 2) 1) Hin)
      as (ml & ->).
    cbn [obind].
    destruct (DarknetBottleneck_init_ok (co / 2) (co / 2) add act Hin)
      as (b & Eb).
    destruct (append_times_ok _ (Z.to_nat (Z.of_nat n)) _ b Eb) as (bs & ->).
    cbn [obind].
    replace (Z.of_nat (co / 2) * (Z.of_nat n + 2))%Z
      with (Z.of_nat ((2 + n) * (co / 2))) by lia.
    destruct (ConvModule_init_ok (Z.of_nat ((2 + n) * (co / 2))) (Z.of_nat co)
                1 1 0 act 1 (layer_args_ok_nat _ co 1) Hin) as (mo & ->).
    cbn [obind]. eexists. reflexivity. }
  destruct Ex as (l & El). exists l. split; [exact El|]. split.
  - unfold CSPLayer_2Conv_init in El.
    apply obind_inv in El as (ml & _ & El).
    apply obind_inv in El as (mr & _ & El).
    apply obind_inv in El as (bs & Eb & El).
    apply obind_inv in El as (mo & _ & El).
    injection El as <-. cbn [bottlenecks].
    rewrite (proj1 (append_times_inv _ _ _ _ Eb)). apply Nat2Z.id.
  - intros training N H W LH LW.
    exact (csp_layer_shape training ci co add n act l N H W El LH LW).
Qed.

End ShapeFacts.

(* ================================================================== *)
(** * Malformed input of an inference call *)

Section InputFacts.
Context {T : Type} {SC : Scalar T}.
Variable Detections : Type.
Variable nms_forward : AnchornizedNMS -> Tensor T -> outcome Detections.
Variable torch_1_10 : bool.











End InputFacts.



(* ================================================================== *)
(** * The further properties on concrete inputs *)

Lemma repeated_call_leaves_head_witness :
  exists res h',
    forward_heads keep_all true example_x (train example_head false) = (res, h') /\
    forward_heads keep_all true example_x h' = (res, h').
Proof.
  exact (repeated_call_leaves_head (Tensor R) keep_all true
           (train example_head false) example_x 1 6 example_dims
           (example_head_ok false) eq_refl eq_refl ltac:(lia) eq_refl
           ltac:(cbn; lia) example_raw_ok).
Defined.

Lemma extra_head_outputs_ignored_witness :
  forward_heads keep_all true (example_x ++ [full [2; 5] 0%R]) example_head =
  match forward_heads keep_all true example_x example_head with
  | (Ok (TrainingOutputs x'), h') =>
      (Ok (TrainingOutputs (x' ++ [full [2; 5] 0%R])), h')
  | r => r
  end.
Proof.
  exact (extra_head_outputs_ignored (Tensor R) keep_all true example_head
           example_x [full [2; 5] 0%R] ltac:(cbn; lia)).
Defined.

Lemma too_many_anchor_groups_witness :
  exists h : Head,
    AnchornizedFaceQuality_init 6 (1 # 4) 2 "relu6" default_strides
                                (Some four_anchor_rows) 4 (1 # 100) (6 # 10)
    = Ok h /\
    nl h = 4 /\
    exists er h',
      forward pass_on keep_all true (full [1; 64; 4; 4] 0%R)
              (full [1; 128; 2; 2] 0%R) (full [1; 256; 1; 1] 0%R) h
      = (Raise er, h').
Proof.
  eexists. split; [reflexivity|]. split; [reflexivity|].
  refine (too_many_anchor_groups (Tensor R) keep_all true pass_on _ _ _ _ _).
  cbn. lia.
Defined.

Lemma anchors_refused_witness :
  AnchornizedFaceQuality_init (T:=R) 6 (1 # 4) 2 "relu6" default_strides
                              (Some []) 4 (1 # 100) (6 # 10)
  = Raise IndexError /\
  AnchornizedFaceQuality_init 6 (1 # 4) 2 "relu6" default_strides
                              (Some ragged_rows) 4 (1 # 100) (6 # 10)
  = Raise ValueError /\
  AnchornizedFaceQuality_init 6 (1 # 4) 2 "relu6" default_strides
                              (Some odd_rows) 4 (1 # 100) (6 # 10)
  = Raise RuntimeError.
Proof.
  split; [|split].
  - exact (proj1 (anchors_refused 6 (1 # 4) 2 "relu6" default_strides []
                    4 (1 # 100) (6 # 10)) eq_refl).
  - refine (proj1 (proj2 (anchors_refused 6 (1 # 4) 2 "relu6" default_strides
                            ragged_rows 4 (1 # 100) (6 # 10)))
                  _ _ eq_refl _).
    intros F. inversion F as [|? ? _ F']. inversion F' as [|? ? E _].
    discriminate E.
  - exact (proj2 (proj2 (anchors_refused 6 (1 # 4) 2 "relu6" default_strides
                            odd_rows 4 (1 # 100) (6 # 10)))
                 _ _ eq_refl ltac:(repeat constructor) eq_refl).
Defined.

Lemma anchors_paired_witness :
  nl example_head = 3 /\ na example_head = 6 / 2 /\
  tget (anchors example_head) [1; 1; 0] = INR 62.
Proof.
  exact (anchors_paired 6 (1 # 4) 2 "relu6" default_strides default_anchors
           4 (1 # 100) (6 # 10) example_head 1 1 0 eq_refl
           ltac:(cbn; lia) ltac:(cbn; lia) ltac:(lia)).
Defined.

Lemma few_channels_raise_witness :
  exists h',
    forward_heads keep_all true few_channel_x (train example_head false)
    = (Raise RuntimeError, h') /\
    grids_only (train example_head false) h' /\ slot_built h' 0 4 4.
Proof.
  exact (few_channels_raise (Tensor R) keep_all true (train example_head false)
           few_channel_x (full [1; 9; 4; 4] 0%R) 1 3 4 4
           (example_head_ok false) eq_refl eq_refl ltac:(cbn; lia)
           eq_refl eq_refl ltac:(lia)).
Defined.

Lemma example_biases_ok :
  Forall (bias_ok 6) [example_bias; example_bias; example_bias].
Proof.
  assert (B : bias_ok 6 example_bias).
  { split; [reflexivity | now exists 3]. }
  repeat (apply Forall_cons; [exact B|]). apply Forall_nil.
Qed.

Lemma example_strides_nonzero : forall i s,
    i < 3 -> nth_error (strides example_head) i = Some s -> s <> 0%R.
Proof.
  intros [|[|[|i]]] s Hi E; [| | |lia]; injection E as <-; lra.
Qed.

Lemma bias_init_shifts_objectness_witness :
  exists b3' b4' b5',
    bias_init example_head 8 example_bias example_bias example_bias
    = (Ok tt, [b3'; b4'; b5']) /\
    forall i b b',
      nth_error [example_bias; example_bias; example_bias] i = Some b ->
      nth_error [b3'; b4'; b5'] i = Some b' ->
      match nth_error (strides example_head) i with
      | Some s => shifted 6 (prior s) b b'
      | None => b' = b
      end.
Proof.
  exact (bias_init_shifts_objectness example_head 8 example_bias example_bias
           example_bias 6 eq_refl ltac:(lia) example_biases_ok
           example_strides_nonzero).
Defined.

Lemma bias_init_zero_stride_witness :
  exists b3' b4' b5',
    bias_init zero_stride_head 8 example_bias example_bias example_bias
    = (Raise ZeroDivisionError, [b3'; b4'; b5']) /\
    forall j b b',
      nth_error [example_bias; example_bias; example_bias] j = Some b ->
      nth_error [b3'; b4'; b5'] j = Some b' ->
      (1 <= j -> b' = b) /\
      (j < 1 -> exists s, nth_error (strides zero_stride_head) j = Some s /\
                          shifted 6 (prior s) b b').
Proof.
  refine (bias_init_zero_stride zero_stride_head 8 example_bias example_bias
            example_bias 6 1 eq_refl ltac:(lia) example_biases_ok
            ltac:(lia) eq_refl _).
  intros [|j] s Hj E; [|lia]. injection E as <-. lra.
Defined.

Lemma bias_init_twice_witness :
  exists b3' b4' b5' c3 c4 c5,
    bias_init example_head 8 example_bias example_bias example_bias
    = (Ok tt, [b3'; b4'; b5']) /\
    bias_init example_head 8 b3' b4' b5' = (Ok tt, [c3; c4; c5]) /\
    forall i b c,
      nth_error [example_bias; example_bias; example_bias] i = Some b ->
      nth_error [c3; c4; c5] i = Some c ->
      match nth_error (strides example_head) i with
      | Some s => shifted 6 (prior s + prior s) b c
      | None => c = b
      end.
Proof.
  exact (bias_init_twice example_head 8 8 example_bias example_bias
           example_bias 6 eq_refl ltac:(lia) example_biases_ok
           example_strides_nonzero).
Defined.

Lemma bias_init_no_objectness_witness :
  exists h : Head,
    yolov8n_facecap_v2_head 4 = Ok h /\
    exists e,
      bias_init h 8 (full [12] 0%R) (full [12] 0%R) (full [12] 0%R)
      = (Raise e, [full [12] 0%R; full [12] 0%R; full [12] 0%R]) /\
      (e = IndexError \/ e = RuntimeError).
Proof.
  eexists. split; [reflexivity|].
  refine (bias_init_no_objectness _ 8 (full [12] 0%R) (full [12] 0%R)
            (full [12] 0%R) _ _).
  - reflexivity.
  - discriminate.
Defined.

Lemma example_bn_channels : bn_channels 2 (bn_params example_conv_module).
Proof.
  unfold bn_channels.
  repeat (apply Forall_cons; [split; reflexivity|]). apply Forall_nil.
Qed.

Lemma fuse_preserves_outputs_witness :
  exists m',
    fuse example_conv_module = Ok m' /\ fuse m' = Ok m' /\
    shape (conv_weight m') = [2; 1; 1; 1] /\
    forall o patch, o < 2 ->
      ConvModule_call m' o patch = ConvModule_call example_conv_module o patch.
Proof.
  exact (fuse_preserves_outputs example_conv_module 2 1 1 1 eq_refl eq_refl
           eq_refl eq_refl example_bn_channels).
Defined.

Lemma csp_layer_channels_agree_witness :
  exists l,
    CSPLayer_2Conv_init 32 32 true 1 "relu6" = Ok l /\
    length (bottlenecks l) = 1 /\
    forall training N H W,
      1 <= H -> 1 <= W ->
      Shapes.CSPLayer_2Conv_forward training l [N; 32; H; W] =
      if bn_accepts training N H W then Ok [N; 32; H; W] else Raise ValueError.
Proof.
  exact (csp_layer_channels_agree 32 32 true 1 "relu6" ltac:(lia)
           (or_introl eq_refl)).
Defined.

Lemma model_accepts_witness :
  exists md,
    yolov8n_facecap_v2 6 = Ok md /\
    Shapes.Model_forward false md [1; 3; 64; 64] =
    Ok [[1; 18; 8; 8]; [1; 18; 4; 4]; [1; 18; 2; 2]].
Proof.
  eexists. split; [reflexivity|].
  exact (model_accepts 6 _ false 1 64 64 eq_refl ltac:(lia)).
Defined.

Lemma decoded_centre_near_cell_witness :
  exists c h',
    candidates true example_x (train example_head false) = (Ok c, h') /\
    ((INR 0 - 1 / 2) * INR 16 <= tget c [0; 48 + 6; 0]%nat
     <= (INR 0 + 3 / 2) * INR 16)%R /\
    ((INR 1 - 1 / 2) * INR 16 <= tget c [0; 48 + 6; 1]%nat
     <= (INR 1 + 3 / 2) * INR 16)%R /\
    forall k, 4 <= k -> k < 6 -> (0 <= tget c [0; 48 + 6; k]%nat <= 1)%R.
Proof.
  refine (decoded_centre_near_cell true (train example_head false)
            example_x 1 6 example_dims 1 (full [1; 18; 2; 2] 0%R) (2, 2)
            (INR 16) 0 1 1 0 (example_head_ok false) eq_refl eq_refl
            ltac:(lia) eq_refl ltac:(cbn; lia) example_raw_ok
            eq_refl eq_refl eq_refl ltac:(lia) ltac:(cbn; lia)
            ltac:(cbn; lia) ltac:(cbn; lia) _).
  apply pos_INR.
Defined.
